(** * Support bundle manager: the node-bundle collection coordinator

    A shallow embedding of [pkg/manager] (the [SupportBundleManager] of
    manager.go, [Cluster.GenerateClusterBundle] and the log collector of
    cluster.go) and the properties of its phase state machine, its node set
    tracker, its packager and its log collector. *)

From Stdlib Require Import ZArith Lia Ascii String List Sorted.
From stdpp Require Import base option list strings gmap fin_maps.

Local Open Scope string_scope.
Local Open Scope Z_scope.

(** ** Go standard library functions used by the manager *)

Module Go.

(** [strings.HasPrefix] is [String.prefix] of the standard library. *)
Definition HasPrefix (s pre : string) : bool := String.prefix pre s.

Definition rev_string (s : string) : string :=
  string_of_list_ascii (rev (list_ascii_of_string s)).

(** [strings.HasSuffix(s, suffix)]. *)
Definition HasSuffix (s suffix : string) : bool :=
  String.prefix (rev_string suffix) (rev_string s).

(** [strings.TrimSuffix(s, suffix)]: [s[:len(s)-len(suffix)]] when [s]
    ends with [suffix], [s] otherwise. *)
Definition TrimSuffix (s suffix : string) : string :=
  if HasSuffix s suffix
  then String.substring 0 (String.length s - String.length suffix) s
  else s.

(** First field of the list gets one more character in front. *)
Definition cons_head (c : ascii) (fields : list string) : list string :=
  match fields with
  | [] => [String c ""]
  | f :: fs => String c f :: fs
  end.

(** [strings.Split(s, sep)] for a non-empty [sep]: the substrings between
    the leftmost non-overlapping occurrences of [sep]. [skip] counts the
    characters of a matched separator that are still to be dropped. *)
Fixpoint split_from (sep : string) (skip : nat) (s : string) : list string :=
  match s with
  | EmptyString => [""]
  | String c s' =>
      match skip with
      | S k => split_from sep k s'
      | O =>
          if String.prefix sep s
          then "" :: split_from sep (String.length sep - 1) s'
          else cons_head c (split_from sep 0 s')
      end
  end.

(** With an empty separator Go splits after every character. *)
Definition Split (s sep : string) : list string :=
  match sep with
  | EmptyString => map (fun c => String c "") (list_ascii_of_string s)
  | _ => split_from sep 0 s
  end.

(** [strings.Replace(s, old, new, -1)] for a non-empty [old]. *)
Fixpoint replace_from (old new : string) (skip : nat) (s : string) : string :=
  match s with
  | EmptyString => ""
  | String c s' =>
      match skip with
      | S k => replace_from old new k s'
      | O =>
          if String.prefix old s
          then new +:+ replace_from old new (String.length old - 1) s'
          else String c (replace_from old new 0 s')
      end
  end.

Definition ReplaceAll (s old new : string) : string :=
  replace_from old new 0 s.

(** [filepath.Ext(path)]: scanning from the end and stopping at a path
    separator, the suffix that starts at the last dot of the final
    element; empty when there is no dot. *)
Fixpoint ext_scan (rev_path : list ascii) (acc : list ascii) : string :=
  match rev_path with
  | [] => ""
  | c :: r =>
      if Ascii.eqb c "/" then ""
      else if Ascii.eqb c "." then string_of_list_ascii (c :: acc)
      else ext_scan r (c :: acc)
  end.

Definition Ext (path : string) : string :=
  ext_scan (rev (list_ascii_of_string path)) [].

(** [err.Error()] of [errors.New(msg)] is [msg]; an error value is
    represented by its message. *)
Definition error := string.

Definition errors_New (msg : string) : error := msg.

(** [errors.Wrap(err, msg).Error()] is [msg + ": " + err.Error()]. *)
Definition errors_Wrap (err : error) (msg : string) : error :=
  msg +:+ ": " +:+ err.

End Go.

(** ** Data model *)

Import Go.

(** [types.ManagerPhase]. The constants live in pkg/types; only their
    identity matters here. *)
Inductive ManagerPhase :=
| ManagerPhaseInit
| ManagerPhaseClusterBundle
| ManagerPhaseNodeBundle
| ManagerPhasePackaging
| ManagerPhaseDone.

Global Instance ManagerPhase_eq_dec : EqDecision ManagerPhase.
Proof. solve_decision. Defined.

(** Modelled from the spec: [ManagerStatus] and its setters are declared
    outside the sources at hand. The spec gives it a phase name, an integer
    progress percentage, an optional error message and the final archive name
    and size; each setter stores its arguments. *)
Record ManagerStatus := {
  Phase : option ManagerPhase;
  Error : bool;
  ErrorMessage : string;
  Progress : Z;
  Filename : string;
  Filesize : Z
}.

Definition status_SetPhase (p : ManagerPhase) (s : ManagerStatus) : ManagerStatus :=
  {| Phase := Some p; Error := Error s; ErrorMessage := ErrorMessage s;
     Progress := Progress s; Filename := Filename s; Filesize := Filesize s |}.

Definition status_SetError (e : string) (s : ManagerStatus) : ManagerStatus :=
  {| Phase := Phase s; Error := true; ErrorMessage := e;
     Progress := Progress s; Filename := Filename s; Filesize := Filesize s |}.

Definition status_SetProgress (p : Z) (s : ManagerStatus) : ManagerStatus :=
  {| Phase := Phase s; Error := Error s; ErrorMessage := ErrorMessage s;
     Progress := p; Filename := Filename s; Filesize := Filesize s |}.

Definition status_SetFileinfo (name : string) (size : Z) (s : ManagerStatus) : ManagerStatus :=
  {| Phase := Phase s; Error := Error s; ErrorMessage := ErrorMessage s;
     Progress := Progress s; Filename := name; Filesize := size |}.

(** The zero value of the status. *)
Definition status_zero : ManagerStatus :=
  {| Phase := None; Error := false; ErrorMessage := ""; Progress := 0;
     Filename := ""; Filesize := 0 |}.

(** An unbuffered [chan struct{}]. A send completes only when a goroutine is
    parked in a receive on the channel; the flag says whether one is. *)
Inductive chan := Chan (receiver_parked : bool).

(** The [context.Context] made by [signals.SetupSignalHandler]. The field of
    the manager holds the nil interface ([None]) until it is assigned. *)
Inductive Context := SignalContext.

(** The fields of the struct that the coordinator reads or writes. The
    client handles ([restConfig], [k8s], [k8sMetrics], [discovery], [state])
    are represented by the calls that create and use them. [WaitTimeout] is a
    [time.Duration], in nanoseconds. [nodesLock] is [true] while a goroutine
    holds the mutex. A nil map reads like the empty map. *)
Record SupportBundleManager := {
  Namespaces : list string;
  NamespaceList : string;
  BundleName : string;
  bundleFileName : string;
  OutputDir : string;
  WaitTimeout : Z;
  ManagerPodIP : string;
  Standalone : bool;
  ImageName : string;
  ImagePullPolicy : string;
  KubeConfig : string;
  PodNamespace : string;
  NodeSelector : string;
  context : option Context;
  status : ManagerStatus;
  ch : option chan;
  done : bool;
  nodesLock : bool;
  expectedNodes : gmap string string
}.

Definition set_Namespaces (v : list string) (m : SupportBundleManager) : SupportBundleManager :=
  {| Namespaces := v; NamespaceList := NamespaceList m;
     BundleName := BundleName m; bundleFileName := bundleFileName m;
     OutputDir := OutputDir m; WaitTimeout := WaitTimeout m;
     ManagerPodIP := ManagerPodIP m; Standalone := Standalone m;
     ImageName := ImageName m; ImagePullPolicy := ImagePullPolicy m;
     KubeConfig := KubeConfig m; PodNamespace := PodNamespace m;
     NodeSelector := NodeSelector m; context := context m;
     status := status m; ch := ch m; done := done m;
     nodesLock := nodesLock m; expectedNodes := expectedNodes m |}.

Definition set_bundleFileName (v : string) (m : SupportBundleManager) : SupportBundleManager :=
  {| Namespaces := Namespaces m; NamespaceList := NamespaceList m;
     BundleName := BundleName m; bundleFileName := v;
     OutputDir := OutputDir m; WaitTimeout := WaitTimeout m;
     ManagerPodIP := ManagerPodIP m; Standalone := Standalone m;
     ImageName := ImageName m; ImagePullPolicy := ImagePullPolicy m;
     KubeConfig := KubeConfig m; PodNamespace := PodNamespace m;
     NodeSelector := NodeSelector m; context := context m;
     status := status m; ch := ch m; done := done m;
     nodesLock := nodesLock m; expectedNodes := expectedNodes m |}.

Definition set_OutputDir (v : string) (m : SupportBundleManager) : SupportBundleManager :=
  {| Namespaces := Namespaces m; NamespaceList := NamespaceList m;
     BundleName := BundleName m; bundleFileName := bundleFileName m;
     OutputDir := v; WaitTimeout := WaitTimeout m;
     ManagerPodIP := ManagerPodIP m; Standalone := Standalone m;
     ImageName := ImageName m; ImagePullPolicy := ImagePullPolicy m;
     KubeConfig := KubeConfig m; PodNamespace := PodNamespace m;
     NodeSelector := NodeSelector m; context := context m;
     status := status m; ch := ch m; done := done m;
     nodesLock := nodesLock m; expectedNodes := expectedNodes m |}.

Definition set_WaitTimeout (v : Z) (m : SupportBundleManager) : SupportBundleManager :=
  {| Namespaces := Namespaces m; NamespaceList := NamespaceList m;
     BundleName := BundleName m; bundleFileName := bundleFileName m;
     OutputDir := OutputDir m; WaitTimeout := v;
     ManagerPodIP := ManagerPodIP m; Standalone := Standalone m;
     ImageName := ImageName m; ImagePullPolicy := ImagePullPolicy m;
     KubeConfig := KubeConfig m; PodNamespace := PodNamespace m;
     NodeSelector := NodeSelector m; context := context m;
     status := status m; ch := ch m; done := done m;
     nodesLock := nodesLock m; expectedNodes := expectedNodes m |}.

Definition set_PodNamespace (v : string) (m : SupportBundleManager) : SupportBundleManager :=
  {| Namespaces := Namespaces m; NamespaceList := NamespaceList m;
     BundleName := BundleName m; bundleFileName := bundleFileName m;
     OutputDir := OutputDir m; WaitTimeout := WaitTimeout m;
     ManagerPodIP := ManagerPodIP m; Standalone := Standalone m;
     ImageName := ImageName m; ImagePullPolicy := ImagePullPolicy m;
     KubeConfig := KubeConfig m; PodNamespace := v;
     NodeSelector := NodeSelector m; context := context m;
     status := status m; ch := ch m; done := done m;
     nodesLock := nodesLock m; expectedNodes := expectedNodes m |}.

Definition set_context (v : option Context) (m : SupportBundleManager) : SupportBundleManager :=
  {| Namespaces := Namespaces m; NamespaceList := NamespaceList m;
     BundleName := BundleName m; bundleFileName := bundleFileName m;
     OutputDir := OutputDir m; WaitTimeout := WaitTimeout m;
     ManagerPodIP := ManagerPodIP m; Standalone := Standalone m;
     ImageName := ImageName m; ImagePullPolicy := ImagePullPolicy m;
     KubeConfig := KubeConfig m; PodNamespace := PodNamespace m;
     NodeSelector := NodeSelector m; context := v; status := status m;
     ch := ch m; done := done m; nodesLock := nodesLock m;
     expectedNodes := expectedNodes m |}.

Definition set_status (v : ManagerStatus) (m : SupportBundleManager) : SupportBundleManager :=
  {| Namespaces := Namespaces m; NamespaceList := NamespaceList m;
     BundleName := BundleName m; bundleFileName := bundleFileName m;
     OutputDir := OutputDir m; WaitTimeout := WaitTimeout m;
     ManagerPodIP := ManagerPodIP m; Standalone := Standalone m;
     ImageName := ImageName m; ImagePullPolicy := ImagePullPolicy m;
     KubeConfig := KubeConfig m; PodNamespace := PodNamespace m;
     NodeSelector := NodeSelector m; context := context m; status := v;
     ch := ch m; done := done m; nodesLock := nodesLock m;
     expectedNodes := expectedNodes m |}.

Definition set_ch (v : option chan) (m : SupportBundleManager) : SupportBundleManager :=
  {| Namespaces := Namespaces m; NamespaceList := NamespaceList m;
     BundleName := BundleName m; bundleFileName := bundleFileName m;
     OutputDir := OutputDir m; WaitTimeout := WaitTimeout m;
     ManagerPodIP := ManagerPodIP m; Standalone := Standalone m;
     ImageName := ImageName m; ImagePullPolicy := ImagePullPolicy m;
     KubeConfig := KubeConfig m; PodNamespace := PodNamespace m;
     NodeSelector := NodeSelector m; context := context m;
     status := status m; ch := v; done := done m; nodesLock := nodesLock m;
     expectedNodes := expectedNodes m |}.

Definition set_done (v : bool) (m : SupportBundleManager) : SupportBundleManager :=
  {| Namespaces := Namespaces m; NamespaceList := NamespaceList m;
     BundleName := BundleName m; bundleFileName := bundleFileName m;
     OutputDir := OutputDir m; WaitTimeout := WaitTimeout m;
     ManagerPodIP := ManagerPodIP m; Standalone := Standalone m;
     ImageName := ImageName m; ImagePullPolicy := ImagePullPolicy m;
     KubeConfig := KubeConfig m; PodNamespace := PodNamespace m;
     NodeSelector := NodeSelector m; context := context m;
     status := status m; ch := ch m; done := v; nodesLock := nodesLock m;
     expectedNodes := expectedNodes m |}.

Definition set_nodesLock (v : bool) (m : SupportBundleManager) : SupportBundleManager :=
  {| Namespaces := Namespaces m; NamespaceList := NamespaceList m;
     BundleName := BundleName m; bundleFileName := bundleFileName m;
     OutputDir := OutputDir m; WaitTimeout := WaitTimeout m;
     ManagerPodIP := ManagerPodIP m; Standalone := Standalone m;
     ImageName := ImageName m; ImagePullPolicy := ImagePullPolicy m;
     KubeConfig := KubeConfig m; PodNamespace := PodNamespace m;
     NodeSelector := NodeSelector m; context := context m;
     status := status m; ch := ch m; done := done m; nodesLock := v;
     expectedNodes := expectedNodes m |}.

Definition set_expectedNodes (v : gmap string string) (m : SupportBundleManager) : SupportBundleManager :=
  {| Namespaces := Namespaces m; NamespaceList := NamespaceList m;
     BundleName := BundleName m; bundleFileName := bundleFileName m;
     OutputDir := OutputDir m; WaitTimeout := WaitTimeout m;
     ManagerPodIP := ManagerPodIP m; Standalone := Standalone m;
     ImageName := ImageName m; ImagePullPolicy := ImagePullPolicy m;
     KubeConfig := KubeConfig m; PodNamespace := PodNamespace m;
     NodeSelector := NodeSelector m; context := context m;
     status := status m; ch := ch m; done := done m;
     nodesLock := nodesLock m; expectedNodes := v |}.


(** ** The world outside the manager *)

(** What the calls into the operating system, the cluster API and the other
    parts of the package return. Each is called at most once with given
    arguments in a run, so a function of the arguments covers every
    behaviour. The last two fields describe the other goroutines: the node
    names for which ingestion goroutines call [completeNode] while the
    control goroutine is parked in [<-m.ch] (in the order they take the
    lock), and whether the process ever receives the signal that cancels the
    context. *)
Record Env := {
  filepath_Join : string -> string -> string;
  TempDir_returns : string;
  MkdirAll_returns : string -> option error;
  Rename_returns : string -> string -> option error;
  Stat_Size_returns : string -> Z + error;
  Create_returns : string -> option error;
  zip_command_returns : string -> list string -> option error;
  zip_parse : list Byte.byte -> option error;
  Copy_returns : string -> option error;
  InClusterConfig_returns : option error;
  NewKubernetesClient_returns : option error;
  NewMetricsClient_returns : option error;
  NewDiscoveryClient_returns : option error;
  PodNamespace_returns : string;
  GetState_returns : string -> string -> string + error;
  SupportBundleStateGenerating : string;
  GetNamespace_returns : string -> string + error;
  GetKubernetesVersion_returns : string + error;
  GetSupportBundle_returns : string -> string -> option error;
  Now_returns : string;
  GetNodesListByLabels_returns : string -> list string + error;
  AgentDaemonSet_Create_returns : string -> string -> option error;
  AgentDaemonSet_Cleanup_returns : option error;
  arrivals : list string;
  signal_delivered : bool
}.

(** The manager together with the files written by the ingestion
    endpoint. *)
Record World := {
  sbm : SupportBundleManager;
  files : gmap string (list Byte.byte)
}.

Definition upd_sbm (f : SupportBundleManager -> SupportBundleManager) (w : World) : World :=
  {| sbm := f (sbm w); files := files w |}.

Definition write_file (path : string) (content : list Byte.byte) (w : World) : World :=
  {| sbm := sbm w; files := <[path := content]> (files w) |}.

(** ** Observable events *)

Inductive Level := DebugLevel | InfoLevel | WarnLevel | ErrorLevel.

Inductive LogArg :=
| Str (s : string)
| Int (z : Z)
| PhaseName (p : ManagerPhase)
| NodeMap (nodes : gmap string string).

Inductive StatusUpdate :=
| SetPhase (p : ManagerPhase)
| SetError (e : string)
| SetProgress (p : Z)
| SetFileinfo (name : string) (size : Z).

(** A logrus line, a call of a [ManagerStatus] setter, a call that leaves
    the package (function name and arguments), a completed send on [m.ch], a
    completed receive from [m.ch], a completed receive from
    [m.context.Done()]. *)
Inductive Event :=
| Log (lvl : Level) (format : string) (args : list LogArg)
| Status (u : StatusUpdate)
| Call (fn : string) (args : list string)
| ChanSend
| ChanRecv
| ContextDone.

(** ** Computations of a goroutine *)

(** A goroutine returns, panics, or stays parked for ever. *)
Inductive outcome (A : Type) :=
| Returns (a : A)
| Panics (msg : string)
| Blocks.

Arguments Returns {A} a.
Arguments Panics {A} msg.
Arguments Blocks {A}.

Record result (A : Type) := Result {
  out : outcome A;
  post : World;
  events : list Event
}.

Arguments Result {A} out post events.
Arguments out {A} r.
Arguments post {A} r.
Arguments events {A} r.

Definition M (A : Type) : Type := World -> result A.

Definition ret {A} (a : A) : M A := fun w => Result (Returns a) w [].

Definition bind {A B} (c : M A) (f : A -> M B) : M B := fun w =>
  match c w with
  | Result (Returns a) w1 t1 =>
      match f a w1 with
      | Result o w2 t2 => Result o w2 (t1 ++ t2)
      end
  | Result (Panics msg) w1 t1 => Result (Panics msg) w1 t1
  | Result Blocks w1 t1 => Result Blocks w1 t1
  end.

Notation "'let*' x ':=' c 'in' k" := (bind c (fun x => k))
  (at level 10, x pattern, c at level 100, k at level 200,
   format "'[v' 'let*'  x  ':='  c  'in' '/' k ']'").

Notation "c1 >> c2" := (bind c1 (fun _ => c2))
  (at level 100, c2 at level 200, right associativity).

Definition get_sbm : M SupportBundleManager := fun w => Result (Returns (sbm w)) w [].

Definition set_sbm (f : SupportBundleManager -> SupportBundleManager) : M unit :=
  fun w => Result (Returns tt) (upd_sbm f w) [].

Definition emit (e : Event) : M unit := fun w => Result (Returns tt) w [e].

Definition panic {A} (msg : string) : M A := fun w => Result (Panics msg) w [].

Definition block {A} : M A := fun w => Result Blocks w [].

Definition logf (lvl : Level) (format : string) (args : list LogArg) : M unit :=
  emit (Log lvl format args).

Definition call (fn : string) (args : list string) : M unit := emit (Call fn args).

(** The setters of [m.status]. *)
Definition SetPhase_ (p : ManagerPhase) : M unit :=
  set_sbm (fun m => set_status (status_SetPhase p (status m)) m) >> emit (Status (SetPhase p)).

Definition SetError_ (e : string) : M unit :=
  set_sbm (fun m => set_status (status_SetError e (status m)) m) >> emit (Status (SetError e)).

Definition SetProgress_ (p : Z) : M unit :=
  set_sbm (fun m => set_status (status_SetProgress p (status m)) m) >> emit (Status (SetProgress p)).

Definition SetFileinfo_ (name : string) (size : Z) : M unit :=
  set_sbm (fun m => set_status (status_SetFileinfo name size (status m)) m)
  >> emit (Status (SetFileinfo name size)).

(** ** The manager (manager.go) *)

Section Manager.

Variable E : Env.

(** [len(s) == 0] and [s == ""] on a string. *)
Definition len0 (s : string) : bool := Nat.eqb (String.length s) 0.

Definition getWorkingDir (m : SupportBundleManager) : string :=
  filepath_Join E (OutputDir m) "bundle".

Definition getBundlefile (m : SupportBundleManager) : string :=
  filepath_Join E (OutputDir m) (bundleFileName m).

Definition getBundlefilesize : M (Z * option error) :=
  let* m := get_sbm in
  call "os.Stat" [getBundlefile m] >>
  match Stat_Size_returns E (getBundlefile m) with
  | inr err => ret (0, Some err)
  | inl size => ret (size, None)
  end.

Definition check : M (option error) :=
  let* m := get_sbm in
  if match Namespaces m with [] => true | n0 :: _ => len0 n0 end
  then ret (Some (errors_New "namespace is not specified"))
  else if String.eqb (BundleName m) ""
  then ret (Some (errors_New "support bundle name is not specified"))
  else if String.eqb (ManagerPodIP m) ""
  then ret (Some (errors_New "manager pod IP is not specified"))
  else if String.eqb (ImageName m) ""
  then ret (Some (errors_New "image name is not specified"))
  else if String.eqb (ImagePullPolicy m) ""
  then ret (Some (errors_New "image pull policy is not specified"))
  else
    (if String.eqb (OutputDir m) ""
     then set_sbm (set_OutputDir (filepath_Join E (TempDir_returns E) "support-bundle-kit"))
     else ret tt) >>
    let* m := get_sbm in
    call "os.MkdirAll" [getWorkingDir m] >>
    match MkdirAll_returns E (getWorkingDir m) with
    | Some err => ret (Some err)
    | None => ret None
    end.

Definition initClients : M (option error) :=
  call "rest.InClusterConfig" [] >>
  match InClusterConfig_returns E with
  | Some err => ret (Some err)
  | None =>
  call "client.NewKubernetesClient" [] >>
  match NewKubernetesClient_returns E with
  | Some err => ret (Some err)
  | None =>
  call "client.NewMetricsClient" [] >>
  match NewMetricsClient_returns E with
  | Some err => ret (Some err)
  | None =>
  call "client.NewDiscoveryClient" [] >>
  match NewDiscoveryClient_returns E with
  | Some err => ret (Some err)
  | None => ret None
  end end end end.

Definition initStateStore : M unit :=
  let* m := get_sbm in
  call "NewLocalStore" [PodNamespace m; BundleName m].

Definition phaseInit : M (option error) :=
  set_sbm (fun m => set_Namespaces (Split (NamespaceList m) ",") m) >>
  let* err := check in
  match err with
  | Some err => ret (Some err)
  | None =>
  call "signals.SetupSignalHandler" [] >>
  set_sbm (set_context (Some SignalContext)) >>
  let* err := initClients in
  match err with
  | Some err => ret (Some err)
  | None =>
  set_sbm (set_PodNamespace (PodNamespace_returns E)) >>
  initStateStore >>
  let* m := get_sbm in
  call "state.GetState" [PodNamespace m; BundleName m] >>
  match GetState_returns E (PodNamespace m) (BundleName m) with
  | inr err => ret (Some err)
  | inl state =>
  if negb (String.eqb state (SupportBundleStateGenerating E))
  then ret (Some ("invalid start state " +:+ state))
  else
  call "go HttpServer.Run" [] >>
  ret None
  end end end.

(** [Cluster.GenerateClusterBundle] of cluster.go. The dumps of the cluster
    objects and of the pod logs return nothing and report their failures to
    the error log file only; they appear as calls, and so does the read of
    the server version setting, whose value goes into the metadata. *)
Definition GenerateClusterBundle (bundleDir : string) : M (string * option error) :=
  logf DebugLevel "generating cluster bundle..." [] >>
  let* m := get_sbm in
  call "k8s.GetNamespace" [PodNamespace m] >>
  match GetNamespace_returns E (PodNamespace m) with
  | inr err => ret ("", Some (errors_Wrap err "cannot get harvester namespace"))
  | inl namespace_UID =>
  call "k8s.GetKubernetesVersion" [] >>
  match GetKubernetesVersion_returns E with
  | inr err => ret ("", Some (errors_Wrap err "cannot get kubernetes version"))
  | inl kubeVersion =>
  call "state.GetSupportBundle" [PodNamespace m; BundleName m] >>
  match GetSupportBundle_returns E (PodNamespace m) (BundleName m) with
  | Some err => ret ("", Some (errors_Wrap err "cannot get support bundle"))
  | None =>
  call "harvester.GetSettingValue" ["server-version"] >>
  let ProjectNamespaceUUID := namespace_UID in
  let BundleCreatedAt := Now_returns E in
  let bundleName :=
    "supportbundle_" +:+ ProjectNamespaceUUID +:+ "_" +:+
    ReplaceAll BundleCreatedAt ":" "-" +:+ ".zip" in
  call "os.Create" [filepath_Join E bundleDir "bundleGenerationError.log"] >>
  match Create_returns E (filepath_Join E bundleDir "bundleGenerationError.log") with
  | Some err =>
      logf ErrorLevel "Failed to create bundle generation log" [] >>
      ret ("", Some err)
  | None =>
  call "encodeToYAMLFile" [filepath_Join E bundleDir "metadata.yaml"] >>
  call "generateSupportBundleYAMLs" [filepath_Join E bundleDir "yamls"] >>
  call "generateSupportBundleLogs" [filepath_Join E bundleDir "logs"] >>
  ret (bundleName, None)
  end end end end.

Definition phaseCollectClusterBundle : M (option error) :=
  let* m := get_sbm in
  let* r := GenerateClusterBundle (getWorkingDir m) in
  match snd r with
  | Some err => ret (Some (errors_Wrap err "fail to generate cluster bundle"))
  | None =>
      set_sbm (set_bundleFileName (fst r)) >>
      ret None
  end.

(** *** The node set tracker *)

(** [m.nodesLock.Lock()]: parks the goroutine while another one holds the
    mutex. *)
Definition nodesLock_Lock : M unit := fun w =>
  if nodesLock (sbm w)
  then Result Blocks w []
  else Result (Returns tt) (upd_sbm (set_nodesLock true) w) [].

Definition nodesLock_Unlock : M unit := set_sbm (set_nodesLock false).

(** [defer cleanup] around a function body: the cleanup runs when the body
    returns or panics, not while it is parked. *)
Definition defer {A} (cleanup : M unit) (body : M A) : M A := fun w =>
  match body w with
  | Result (Returns a) w1 t1 =>
      match cleanup w1 with
      | Result (Returns _) w2 t2 => Result (Returns a) w2 (t1 ++ t2)
      | Result (Panics msg) w2 t2 => Result (Panics msg) w2 (t1 ++ t2)
      | Result Blocks w2 t2 => Result Blocks w2 (t1 ++ t2)
      end
  | Result (Panics msg) w1 t1 =>
      match cleanup w1 with
      | Result _ w2 t2 => Result (Panics msg) w2 (t1 ++ t2)
      end
  | Result Blocks w1 t1 => Result Blocks w1 t1
  end.

(** [m.ch <- struct{}{}]: completes when a receiver is parked on the
    channel and releases it; otherwise the sender parks (a send on a nil
    channel parks for ever). *)
Definition ch_send : M unit := fun w =>
  match ch (sbm w) with
  | Some (Chan true) =>
      Result (Returns tt) (upd_sbm (set_ch (Some (Chan false))) w) [ChanSend]
  | Some (Chan false) => Result Blocks w []
  | None => Result Blocks w []
  end.

Definition completeNode (node : string) : M unit :=
  nodesLock_Lock >>
  defer nodesLock_Unlock (
    let* m := get_sbm in
    match expectedNodes m !! node with
    | Some _ =>
        logf DebugLevel "complete node %s" [Str node] >>
        set_sbm (fun m => set_expectedNodes (delete node (expectedNodes m)) m)
    | None =>
        logf WarnLevel "complete an unknown node %s" [Str node]
    end >>
    let* m := get_sbm in
    if Nat.eqb (size (expectedNodes m)) 0
    then
      if negb (done m)
      then
        logf DebugLevel "all nodes are completed." [] >>
        ch_send >>
        set_sbm (set_done true)
      else ret tt
    else ret tt).

Definition refreshNodes : M (option error) :=
  let* m := get_sbm in
  call "k8s.GetNodesListByLabels" [NodeSelector m] >>
  match GetNodesListByLabels_returns E (NodeSelector m) with
  | inr err => ret (Some err)
  | inl nodes =>
      if Nat.eqb (length nodes) 0
      then ret (Some (errors_New "no nodes are found"))
      else
        set_sbm (set_expectedNodes
                   (foldl (fun acc name => <[name := ""]> acc) ∅ nodes)) >>
        ret None
  end.

(** The ingestion goroutines that call [completeNode] while the control
    goroutine is parked in [<-m.ch]. Each call runs in a goroutine of its
    own, so its outcome is not the control goroutine's; the control
    goroutine resumes after the call whose send released it, and stays
    parked when the calls run out. *)
Fixpoint serve (names : list string) : M unit :=
  match names with
  | [] => block
  | node :: rest => fun w =>
      match completeNode node w with
      | Result _ w1 t1 =>
          match ch (sbm w1) with
          | Some (Chan false) => Result (Returns tt) w1 (t1 ++ [ChanRecv])
          | _ =>
              match serve rest w1 with
              | Result o w2 t2 => Result o w2 (t1 ++ t2)
              end
          end
      end
  end.

(** [<-m.ch]: a receive from a nil channel parks for ever. *)
Definition ch_recv : M unit := fun w =>
  match ch (sbm w) with
  | None => Result Blocks w []
  | Some _ => serve (arrivals E) (upd_sbm (set_ch (Some (Chan true))) w)
  end.

Definition collectNodeBundles : M (option error) :=
  set_sbm (set_ch (Some (Chan false))) >>
  let* err := refreshNodes in
  match err with
  | Some err => ret (Some err)
  | None =>
  let* m := get_sbm in
  logf DebugLevel "expected bundles from nodes: %+v" [NodeMap (expectedNodes m)] >>
  call "AgentDaemonSet.Create" [ImageName m; "http://" +:+ ManagerPodIP m +:+ ":8080"] >>
  match AgentDaemonSet_Create_returns E (ImageName m)
          ("http://" +:+ ManagerPodIP m +:+ ":8080") with
  | Some err => ret (Some err)
  | None =>
  ch_recv >>
  logf InfoLevel "all node bundles are received." [] >>
  call "AgentDaemonSet.Cleanup" [] >>
  match AgentDaemonSet_Cleanup_returns E with
  | Some err => ret (Some (errors_Wrap err "fail to cleanup agent daemonset"))
  | None => ret None
  end end end.

Definition phaseCollectNodeBundles : M (option error) :=
  let* err := collectNodeBundles in
  match err with
  | Some err => logf ErrorLevel "%v" [Str err]
  | None => ret tt
  end >>
  ret None.

(** [zip.NewReader] of archive/zip on the content of a file: it looks for
    the end-of-central-directory record, which takes 22 bytes, so a shorter
    file is not a zip archive. What the reader makes of a longer file is left
    to the environment. *)
Definition zip_NewReader (content : list Byte.byte) : option error :=
  if Nat.ltb (length content) 22
  then Some "zip: not a valid zip file"
  else zip_parse E content.

(** [zip.OpenReader(file)]: opens the file and reads it as a zip archive. *)
Definition zip_OpenReader (file : string) : M (option error) :=
  call "zip.OpenReader" [file] >>
  fun w =>
    match files w !! file with
    | None => ret (Some ("open " +:+ file +:+ ": no such file or directory")) w
    | Some content => ret (zip_NewReader content) w
    end.

Definition verifyNodeBundle (file : string) : M (option error) :=
  let* err := zip_OpenReader file in
  ret err.

(** *** The node selector *)

(** The loop of [getNodeSelector] over the segments of the selector; a
    segment that is not one key and one value is reported and skipped. *)
Fixpoint parse_selectors (segments : list string) (nodeSelector : gmap string string)
    : M (gmap string string) :=
  match segments with
  | [] => ret nodeSelector
  | s :: rest =>
      match Split s "=" with
      | [k; v] => parse_selectors rest (<[k := v]> nodeSelector)
      | _ =>
          logf WarnLevel "Unable to parse %s" [Str s] >>
          parse_selectors rest nodeSelector
      end
  end.

Definition getNodeSelector : M (gmap string string) :=
  let* m := get_sbm in
  if negb (String.eqb (NodeSelector m) "")
  then parse_selectors (Split (NodeSelector m) ",") ∅
  else ret ∅.

(** *** The packager *)

(** The zip command is recorded with its working directory ([cmd.Dir])
    first, then its arguments. *)
Definition compressBundle : M (option error) :=
  let* m := get_sbm in
  let bundleDir := TrimSuffix (bundleFileName m) (Ext (getBundlefile m)) in
  let bundleDirPath := filepath_Join E (OutputDir m) bundleDir in
  call "os.Rename" [getWorkingDir m; bundleDirPath] >>
  match Rename_returns E (getWorkingDir m) bundleDirPath with
  | Some err => ret (Some (errors_Wrap err "fail to compress bundle"))
  | None =>
  call "zip" [OutputDir m; "-r"; getBundlefile m; bundleDir] >>
  match zip_command_returns E (OutputDir m) ["-r"; getBundlefile m; bundleDir] with
  | Some err => ret (Some (errors_Wrap err "fail to compress bundle"))
  | None =>
  let* r := getBundlefilesize in
  match snd r with
  | Some err => ret (Some (errors_Wrap err "fail to get bundle file size"))
  | None =>
      SetFileinfo_ (bundleFileName m) (fst r) >>
      ret None
  end end end.

Definition phasePackaging : M (option error) := compressBundle.

Definition phaseDone : M (option error) :=
  let* m := get_sbm in
  logf InfoLevel "support bundle %s ready to download" [Str (getBundlefile m)] >>
  ret None.

(** *** The phase state machine *)

Definition phases : list (ManagerPhase * M (option error)) :=
  [ (ManagerPhaseInit, phaseInit);
    (ManagerPhaseClusterBundle, phaseCollectClusterBundle);
    (ManagerPhaseNodeBundle, phaseCollectNodeBundles);
    (ManagerPhasePackaging, phasePackaging);
    (ManagerPhaseDone, phaseDone) ].

(** The loop of [Run] from index [i] on, over the phases still to run; [n]
    is [len(phases)]. Go's integer division truncates. *)
Fixpoint run_phases (n i : Z) (todo : list (ManagerPhase * M (option error))) : M unit :=
  match todo with
  | [] => ret tt
  | phase :: rest =>
      logf InfoLevel "running phase %s" [PhaseName (fst phase)] >>
      SetPhase_ (fst phase) >>
      let* err := snd phase in
      match err with
      | Some err =>
          SetError_ err >>
          logf ErrorLevel "failed to run phase %s: %s" [PhaseName (fst phase); Str err]
      | None =>
          let progress := Z.quot (100 * (i + 1)) n in
          SetProgress_ progress >>
          logf InfoLevel "succeed to run phase %s. Progress (%d)."
            [PhaseName (fst phase); Int progress] >>
          run_phases n (i + 1) rest
      end
  end.

(** [<-m.context.Done()]: a method call on the nil interface panics; the
    channel of the signal context is closed when the signal arrives. *)
Definition context_Done_recv : M unit := fun w =>
  match context (sbm w) with
  | None => Result (Panics "invalid memory address or nil pointer dereference") w []
  | Some SignalContext =>
      if signal_delivered E
      then Result (Returns tt) w [ContextDone]
      else Result Blocks w []
  end.

Definition Run : M (option error) :=
  run_phases (Z.of_nat (length phases)) 0 phases >>
  context_Done_recv >>
  ret None.

(** *** The ingestion endpoint *)

(** The answer to an upload: status 200, or a status outside 2xx with a
    message. *)
Inductive Response :=
| Accepted
| Rejected (msg : string).

Definition nodeBundleFile (m : SupportBundleManager) (node : string) : string :=
  filepath_Join E (filepath_Join E (getWorkingDir m) "nodes") (node +:+ ".zip").

(** Modelled from the spec: the request handler of the HTTP server is not
    part of the sources at hand. Following section 4.3 of the spec it
    persists the uploaded stream to a path under the working directory that
    depends on the node, validates the file with [verifyNodeBundle], answers
    with an error and leaves the tracker alone when the validation fails,
    and otherwise calls [completeNode] and answers with success. *)
Definition createNodeBundle (node : string) (body : list Byte.byte) : M Response :=
  let* m := get_sbm in
  let file := nodeBundleFile m node in
  call "io.Copy" [file] >>
  match Copy_returns E file with
  | Some err => ret (Rejected err)
  | None =>
  (fun w => Result (Returns tt) (write_file file body w) []) >>
  let* err := verifyNodeBundle file in
  match err with
  | Some err =>
      logf ErrorLevel "fail to verify file %s: %s" [Str file; Str err] >>
      ret (Rejected err)
  | None =>
      completeNode node >>
      ret Accepted
  end end.

End Manager.

(** *** Calls of [completeNode] by several goroutines *)

(** The expected set once [completeNode node] has passed its first branch. *)
Definition without (node : string) (m : SupportBundleManager) : gmap string string :=
  match expectedNodes m !! node with
  | Some _ => delete node (expectedNodes m)
  | None => expectedNodes m
  end.

(** The line that the first branch of [completeNode node] logs. *)
Definition node_log (node : string) (m : SupportBundleManager) : Event :=
  match expectedNodes m !! node with
  | Some _ => Log DebugLevel "complete node %s" [Str node]
  | None => Log WarnLevel "complete an unknown node %s" [Str node]
  end.

(** Goroutines that call [completeNode] one after the other, in the order
    in which they reach the lock; the result of every call. *)
Fixpoint completeNode_calls (names : list string) (w : World) : list (result unit) :=
  match names with
  | [] => []
  | node :: rest =>
      let r := completeNode node w in
      r :: completeNode_calls rest (post r)
  end.

(** *** The inputs that [Init] requires *)

(** The errors of [check] for a missing input. *)
Definition config_errors : list error :=
  [ "namespace is not specified"; "support bundle name is not specified";
    "manager pod IP is not specified"; "image name is not specified";
    "image pull policy is not specified" ].

(** The inputs that [check] requires, each with the error reported when it
    is empty, in the order of the checks; the namespace is the first element
    of the split namespace list. *)
Definition required_inputs (m : SupportBundleManager) : list (string * error) :=
  [ (default "" (head (Split (NamespaceList m) ",")), "namespace is not specified");
    (BundleName m, "support bundle name is not specified");
    (ManagerPodIP m, "manager pod IP is not specified");
    (ImageName m, "image name is not specified");
    (ImagePullPolicy m, "image pull policy is not specified") ].

Fixpoint first_missing (inputs : list (string * error)) : option error :=
  match inputs with
  | [] => None
  | (value, err) :: rest => if String.eqb value "" then Some err else first_missing rest
  end.

(** The same world with another wait timeout. *)
Definition retime (timeout : Z) (w : World) : World := upd_sbm (set_WaitTimeout timeout) w.

(** *** Failures of the fan-out *)

(** The callback address handed to the agents. *)
Definition callback_url (m : SupportBundleManager) : string :=
  "http://" +:+ ManagerPodIP m +:+ ":8080".

(** The two failures of the fan-out: the selector matches no node, or the
    agent daemonset cannot be created. *)
Definition fan_out_fails (E : Env) (m : SupportBundleManager) (err : error) : Prop :=
  (GetNodesListByLabels_returns E (NodeSelector m) = inl [] /\ err = "no nodes are found") \/
  (exists nodes,
     GetNodesListByLabels_returns E (NodeSelector m) = inl nodes /\ nodes <> [] /\
     AgentDaemonSet_Create_returns E (ImageName m) (callback_url m) = Some err).

(** The expected set built from the listed names; the world in which the
    control goroutine starts to wait; what the fan-out logs and calls. *)
Definition expected_of (nodes : list string) : gmap string string :=
  foldl (fun acc name => <[name := ""]> acc) ∅ nodes.

Definition waiting (nodes : list string) (w : World) : World :=
  upd_sbm (fun m => set_ch (Some (Chan true)) (set_expectedNodes (expected_of nodes) m)) w.

Definition fan_out (m : SupportBundleManager) (nodes : list string) : list Event :=
  [ Call "k8s.GetNodesListByLabels" [NodeSelector m];
    Log DebugLevel "expected bundles from nodes: %+v" [NodeMap (expected_of nodes)];
    Call "AgentDaemonSet.Create" [ImageName m; callback_url m] ].

Definition cleanup_error (E : Env) : option error :=
  match AgentDaemonSet_Cleanup_returns E with
  | Some err => Some (errors_Wrap err "fail to cleanup agent daemonset")
  | None => None
  end.

Definition after_wait : list Event :=
  [Log InfoLevel "all node bundles are received." []; Call "AgentDaemonSet.Cleanup" []].

(** The error of the fan-out, if it fails: of the node listing, of an empty
    listing, or of the creation of the agent daemonset. *)
Definition fan_out_error (E : Env) (m : SupportBundleManager) : option error :=
  match GetNodesListByLabels_returns E (NodeSelector m) with
  | inr err => Some err
  | inl [] => Some (errors_New "no nodes are found")
  | inl _ => AgentDaemonSet_Create_returns E (ImageName m) (callback_url m)
  end.

(** *** Calls of the packager *)

(** The directory that [compressBundle] renames the working directory to,
    and the calls it makes. *)
Definition bundleDir_of (E : Env) (m : SupportBundleManager) : string :=
  TrimSuffix (bundleFileName m) (Ext (getBundlefile E m)).

Definition rename_call (E : Env) (m : SupportBundleManager) : Event :=
  Call "os.Rename" [getWorkingDir E m; filepath_Join E (OutputDir m) (bundleDir_of E m)].

Definition zip_call (E : Env) (m : SupportBundleManager) : Event :=
  Call "zip" [OutputDir m; "-r"; getBundlefile E m; bundleDir_of E m].

Definition stat_call (E : Env) (m : SupportBundleManager) : Event :=
  Call "os.Stat" [getBundlefile E m].

(** The name that [GenerateClusterBundle] gives to the bundle file. *)
Definition bundle_file_name (uid created_at : string) : string :=
  "supportbundle_" +:+ uid +:+ "_" +:+ ReplaceAll created_at ":" "-" +:+ ".zip".

(** What the handler has done when it reaches the validation. *)
Definition upload_calls (file : string) : list Event :=
  [Call "io.Copy" [file]; Call "zip.OpenReader" [file]].

(** *** Segments of the node selector *)

(** [s] does not contain the character [a]. *)
Fixpoint lacks (a : ascii) (s : string) : Prop :=
  match s with
  | EmptyString => True
  | String c s' => c <> a /\ lacks a s'
  end.

Definition sep1 (a : ascii) : string := String a "".

(** A segment of the selector that is a key and a value around one equals
    sign, and the warning for a segment that is not. *)
Definition pair_of (s : string) : option (string * string) :=
  match Split s "=" with
  | [k; v] => Some (k, v)
  | _ => None
  end.

Definition unparsed (s : string) : option Event :=
  match pair_of s with
  | Some _ => None
  | None => Some (Log WarnLevel "Unable to parse %s" [Str s])
  end.

(** The selector string that lists the pairs: [k1=v1,k2=v2,...]. *)
Fixpoint selector_of (pairs : list (string * string)) : string :=
  match pairs with
  | [] => ""
  | [(k, v)] => k +:+ "=" +:+ v
  | (k, v) :: rest => k +:+ "=" +:+ v +:+ "," +:+ selector_of rest
  end.

Definition clean (kv : string * string) : Prop :=
  lacks "," (fst kv) /\ lacks "=" (fst kv) /\ lacks "," (snd kv) /\ lacks "=" (snd kv).

(** ** The logs of the cluster bundle (cluster.go) *)

(** A pod: its name and the names of its containers. *)
Record Pod := {
  Pod_Name : string;
  Pod_Containers : list string
}.

(** What [k8s.GetAllPodsList] gives for a namespace: an error, an object
    that is not a pod list, or the pods. *)
Inductive PodsAnswer :=
| PodsError (err : error)
| NotAPodList
| PodList (items : list Pod).

(** What the cluster and the file system answer to the log collector:
    [filepath.Join] and [filepath.Dir], the pod listing of a namespace, the
    opening of the log stream of a container, and for the path of a log
    file the results of [os.MkdirAll] on its directory, of [os.Create] and
    of [io.Copy]. *)
Record ClusterEnv := {
  Join : list string -> string;
  Dir : string -> string;
  GetAllPodsList_returns : string -> PodsAnswer;
  Stream_returns : string -> string -> string -> option error;
  log_MkdirAll_returns : string -> option error;
  log_Create_returns : string -> option error;
  log_Copy_returns : string -> option error
}.

Section Cluster.

Variable C : ClusterEnv.

(** [fmt.Fprintf(errLog, format, args...)]: a line of the error log of the
    bundle, with the format as the source writes it. *)
Definition Fprintf (format : string) (args : list string) : M unit :=
  call "fmt.Fprintf" (format :: args).

(** The deferred functions run when the function returns: the file is
    closed once it has been created, then the error, if any, is written to
    the error log. *)
Definition streamLogToFile (path : string) : M unit :=
  call "os.MkdirAll" [Dir C path] >>
  match log_MkdirAll_returns C (Dir C path) with
  | Some err => Fprintf "Support Bundle: failed to generate %v: %v\n" [path; err]
  | None =>
  call "os.Create" [path] >>
  match log_Create_returns C path with
  | Some err => Fprintf "Support Bundle: failed to generate %v: %v\n" [path; err]
  | None =>
  call "io.Copy" [path] >>
  match log_Copy_returns C path with
  | Some err =>
      call "f.Close" [path] >>
      Fprintf "Support Bundle: failed to generate %v: %v\n" [path; err]
  | None => call "f.Close" [path]
  end end end.

(** The loop over the containers of a pod: a stream that cannot be opened
    is reported and the loop goes on with the next container. *)
Fixpoint logs_of_containers (ns podName podDir : string) (containers : list string) : M unit :=
  match containers with
  | [] => ret tt
  | container :: rest =>
      call "k8s.GetPodContainerLogRequest" [ns; podName; container] >>
      let logFileName := Join C [podDir; container +:+ ".log"] in
      call "req.Stream" [ns; podName; container] >>
      match Stream_returns C ns podName container with
      | Some err =>
          Fprintf "BUG: Support bundle: cannot get log for pod %v container %v: %v\n"
            [podName; container; err]
      | None =>
          streamLogToFile logFileName >>
          call "stream.Close" [ns; podName; container]
      end >>
      logs_of_containers ns podName podDir rest
  end.

Fixpoint logs_of_pods (logsDir ns : string) (pods : list Pod) : M unit :=
  match pods with
  | [] => ret tt
  | pod :: rest =>
      let podName := Pod_Name pod in
      let podDir := Join C [logsDir; ns; podName] in
      logs_of_containers ns podName podDir (Pod_Containers pod) >>
      logs_of_pods logsDir ns rest
  end.

(** The loop over the namespaces: a pod listing that fails ends the
    function. *)
Fixpoint logs_of_namespaces (logsDir : string) (namespaces : list string) : M unit :=
  match namespaces with
  | [] => ret tt
  | ns :: rest =>
      call "k8s.GetAllPodsList" [ns] >>
      match GetAllPodsList_returns C ns with
      | PodsError err => Fprintf "Support bundle: cannot get pod list: %v\n" [err]
      | NotAPodList => Fprintf "BUG: Support bundle: didn't get pod list\n" []
      | PodList items =>
          logs_of_pods logsDir ns items >>
          logs_of_namespaces logsDir rest
      end
  end.

Definition generateSupportBundleLogs (logsDir : string) : M unit :=
  let* m := get_sbm in
  let namespaces := (["default"; "kube-system"; "cattle-system"] ++ Namespaces m)%list in
  logs_of_namespaces logsDir namespaces.

End Cluster.

(** *** Reading the trace of the log collector *)

(** The namespaces whose pods were listed, the containers whose log stream
    was requested, the log files created, and the lines written to the error
    log. *)
Definition listed (t : list Event) : list string :=
  omap (fun e => match e with
                 | Call fn [ns] => if String.eqb fn "k8s.GetAllPodsList" then Some ns else None
                 | _ => None
                 end) t.

Definition streamed (t : list Event) : list (string * string * string) :=
  omap (fun e => match e with
                 | Call fn [ns; pod; container] =>
                     if String.eqb fn "req.Stream" then Some (ns, pod, container) else None
                 | _ => None
                 end) t.

Definition created (t : list Event) : list string :=
  omap (fun e => match e with
                 | Call fn [path] => if String.eqb fn "os.Create" then Some path else None
                 | _ => None
                 end) t.

Definition reported (t : list Event) : list (string * list string) :=
  omap (fun e => match e with
                 | Call fn (format :: args) =>
                     if String.eqb fn "fmt.Fprintf" then Some (format, args) else None
                 | _ => None
                 end) t.

(** The namespaces up to the first one whose pods cannot be listed. *)
Fixpoint listable (C : ClusterEnv) (namespaces : list string) : list string :=
  match namespaces with
  | [] => []
  | ns :: rest =>
      match GetAllPodsList_returns C ns with
      | PodList _ => ns :: listable C rest
      | _ => []
      end
  end.

(** The containers of the pods of a namespace. *)
Definition containers_in (C : ClusterEnv) (ns : string) : list (string * string * string) :=
  match GetAllPodsList_returns C ns with
  | PodList items =>
      flat_map (fun pod => map (fun container => (ns, Pod_Name pod, container))
                             (Pod_Containers pod)) items
  | _ => []
  end.

(** The log file of a container, and whether the collector gets to create
    it: the stream opens and the directory of the file can be made. *)
Definition log_file (C : ClusterEnv) (logsDir : string) (c : string * string * string) : string :=
  match c with
  | (ns, pod, container) => Join C [Join C [logsDir; ns; pod]; container +:+ ".log"]
  end.

Definition reaches_create (C : ClusterEnv) (logsDir : string) (c : string * string * string)
    : bool :=
  match c with
  | (ns, pod, container) =>
      match Stream_returns C ns pod container with
      | Some _ => false
      | None =>
          match log_MkdirAll_returns C (Dir C (log_file C logsDir c)) with
          | Some _ => false
          | None => true
          end
      end
  end.

(** The namespaces whose logs are collected. *)
Definition log_namespaces (m : SupportBundleManager) : list string :=
  (["default"; "kube-system"; "cattle-system"] ++ Namespaces m)%list.

(** ** Reading a trace *)

Definition status_update (e : Event) : option StatusUpdate :=
  match e with
  | Status u => Some u
  | _ => None
  end.

(** The updates made by the loop of [Run]: phase, error and progress. *)
Definition loop_update (e : Event) : option StatusUpdate :=
  match e with
  | Status (SetPhase p) => Some (SetPhase p)
  | Status (SetError err) => Some (SetError err)
  | Status (SetProgress p) => Some (SetProgress p)
  | _ => None
  end.

Definition loop_updates (t : list Event) : list StatusUpdate := omap loop_update t.

Definition phases_entered (t : list Event) : list ManagerPhase :=
  omap (fun e => match e with Status (SetPhase p) => Some p | _ => None end) t.

Definition progress_recorded (t : list Event) : list Z :=
  omap (fun e => match e with Status (SetProgress p) => Some p | _ => None end) t.

Definition errors_recorded (t : list Event) : list string :=
  omap (fun e => match e with Status (SetError err) => Some err | _ => None end) t.

Definition calls_made (t : list Event) : list (string * list string) :=
  omap (fun e => match e with Call fn args => Some (fn, args) | _ => None end) t.

(** How many sends on [m.ch] completed. *)
Definition sends (t : list Event) : nat :=
  length (omap (fun e => match e with ChanSend => Some tt | _ => None end) t).

(** The nodes removed from the expected set, in order: [completeNode] logs
    its debug line exactly where it deletes the node. *)
Definition removals (t : list Event) : list string :=
  omap (fun e => match e with
                 | Log DebugLevel "complete node %s" [Str node] => Some node
                 | _ => None
                 end) t.

(** What a setter does to the status, and the status after a list of
    setter calls. *)
Definition apply_update (s : ManagerStatus) (u : StatusUpdate) : ManagerStatus :=
  match u with
  | SetPhase p => status_SetPhase p s
  | SetError err => status_SetError err s
  | SetProgress p => status_SetProgress p s
  | SetFileinfo name size => status_SetFileinfo name size s
  end.

Definition replay (us : list StatusUpdate) (s : ManagerStatus) : ManagerStatus :=
  foldl apply_update s us.

Definition status_updates (t : list Event) : list StatusUpdate := omap status_update t.

(** The phases of [Run], in order. *)
Definition all_phases : list ManagerPhase :=
  [ManagerPhaseInit; ManagerPhaseClusterBundle; ManagerPhaseNodeBundle;
   ManagerPhasePackaging; ManagerPhaseDone].

(** The loop updates of a run of the phases [ps], all successful, from
    index [i] on: each phase is entered and then the progress is set. *)
Fixpoint completed (n i : Z) (ps : list ManagerPhase) : list StatusUpdate :=
  match ps with
  | [] => []
  | p :: rest => SetPhase p :: SetProgress (Z.quot (100 * (i + 1)) n) :: completed n (i + 1) rest
  end.

(** A computation that leaves the loop's part of the status to the loop: it
    calls none of [SetPhase], [SetError] and [SetProgress], and it changes
    the status through the setters only. *)
Definition tame {A} (c : M A) : Prop :=
  forall w,
    loop_updates (events (c w)) = [] /\
    status (sbm (post (c w))) = replay (status_updates (events (c w))) (status (sbm w)).

(** The progress, and the phase, that a setter call records. *)
Definition progress_of (u : StatusUpdate) : option Z :=
  match u with SetProgress p => Some p | _ => None end.

Definition phase_of (u : StatusUpdate) : option ManagerPhase :=
  match u with SetPhase p => Some p | _ => None end.

(** *** Steps of the loop of [Run] *)

(** The world in which the action of phase [p] starts. *)
Definition enter (p : ManagerPhase) (w : World) : World :=
  upd_sbm (fun m => set_status (status_SetPhase p (status m)) m) w.

(** The world after the loop has recorded an error, and after it has
    recorded the progress. *)
Definition record_error (err : string) (w : World) : World :=
  upd_sbm (fun m => set_status (status_SetError err (status m)) m) w.

Definition record_progress (p : Z) (w : World) : World :=
  upd_sbm (fun m => set_status (status_SetProgress p (status m)) m) w.

(** What the loop logs and records when it enters a phase, when the action
    of the phase fails, and when it succeeds. *)
Definition entering (p : ManagerPhase) : list Event :=
  [Log InfoLevel "running phase %s" [PhaseName p]; Status (SetPhase p)].

Definition failing (p : ManagerPhase) (err : string) : list Event :=
  [Status (SetError err);
   Log ErrorLevel "failed to run phase %s: %s" [PhaseName p; Str err]].

Definition succeeding (p : ManagerPhase) (progress : Z) : list Event :=
  [Status (SetProgress progress);
   Log InfoLevel "succeed to run phase %s. Progress (%d)." [PhaseName p; Int progress]].

(** *** The state machine of the spec *)

(** The phases in their fixed order, each with its action. *)
Definition state_machine (E : Env) : list (ManagerPhase * M (option error)) :=
  [ (ManagerPhaseInit, phaseInit E);
    (ManagerPhaseClusterBundle, phaseCollectClusterBundle E);
    (ManagerPhaseNodeBundle, phaseCollectNodeBundles E);
    (ManagerPhasePackaging, phasePackaging E);
    (ManagerPhaseDone, phaseDone E) ].

(** An execution of the action of a phase: the number of phases completed
    before, the phase, and the result of the action. *)
Record Attempt := {
  completed_before : Z;
  attempted : ManagerPhase;
  result_of : result (option error)
}.

(** The executions of a machine of [n] phases of which [i] are completed,
    following the transition rule of the spec: the action of the next phase
    runs in the world that the machine has once it has entered the phase;
    after a nil result the progress is recorded and the machine advances;
    after an error, or when the action does not return, no later action
    runs. *)
Fixpoint attempts (n i : Z) (machine : list (ManagerPhase * M (option error))) (w : World)
    : list Attempt :=
  match machine with
  | [] => []
  | (p, act) :: rest =>
      let r := act (enter p w) in
      {| completed_before := i; attempted := p; result_of := r |} ::
      match out r with
      | Returns None =>
          attempts n (i + 1) rest (record_progress (Z.quot (100 * (i + 1)) n) (post r))
      | _ => []
      end
  end.

(** What the machine of [n] phases records for an execution: the phase,
    then the progress after a nil result, the error after an error. *)
Definition recorded (n : Z) (a : Attempt) : list StatusUpdate :=
  SetPhase (attempted a) ::
  match out (result_of a) with
  | Returns None => [SetProgress (Z.quot (100 * (completed_before a + 1)) n)]
  | Returns (Some err) => [SetError err]
  | _ => []
  end.

(** The events of an execution: the entry into the phase, the events of the
    action, and what the loop logs and records of its result. *)
Definition played (n : Z) (a : Attempt) : list Event :=
  (entering (attempted a) ++ events (result_of a) ++
   match out (result_of a) with
   | Returns None =>
       succeeding (attempted a) (Z.quot (100 * (completed_before a + 1)) n)
   | Returns (Some err) => failing (attempted a) err
   | _ => []
   end)%list.

(** The phases whose action returned nil. *)
Definition completed_phases (l : list Attempt) : list ManagerPhase :=
  omap (fun a => match out (result_of a) with
                 | Returns None => Some (attempted a)
                 | _ => None
                 end) l.

(** ** A concrete cluster *)

(** An environment in which everything succeeds except what the arguments
    say: the nodes matched by the selector, the results of creating the
    agent daemonset, of renaming the working directory and of the zip
    command, the nodes whose bundles arrive, and whether the process is
    signalled. Paths are joined with a slash. *)
Definition example_env (nodes : list string + error) (create rename zip : option error)
    (arriving : list string) (signalled : bool) : Env :=
  {| filepath_Join := fun a b => a +:+ "/" +:+ b;
     TempDir_returns := "/tmp";
     MkdirAll_returns := fun _ => None;
     Rename_returns := fun _ _ => rename;
     Stat_Size_returns := fun _ => inl 4096;
     Create_returns := fun _ => None;
     zip_command_returns := fun _ _ => zip;
     zip_parse := fun _ => None;
     Copy_returns := fun _ => None;
     InClusterConfig_returns := None;
     NewKubernetesClient_returns := None;
     NewMetricsClient_returns := None;
     NewDiscoveryClient_returns := None;
     PodNamespace_returns := "harvester-system";
     GetState_returns := fun _ _ => inl "generating";
     SupportBundleStateGenerating := "generating";
     GetNamespace_returns := fun _ => inl "0a1b2c";
     GetKubernetesVersion_returns := inl "v1.20.4";
     GetSupportBundle_returns := fun _ _ => None;
     Now_returns := "2021-03-04T05:06:07Z";
     GetNodesListByLabels_returns := fun _ => nodes;
     AgentDaemonSet_Create_returns := fun _ _ => create;
     AgentDaemonSet_Cleanup_returns := None;
     arrivals := arriving;
     signal_delivered := signalled |}.

(** The manager as the command line builds it: the exported fields set from
    the flags, every other field at its zero value. *)
Definition example_manager (bundle : string) (timeout : Z) : SupportBundleManager :=
  {| Namespaces := []; NamespaceList := "harvester-system"; BundleName := bundle;
     bundleFileName := ""; OutputDir := "/out"; WaitTimeout := timeout;
     ManagerPodIP := "10.0.0.7"; Standalone := false;
     ImageName := "support-bundle-kit:dev"; ImagePullPolicy := "IfNotPresent";
     KubeConfig := ""; PodNamespace := ""; NodeSelector := "";
     context := None; status := status_zero;
     ch := None; done := false; nodesLock := false; expectedNodes := ∅ |}.

Definition example_world (bundle : string) (timeout : Z) : World :=
  {| sbm := example_manager bundle timeout; files := ∅ |}.

(** Ten minutes, in nanoseconds. *)
Definition ten_minutes : Z := 600000000000.

(** The tracker in the node-bundle phase: the expected nodes are set, the
    channel is made and the control goroutine is parked in the receive. *)
Definition tracking (nodes : list string) : World :=
  upd_sbm (fun m =>
    set_ch (Some (Chan true))
      (set_expectedNodes (foldl (fun acc name => <[name := ""]> acc) ∅ nodes) m))
    (example_world "bundle-1" ten_minutes).

(** The selector matches no node; the cluster refuses the daemonset. *)
Definition env_no_nodes : Env := example_env (inl []) None None None [] true.

Definition env_create_fails : Env :=
  example_env (inl ["node-a"]) (Some "daemonsets.apps is forbidden") None None [] true.

(** Every node reports; the rename fails; the zip command fails. *)
Definition env_all_report : Env := example_env (inl ["node-a"]) None None None ["node-a"] true.

Definition env_rename_fails : Env :=
  example_env (inl ["node-a"]) None (Some "permission denied") None ["node-a"] true.

Definition env_zip_fails : Env :=
  example_env (inl ["node-a"]) None None (Some "exit status 12") ["node-a"] true.

(** The manager started with a node selector. *)
Definition selecting (selector : string) : World :=
  {| sbm :=
       {| Namespaces := []; NamespaceList := "harvester-system"; BundleName := "bundle-1";
          bundleFileName := ""; OutputDir := "/out"; WaitTimeout := ten_minutes;
          ManagerPodIP := "10.0.0.7"; Standalone := false;
          ImageName := "support-bundle-kit:dev"; ImagePullPolicy := "IfNotPresent";
          KubeConfig := ""; PodNamespace := ""; NodeSelector := selector;
          context := None; status := status_zero;
          ch := None; done := false; nodesLock := false; expectedNodes := ∅ |};
     files := ∅ |}.

(** The manager when the Packaging phase starts. *)
Definition packaging_world : World :=
  upd_sbm (set_bundleFileName (bundle_file_name "0a1b2c" "2021-03-04T05:06:07Z"))
    (example_world "bundle-1" ten_minutes).

(** The archive with no entry: the end-of-central-directory record alone. *)
Definition empty_zip : list Byte.byte :=
  [Byte.x50; Byte.x4b; Byte.x05; Byte.x06] ++ repeat Byte.x00 18.

(** ** Calls and names of the phases *)

(** The output directory that [check] settles on. *)
Definition output_dir (E : Env) (m : SupportBundleManager) : string :=
  if String.eqb (OutputDir m) ""
  then filepath_Join E (TempDir_returns E) "support-bundle-kit"
  else OutputDir m.

Definition checked_world : World :=
  upd_sbm (fun m => set_OutputDir "" (set_Namespaces ["harvester-system"] m))
    (example_world "bundle-1" ten_minutes).

(** The calls of an [Init] that succeeds, in order. *)
Definition init_calls (E : Env) (m : SupportBundleManager) : list (string * list string) :=
  [ ("os.MkdirAll", [filepath_Join E (output_dir E m) "bundle"]);
    ("signals.SetupSignalHandler", []);
    ("rest.InClusterConfig", []);
    ("client.NewKubernetesClient", []);
    ("client.NewMetricsClient", []);
    ("client.NewDiscoveryClient", []);
    ("NewLocalStore", [PodNamespace_returns E; BundleName m]);
    ("state.GetState", [PodNamespace_returns E; BundleName m]);
    ("go HttpServer.Run", []) ].

(** The error that a setter call records. *)
Definition error_of (u : StatusUpdate) : option string :=
  match u with SetError err => Some err | _ => None end.



(** A cluster whose namespace [default] has one pod with two containers,
    the first of which gives no log stream, whose namespace [kube-system]
    cannot be listed, and whose other namespaces have one pod with one
    container. *)
Definition example_cluster : ClusterEnv :=
  {| Join := fun elems => foldr (fun a b => if String.eqb b "" then a else a +:+ "/" +:+ b)
                            "" elems;
     Dir := fun path => path;
     GetAllPodsList_returns := fun ns =>
       if String.eqb ns "default"
       then PodList [{| Pod_Name := "web"; Pod_Containers := ["init"; "app"] |}]
       else if String.eqb ns "kube-system" then PodsError "timeout"
       else PodList [{| Pod_Name := "agent"; Pod_Containers := ["main"] |}];
     Stream_returns := fun _ _ container =>
       if String.eqb container "init" then Some "container not found" else None;
     log_MkdirAll_returns := fun _ => None;
     log_Create_returns := fun _ => None;
     log_Copy_returns := fun _ => None |}.

(** ** Properties *)

Arguments String.append : simpl never.

(** Symbolic execution of a computation: unfold the operations of the monad
    and the field accesses, nothing else. *)
Tactic Notation "msimpl" :=
  try unfold upd_sbm, write_file;
  cbn [bind ret get_sbm set_sbm emit logf call panic block
       out post events app fst snd sbm files upd_sbm write_file
       SetPhase_ SetError_ SetProgress_ SetFileinfo_
       Namespaces NamespaceList BundleName bundleFileName OutputDir WaitTimeout
       ManagerPodIP Standalone ImageName ImagePullPolicy KubeConfig PodNamespace
       NodeSelector context status ch done nodesLock expectedNodes
       set_Namespaces set_bundleFileName set_OutputDir set_WaitTimeout
       set_PodNamespace set_context set_status set_ch set_done set_nodesLock
       set_expectedNodes
       Phase Error ErrorMessage Progress Filename Filesize
       status_SetPhase status_SetError status_SetProgress status_SetFileinfo
       negb andb orb].

Tactic Notation "msimpl" "in" "*" :=
  try unfold upd_sbm, write_file in *;
  cbn [bind ret get_sbm set_sbm emit logf call panic block
       out post events app fst snd sbm files upd_sbm write_file
       SetPhase_ SetError_ SetProgress_ SetFileinfo_
       Namespaces NamespaceList BundleName bundleFileName OutputDir WaitTimeout
       ManagerPodIP Standalone ImageName ImagePullPolicy KubeConfig PodNamespace
       NodeSelector context status ch done nodesLock expectedNodes
       set_Namespaces set_bundleFileName set_OutputDir set_WaitTimeout
       set_PodNamespace set_context set_status set_ch set_done set_nodesLock
       set_expectedNodes
       Phase Error ErrorMessage Progress Filename Filesize
       status_SetPhase status_SetError status_SetProgress status_SetFileinfo
       negb andb orb] in *.

Tactic Notation "msimpl" "in" hyp(H) :=
  try unfold upd_sbm, write_file in H;
  cbn [bind ret get_sbm set_sbm emit logf call panic block
       out post events app fst snd sbm files upd_sbm write_file
       SetPhase_ SetError_ SetProgress_ SetFileinfo_
       Namespaces NamespaceList BundleName bundleFileName OutputDir WaitTimeout
       ManagerPodIP Standalone ImageName ImagePullPolicy KubeConfig PodNamespace
       NodeSelector context status ch done nodesLock expectedNodes
       set_Namespaces set_bundleFileName set_OutputDir set_WaitTimeout
       set_PodNamespace set_context set_status set_ch set_done set_nodesLock
       set_expectedNodes
       Phase Error ErrorMessage Progress Filename Filesize
       status_SetPhase status_SetError status_SetProgress status_SetFileinfo
       negb andb orb] in H.

Ltac destruct_world w :=
  let m := fresh "m" in
  destruct w as [m fs];
  destruct m as [ns nsl bn bfn od wt ip sa img ipp kc pn sel ctx st c d lk nodes];
  msimpl in *.

Lemma bind_Returns {A B} (c : M A) (f : A -> M B) w a w1 t1 :
  c w = Result (Returns a) w1 t1 ->
  bind c f w = match f a w1 with Result o w2 t2 => Result o w2 (t1 ++ t2) end.
Proof. intros H. unfold bind. rewrite H. reflexivity. Qed.

Lemma bind_Panics {A B} (c : M A) (f : A -> M B) w msg w1 t1 :
  c w = Result (Panics msg) w1 t1 -> bind c f w = Result (Panics msg) w1 t1.
Proof. intros H. unfold bind. rewrite H. reflexivity. Qed.

Lemma bind_Blocks {A B} (c : M A) (f : A -> M B) w w1 t1 :
  c w = Result Blocks w1 t1 -> bind c f w = Result Blocks w1 t1.
Proof. intros H. unfold bind. rewrite H. reflexivity. Qed.

Lemma result_eta {A} (r : result A) : r = Result (out r) (post r) (events r).
Proof. destruct r; reflexivity. Qed.

Lemma len0_true s : len0 s = true <-> s = "".
Proof. destruct s; cbn; split; congruence. Qed.

(** *** The node set tracker *)

Lemma completeNode_locked node w :
  nodesLock (sbm w) = true -> completeNode node w = Result Blocks w [].
Proof.
  intros H. unfold completeNode, bind, nodesLock_Lock. rewrite H. reflexivity.
Qed.


Lemma completeNode_quiet node w :
  nodesLock (sbm w) = false ->
  size (without node (sbm w)) <> 0%nat \/ done (sbm w) = true ->
  completeNode node w =
    Result (Returns tt)
      (upd_sbm (fun m => set_nodesLock false (set_expectedNodes (without node m) m)) w)
      [node_log node (sbm w)].
Proof.
  destruct_world w. intros Hl Hq. subst.
  unfold completeNode, nodesLock_Lock, defer, nodesLock_Unlock, without, node_log in *.
  msimpl in *. unfold bind at 1. msimpl. revert Hq.
  destruct (nodes !! node) eqn:Hn; intros Hq; msimpl;
    (match goal with |- context [Nat.eqb ?n 0] => destruct (Nat.eqb_spec n 0) as [Hs|Hs] end);
    msimpl; rewrite ?Hn; try reflexivity;
    (destruct Hq as [Hq|Hq]; [congruence | subst; msimpl; rewrite ?Hn; reflexivity]).
Qed.

Lemma completeNode_last node w :
  nodesLock (sbm w) = false ->
  size (without node (sbm w)) = 0%nat -> done (sbm w) = false ->
  completeNode node w =
    match ch (sbm w) with
    | Some (Chan true) =>
        Result (Returns tt)
          (upd_sbm (fun m => set_nodesLock false (set_done true
                     (set_ch (Some (Chan false)) (set_expectedNodes (without node m) m)))) w)
          [node_log node (sbm w); Log DebugLevel "all nodes are completed." []; ChanSend]
    | _ =>
        Result Blocks
          (upd_sbm (fun m => set_nodesLock true (set_expectedNodes (without node m) m)) w)
          [node_log node (sbm w); Log DebugLevel "all nodes are completed." []]
    end.
Proof.
  destruct_world w. intros Hl Hs Hd. subst.
  unfold completeNode, nodesLock_Lock, defer, nodesLock_Unlock, ch_send, without, node_log in *.
  msimpl in *. unfold bind at 1. msimpl. revert Hs.
  destruct (nodes !! node) eqn:Hn; intros Hs; msimpl; rewrite Hs; msimpl;
    destruct c as [[[|]]|]; msimpl; rewrite ?Hn; reflexivity.
Qed.

Lemma completeNode_after_done node w :
  nodesLock (sbm w) = false -> done (sbm w) = true -> expectedNodes (sbm w) = ∅ ->
  completeNode node w =
    Result (Returns tt) w [Log WarnLevel "complete an unknown node %s" [Str node]].
Proof.
  intros Hl Hd He. rewrite completeNode_quiet by auto.
  unfold without, node_log. rewrite He, lookup_empty.
  destruct_world w. subst. reflexivity.
Qed.

Lemma completeNode_calls_after_done names w :
  nodesLock (sbm w) = false -> done (sbm w) = true -> expectedNodes (sbm w) = ∅ ->
  Forall (fun r => out r = Returns tt /\ sends (events r) = 0%nat /\ post r = w)
         (completeNode_calls names w).
Proof.
  intros Hl Hd He. induction names as [|node rest IH]; cbn [completeNode_calls].
  - constructor.
  - rewrite completeNode_after_done by auto. constructor; [|exact IH].
    cbn. auto.
Qed.

Lemma sends_app t1 t2 : sends (t1 ++ t2) = (sends t1 + sends t2)%nat.
Proof. unfold sends. rewrite omap_app, length_app. reflexivity. Qed.

Lemma sends_node_log node m : sends [node_log node m] = 0%nat.
Proof. unfold node_log. destruct (expectedNodes m !! node); reflexivity. Qed.

Lemma sends_concat_zero (rs : list (result unit)) :
  Forall (fun r => sends (events r) = 0%nat) rs ->
  sends (concat (map events rs)) = 0%nat.
Proof.
  induction 1 as [|r rs Hr _ IH]; [reflexivity|].
  cbn [map concat]. rewrite sends_app, Hr, IH. reflexivity.
Qed.

(** From the start of the wait on, whatever the calls: every call returns,
    and at most one send completes. *)
Lemma completeNode_calls_from_parked names : forall w,
  nodesLock (sbm w) = false ->
  done (sbm w) = false ->
  ch (sbm w) = Some (Chan true) ->
  Forall (fun r => out r = Returns tt) (completeNode_calls names w) /\
  (sends (concat (map events (completeNode_calls names w))) <= 1)%nat.
Proof.
  induction names as [|node rest IH]; intros w Hl Hd Hc; cbn [completeNode_calls map concat].
  { split; [constructor | cbn; lia]. }
  rewrite sends_app.
  destruct (decide (size (without node (sbm w)) = 0%nat)) as [Hs|Hs].
  - rewrite completeNode_last by auto. rewrite Hc. cbn [out post events].
    set (w1 := upd_sbm _ w).
    assert (He : expectedNodes (sbm w1) = ∅) by (apply map_size_empty_iff; exact Hs).
    pose proof (completeNode_calls_after_done rest w1 eq_refl eq_refl He) as Hafter.
    split.
    + constructor; [reflexivity|].
      eapply Forall_impl; [exact Hafter|]. intros r (Ho & _); exact Ho.
    + rewrite sends_concat_zero.
      * change [node_log node (sbm w); Log DebugLevel "all nodes are completed." []; ChanSend]
          with ([node_log node (sbm w)] ++
                [Log DebugLevel "all nodes are completed." []; ChanSend])%list.
        rewrite sends_app, sends_node_log. cbn. lia.
      * eapply Forall_impl; [exact Hafter|]. intros r (_ & Hn & _); exact Hn.
  - rewrite completeNode_quiet by auto. cbn [out post events].
    set (w1 := upd_sbm _ w).
    destruct (IH w1 eq_refl Hd Hc) as [Hret Hle].
    split; [constructor; [reflexivity | exact Hret]|].
    rewrite sends_node_log. lia.
Qed.

(** A call that leaves nodes expected sends nothing and leaves the wait as
    it is: the mutex free, [done] not set, the receiver parked. *)
Lemma completeNode_nodes_left node w :
  nodesLock (sbm w) = false -> done (sbm w) = false -> ch (sbm w) = Some (Chan true) ->
  expectedNodes (sbm (post (completeNode node w))) <> ∅ ->
  out (completeNode node w) = Returns tt /\
  sends (events (completeNode node w)) = 0%nat /\
  done (sbm (post (completeNode node w))) = false /\
  ch (sbm (post (completeNode node w))) = Some (Chan true) /\
  nodesLock (sbm (post (completeNode node w))) = false /\
  size (without node (sbm w)) <> 0%nat.
Proof.
  intros Hl Hd Hc He.
  destruct (decide (size (without node (sbm w)) = 0%nat)) as [Hs|Hs].
  - exfalso. apply He. rewrite completeNode_last by auto. rewrite Hc.
    apply map_size_empty_iff in Hs. destruct w as [[] ?]. exact Hs.
  - rewrite completeNode_quiet by auto. cbn [out post events].
    split; [reflexivity|]. split; [apply sends_node_log|].
    destruct w as [[] ?]. cbn in *. auto.
Qed.

(** The call that leaves the set empty while the receiver is parked. *)
Lemma completeNode_emptying node w :
  nodesLock (sbm w) = false -> done (sbm w) = false -> ch (sbm w) = Some (Chan true) ->
  expectedNodes (sbm (post (completeNode node w))) = ∅ ->
  out (completeNode node w) = Returns tt /\
  sends (events (completeNode node w)) = 1%nat /\
  done (sbm (post (completeNode node w))) = true /\
  nodesLock (sbm (post (completeNode node w))) = false.
Proof.
  intros Hl Hd Hc He.
  destruct (decide (size (without node (sbm w)) = 0%nat)) as [Hs|Hs].
  - rewrite completeNode_last in * by auto. rewrite Hc in *. cbn [out post events].
    split; [reflexivity|]. split.
    { unfold node_log. destruct (expectedNodes (sbm w) !! node); reflexivity. }
    destruct w as [[] ?]. split; reflexivity.
  - exfalso. rewrite completeNode_quiet in He by auto.
    apply Hs, map_size_empty_iff. destruct w as [[] ?]. exact He.
Qed.

(** Over a sequence of calls the send is made by the first call that leaves
    the set empty, and by no other. *)
Lemma completeNode_calls_signal calls : forall w,
  nodesLock (sbm w) = false -> done (sbm w) = false -> ch (sbm w) = Some (Chan true) ->
  (forall k r,
     completeNode_calls calls w !! k = Some r ->
     (sends (events r) = 0%nat \/ sends (events r) = 1%nat) /\
     (sends (events r) = 1%nat <->
      expectedNodes (sbm (post r)) = ∅ /\
      forall j r', (j < k)%nat -> completeNode_calls calls w !! j = Some r' ->
                   expectedNodes (sbm (post r')) <> ∅)) /\
  (forall r,
     last (completeNode_calls calls w) = Some r ->
     sends (concat (map events (completeNode_calls calls w))) =
       if decide (expectedNodes (sbm (post r)) = ∅) then 1%nat else 0%nat).
Proof.
  induction calls as [|node rest IH]; intros w Hl Hd Hc.
  { split; [intros k r Hk; discriminate | intros r Hr; discriminate]. }
  cbn [completeNode_calls map concat]. rewrite sends_app.
  destruct (decide (expectedNodes (sbm (post (completeNode node w))) = ∅)) as [He|He].
  - destruct (completeNode_emptying node w Hl Hd Hc He) as (Ho & Hs & Hd1 & Hl1).
    pose proof (completeNode_calls_after_done rest (post (completeNode node w)) Hl1 Hd1 He)
      as Hafter.
    split.
    + intros [|k] r Hk.
      * injection Hk as <-. split; [auto|]. split; [|intros _; exact Hs].
        intros _. split; [exact He|]. intros j r' Hj. lia.
      * cbn in Hk. rewrite Forall_forall in Hafter.
        apply list_elem_of_lookup_2 in Hk. destruct (Hafter r Hk) as (_ & Hs0 & _).
        split; [auto|]. split; [rewrite Hs0; discriminate|].
        intros [_ Hprior]. exfalso.
        apply (Hprior 0%nat (completeNode node w)); [lia | reflexivity | exact He].
    + intros r Hr. rewrite Hs.
      assert (Hz : sends (concat (map events
                (completeNode_calls rest (post (completeNode node w))))) = 0%nat).
      { apply sends_concat_zero. eapply Forall_impl; [exact Hafter|]. intros x Hx. apply Hx. }
      rewrite Hz.
      assert (Hr' : expectedNodes (sbm (post r)) = ∅).
      { destruct (completeNode_calls rest (post (completeNode node w))) as [|r1 rs] eqn:Hrs.
        - injection Hr as <-. exact He.
        - assert (Hin : r ∈ r1 :: rs).
          { change (last (completeNode node w :: r1 :: rs)) with (last (r1 :: rs)) in Hr.
            apply last_Some in Hr as [l' ->]. apply elem_of_app. right. left. }
          rewrite Forall_forall in Hafter. destruct (Hafter r Hin) as (_ & _ & ->). exact He. }
      rewrite decide_True by exact Hr'. reflexivity.
  - destruct (completeNode_nodes_left node w Hl Hd Hc He) as (Ho & Hs & Hd1 & Hc1 & Hl1 & _).
    destruct (IH (post (completeNode node w)) Hl1 Hd1 Hc1) as [IHk IHlast]. clear IH.
    split.
    + intros [|k] r Hk.
      * injection Hk as <-. split; [auto|]. rewrite Hs. split; [discriminate|].
        intros [He' _]. contradiction.
      * cbn in Hk. destruct (IHk k r Hk) as [H01 Hiff]. split; [exact H01|].
        rewrite Hiff. split; intros [Hemp Hprior]; (split; [exact Hemp|]).
        -- intros [|j] r' Hj Hr'; [injection Hr' as <-; exact He|].
           apply (Hprior j r'); [lia | exact Hr'].
        -- intros j r' Hj Hr'. apply (Hprior (S j) r'); [lia | exact Hr'].
    + intros r Hr. rewrite Hs. cbn [Nat.add].
      destruct (completeNode_calls rest (post (completeNode node w))) as [|r1 rs] eqn:Hrs.
      * injection Hr as <-. rewrite decide_False by exact He. reflexivity.
      * apply IHlast. exact Hr.
Qed.

(** C3. The completion signal is raised once, by the call that empties the
    set. From the start of the wait on, with the control goroutine parked in
    the receive, every call of [completeNode] returns and at most one send
    on [m.ch] completes over any sequence of calls. The call that leaves the
    expected set empty sends exactly once and returns; every later call, for
    whatever node, returns as well, sends nothing and leaves the set empty.
    A call that leaves nodes expected sends nothing, sets no [done] and
    leaves the receiver parked. Over a sequence of calls a call sends
    exactly when it is the first one to leave the set empty, so that one
    send has completed when the set is empty after the last call, and none
    when nodes are still expected. *)
Theorem completeNode_signals_once (w : World) (node : string) (later calls : list string) :
  nodesLock (sbm w) = false ->
  done (sbm w) = false ->
  ch (sbm w) = Some (Chan true) ->
  (Forall (fun r => out r = Returns tt) (completeNode_calls calls w) /\
   (sends (concat (map events (completeNode_calls calls w))) <= 1)%nat) /\
  (expectedNodes (sbm (post (completeNode node w))) = ∅ ->
   out (completeNode node w) = Returns tt /\
   sends (events (completeNode node w)) = 1%nat /\
   done (sbm (post (completeNode node w))) = true /\
   Forall (fun r => out r = Returns tt /\ sends (events r) = 0%nat /\
                    expectedNodes (sbm (post r)) = ∅ /\
                    done (sbm (post r)) = true)
          (completeNode_calls later (post (completeNode node w)))) /\
  (expectedNodes (sbm (post (completeNode node w))) <> ∅ ->
   out (completeNode node w) = Returns tt /\
   sends (events (completeNode node w)) = 0%nat /\
   done (sbm (post (completeNode node w))) = false /\
   ch (sbm (post (completeNode node w))) = Some (Chan true) /\
   nodesLock (sbm (post (completeNode node w))) = false) /\
  (forall k r,
     completeNode_calls calls w !! k = Some r ->
     (sends (events r) = 0%nat \/ sends (events r) = 1%nat) /\
     (sends (events r) = 1%nat <->
      expectedNodes (sbm (post r)) = ∅ /\
      forall j r', (j < k)%nat -> completeNode_calls calls w !! j = Some r' ->
                   expectedNodes (sbm (post r')) <> ∅)) /\
  (forall r,
     last (completeNode_calls calls w) = Some r ->
     sends (concat (map events (completeNode_calls calls w))) =
       if decide (expectedNodes (sbm (post r)) = ∅) then 1%nat else 0%nat).
Proof.
  intros Hl Hd Hc. split; [apply completeNode_calls_from_parked; assumption|].
  split; [|split].
  - intros He.
    destruct (completeNode_emptying node w Hl Hd Hc He) as (Ho & Hs & Hd1 & Hl1).
    split; [exact Ho|]. split; [exact Hs|]. split; [exact Hd1|].
    eapply Forall_impl.
    + apply completeNode_calls_after_done; assumption.
    + intros r (Hor & Hn & Hp). rewrite Hp. auto.
  - intros He.
    destruct (completeNode_nodes_left node w Hl Hd Hc He) as (Ho & Hs & Hd1 & Hc1 & Hl1 & _).
    auto.
  - apply completeNode_calls_signal; assumption.
Qed.

Lemma completeNode_signals_once_witness :
  ((Forall (fun r => out r = Returns tt)
      (completeNode_calls ["node-b"; "node-z"; "node-a"; "node-a"]
         (tracking ["node-a"; "node-b"])) /\
    (sends (concat (map events
       (completeNode_calls ["node-b"; "node-z"; "node-a"; "node-a"]
          (tracking ["node-a"; "node-b"])))) <= 1)%nat) /\
   (out (completeNode "node-a" (tracking ["node-a"; "node-b"])) = Returns tt /\
    sends (events (completeNode "node-a" (tracking ["node-a"; "node-b"]))) = 0%nat /\
    done (sbm (post (completeNode "node-a" (tracking ["node-a"; "node-b"])))) = false /\
    ch (sbm (post (completeNode "node-a" (tracking ["node-a"; "node-b"])))) =
      Some (Chan true) /\
    nodesLock (sbm (post (completeNode "node-a" (tracking ["node-a"; "node-b"])))) = false) /\
   (forall k r,
      completeNode_calls ["node-b"; "node-z"; "node-a"; "node-a"]
        (tracking ["node-a"; "node-b"]) !! k = Some r ->
      (sends (events r) = 0%nat \/ sends (events r) = 1%nat) /\
      (sends (events r) = 1%nat <->
       expectedNodes (sbm (post r)) = ∅ /\
       forall j r', (j < k)%nat ->
         completeNode_calls ["node-b"; "node-z"; "node-a"; "node-a"]
           (tracking ["node-a"; "node-b"]) !! j = Some r' ->
         expectedNodes (sbm (post r')) <> ∅)) /\
   sends (concat (map events
      (completeNode_calls ["node-b"; "node-z"; "node-a"; "node-a"]
         (tracking ["node-a"; "node-b"])))) = 1%nat /\
   sends (concat (map events
      (completeNode_calls ["node-b"; "node-z"] (tracking ["node-a"; "node-b"])))) = 0%nat) /\
  out (completeNode "node-a" (tracking ["node-a"])) = Returns tt /\
  sends (events (completeNode "node-a" (tracking ["node-a"]))) = 1%nat /\
  done (sbm (post (completeNode "node-a" (tracking ["node-a"])))) = true /\
  Forall (fun r => out r = Returns tt /\ sends (events r) = 0%nat /\
                   expectedNodes (sbm (post r)) = ∅ /\
                   done (sbm (post r)) = true)
         (completeNode_calls ["node-a"; "node-b"]
            (post (completeNode "node-a" (tracking ["node-a"])))).
Proof.
  split.
  - destruct (completeNode_signals_once (tracking ["node-a"; "node-b"]) "node-a" []
                ["node-b"; "node-z"; "node-a"; "node-a"] eq_refl eq_refl eq_refl)
      as (H1 & _ & H3 & H4 & H5).
    destruct (completeNode_signals_once (tracking ["node-a"; "node-b"]) "node-a" []
                ["node-b"; "node-z"] eq_refl eq_refl eq_refl)
      as (_ & _ & _ & _ & H6).
    split; [exact H1|]. split; [apply H3; vm_compute; discriminate|].
    split; [exact H4|]. split.
    + rewrite (H5 _ eq_refl). apply decide_True. vm_compute. reflexivity.
    + rewrite (H6 _ eq_refl). apply decide_False. vm_compute. discriminate.
  - apply (completeNode_signals_once (tracking ["node-a"]) "node-a" ["node-a"; "node-b"] []);
      vm_compute; reflexivity.
Defined.

(** What a call does to the expected set, whatever the state of the lock
    and of the channel: it removes [node] and logs the removal, or it leaves
    the set as it is and logs no removal. *)
Lemma completeNode_nodes node w :
  (nodesLock (sbm w) = false /\ is_Some (expectedNodes (sbm w) !! node) /\
   expectedNodes (sbm (post (completeNode node w))) = delete node (expectedNodes (sbm w)) /\
   removals (events (completeNode node w)) = [node]) \/
  ((nodesLock (sbm w) = true \/ expectedNodes (sbm w) !! node = None) /\
   expectedNodes (sbm (post (completeNode node w))) = expectedNodes (sbm w) /\
   removals (events (completeNode node w)) = []).
Proof.
  destruct (nodesLock (sbm w)) eqn:Hl.
  { right. rewrite completeNode_locked by exact Hl. msimpl. auto. }
  assert (Hcases :
    post (completeNode node w) =
      upd_sbm (fun m => set_nodesLock false (set_expectedNodes (without node m) m)) w /\
    events (completeNode node w) = [node_log node (sbm w)]
    \/ expectedNodes (sbm (post (completeNode node w))) = without node (sbm w) /\
       exists t, events (completeNode node w) =
                 ([node_log node (sbm w); Log DebugLevel "all nodes are completed." []] ++ t)%list /\
                 removals t = []).
  { destruct (decide (size (without node (sbm w)) = 0%nat)) as [Hs|Hs].
    - destruct (done (sbm w)) eqn:Hd.
      + left. rewrite completeNode_quiet by auto. msimpl. auto.
      + right. rewrite completeNode_last by auto.
        destruct (ch (sbm w)) as [[[|]]|]; msimpl;
          (split; [reflexivity | eexists; split; [reflexivity | reflexivity]]).
    - left. rewrite completeNode_quiet by auto. msimpl. auto. }
  assert (Hnodes : expectedNodes (sbm (post (completeNode node w))) = without node (sbm w)).
  { destruct Hcases as [[Hp _]|[Hp _]]; [rewrite Hp; msimpl; reflexivity | exact Hp]. }
  assert (Hrem : removals (events (completeNode node w)) = removals [node_log node (sbm w)]).
  { destruct Hcases as [[_ Ht]|[_ (t & Ht & Hr)]]; rewrite Ht; [reflexivity|].
    unfold removals in *. rewrite omap_app, Hr.
    unfold node_log. destruct (expectedNodes (sbm w) !! node); reflexivity. }
  rewrite Hnodes, Hrem. unfold without, node_log.
  destruct (expectedNodes (sbm w) !! node) eqn:Hn.
  - left. repeat split; eauto.
  - right. repeat split; eauto.
Qed.

Lemma completeNode_calls_removals calls : forall w,
  NoDup (removals (concat (map events (completeNode_calls calls w)))) /\
  forall x, In x (removals (concat (map events (completeNode_calls calls w)))) ->
            is_Some (expectedNodes (sbm w) !! x).
Proof.
  induction calls as [|node rest IH]; intros w; cbn [completeNode_calls map concat].
  - split; [constructor | intros x []].
  - unfold removals at 1 2. rewrite omap_app. fold (removals (events (completeNode node w))).
    fold (removals (concat (map events (completeNode_calls rest (post (completeNode node w)))))).
    destruct (IH (post (completeNode node w))) as [Hnd Hin].
    destruct (completeNode_nodes node w) as [(_ & Hsome & Hn & Hr)|(_ & Hn & Hr)];
      rewrite Hr; rewrite Hn in Hin; cbn [app].
    + split.
      * constructor; [|exact Hnd]. intros Hx%list_elem_of_In%Hin.
        rewrite lookup_delete_eq in Hx. destruct Hx; discriminate.
      * intros x [<-|Hx]; [exact Hsome|].
        apply Hin in Hx. destruct (decide (node = x)) as [->|Hne].
        -- rewrite lookup_delete_eq in Hx. destruct Hx; discriminate.
        -- rewrite lookup_delete_ne in Hx by exact Hne. exact Hx.
    + split; [exact Hnd | exact Hin].
Qed.

(** C4, as amended. [completeNode] returns no value. Under the lock it
    removes the node from the expected set when the node is there, and
    otherwise logs the warning about an unknown node and leaves the set as it
    is; over any sequence of calls no node is removed twice. *)
Theorem completeNode_removes_expected_node (w : World) (node : string) (calls : list string) :
  nodesLock (sbm w) = false ->
  (is_Some (expectedNodes (sbm w) !! node) ->
   expectedNodes (sbm (post (completeNode node w))) = delete node (expectedNodes (sbm w)) /\
   removals (events (completeNode node w)) = [node]) /\
  (expectedNodes (sbm w) !! node = None ->
   expectedNodes (sbm (post (completeNode node w))) = expectedNodes (sbm w) /\
   In (Log WarnLevel "complete an unknown node %s" [Str node]) (events (completeNode node w)) /\
   removals (events (completeNode node w)) = []) /\
  NoDup (removals (concat (map events (completeNode_calls calls w)))).
Proof.
  intros Hl. split; [|split].
  - intros Hsome.
    destruct (completeNode_nodes node w) as [(_ & _ & Hn & Hr)|([Hk|Hnone] & _)]; auto.
    + congruence.
    + rewrite Hnone in Hsome. destruct Hsome; discriminate.
  - intros Hnone.
    destruct (completeNode_nodes node w) as [(_ & Hsome & _)|(_ & Hn & Hr)].
    + rewrite Hnone in Hsome. destruct Hsome; discriminate.
    + split; [exact Hn|]. split; [|exact Hr].
      assert (Hlog : node_log node (sbm w) =
                     Log WarnLevel "complete an unknown node %s" [Str node]).
      { unfold node_log. rewrite Hnone. reflexivity. }
      rewrite <- Hlog.
      destruct (decide (size (without node (sbm w)) = 0%nat)) as [Hs|Hs].
      * destruct (done (sbm w)) eqn:Hd.
        -- rewrite completeNode_quiet by auto. left. reflexivity.
        -- rewrite completeNode_last by auto.
           destruct (ch (sbm w)) as [[[|]]|]; left; reflexivity.
      * rewrite completeNode_quiet by auto. left. reflexivity.
  - apply completeNode_calls_removals.
Qed.

Lemma completeNode_removes_expected_node_witness :
  (is_Some (expectedNodes (sbm (tracking ["node-a"; "node-b"])) !! "node-a") ->
   expectedNodes (sbm (post (completeNode "node-a" (tracking ["node-a"; "node-b"])))) =
     delete "node-a" (expectedNodes (sbm (tracking ["node-a"; "node-b"]))) /\
   removals (events (completeNode "node-a" (tracking ["node-a"; "node-b"]))) = ["node-a"]) /\
  (expectedNodes (sbm (tracking ["node-a"; "node-b"])) !! "node-a" = None ->
   expectedNodes (sbm (post (completeNode "node-a" (tracking ["node-a"; "node-b"])))) =
     expectedNodes (sbm (tracking ["node-a"; "node-b"])) /\
   In (Log WarnLevel "complete an unknown node %s" [Str "node-a"])
      (events (completeNode "node-a" (tracking ["node-a"; "node-b"]))) /\
   removals (events (completeNode "node-a" (tracking ["node-a"; "node-b"]))) = []) /\
  NoDup (removals (concat (map events
           (completeNode_calls ["node-a"; "node-z"; "node-a"; "node-b"]
              (tracking ["node-a"; "node-b"]))))).
Proof.
  apply (completeNode_removes_expected_node (tracking ["node-a"; "node-b"]) "node-a"
           ["node-a"; "node-z"; "node-a"; "node-b"]).
  vm_compute. reflexivity.
Defined.

(** C4, as the claim states it, fails: the claim has the operation return
    true for an expected node and false for an unknown one, and the calls
    for an expected and for an unknown node come back with the same, empty,
    result. *)
Lemma completeNode_result_is_no_boolean :
  is_Some (expectedNodes (sbm (tracking ["node-a"; "node-b"])) !! "node-a") /\
  expectedNodes (sbm (tracking ["node-a"; "node-b"])) !! "node-z" = None /\
  out (completeNode "node-a" (tracking ["node-a"; "node-b"])) = Returns tt /\
  out (completeNode "node-z" (tracking ["node-a"; "node-b"])) = Returns tt /\
  ~ exists as_bool : outcome unit -> bool,
      as_bool (out (completeNode "node-a" (tracking ["node-a"; "node-b"]))) = true /\
      as_bool (out (completeNode "node-z" (tracking ["node-a"; "node-b"]))) = false.
Proof.
  assert (Ha : out (completeNode "node-a" (tracking ["node-a"; "node-b"])) = Returns tt)
    by (vm_compute; reflexivity).
  assert (Hz : out (completeNode "node-z" (tracking ["node-a"; "node-b"])) = Returns tt)
    by (vm_compute; reflexivity).
  split; [vm_compute; eauto|]. split; [vm_compute; reflexivity|].
  split; [exact Ha|]. split; [exact Hz|].
  intros (as_bool & Htrue & Hfalse). rewrite Ha in Htrue. rewrite Hz in Hfalse. congruence.
Qed.

(** *** Computations that leave the status to the loop *)

Lemma loop_updates_app t1 t2 : loop_updates (t1 ++ t2) = (loop_updates t1 ++ loop_updates t2)%list.
Proof. apply omap_app. Qed.

Lemma status_updates_app t1 t2 : status_updates (t1 ++ t2) = (status_updates t1 ++ status_updates t2)%list.
Proof. apply omap_app. Qed.

Lemma replay_app us1 us2 s : replay (us1 ++ us2) s = replay us2 (replay us1 s).
Proof. apply foldl_app. Qed.

Lemma tame_ret {A} (a : A) : tame (ret a).
Proof. intros w. split; reflexivity. Qed.

Lemma tame_bind {A B} (c : M A) (f : A -> M B) :
  tame c -> (forall a, tame (f a)) -> tame (bind c f).
Proof.
  intros Hc Hf w. unfold bind. destruct (Hc w) as [Hq Hs].
  destruct (c w) as [[a|msg|] w1 t1]; cbn [out post events] in *; auto.
  destruct (Hf a w1) as [Hq' Hs']. destruct (f a w1) as [o w2 t2]; cbn [out post events] in *.
  rewrite loop_updates_app, status_updates_app, replay_app, Hq, Hq', Hs', Hs. auto.
Qed.

Lemma tame_get_sbm : tame get_sbm.
Proof. intros w. split; reflexivity. Qed.

Lemma tame_set_sbm f : (forall m, status (f m) = status m) -> tame (set_sbm f).
Proof. intros H w. split; [reflexivity|]. cbn. apply H. Qed.

Lemma tame_logf lvl fmt args : tame (logf lvl fmt args).
Proof. intros w. split; reflexivity. Qed.

Lemma tame_call fn args : tame (call fn args).
Proof. intros w. split; reflexivity. Qed.

Lemma tame_block {A} : tame (@block A).
Proof. intros w. split; reflexivity. Qed.

Lemma tame_SetFileinfo name size : tame (SetFileinfo_ name size).
Proof. intros w. split; reflexivity. Qed.

Create HintDb tame discriminated.
#[export] Hint Resolve tame_ret tame_get_sbm tame_logf tame_call tame_block tame_SetFileinfo : tame.

Ltac tame_step :=
  match goal with
  | |- tame (bind _ _) => apply tame_bind; [|intros ?]
  | |- tame (set_sbm _) => apply tame_set_sbm; intros ?; reflexivity
  | |- tame (match ?x with _ => _ end) => destruct x
  | |- tame (let _ := _ in _) => cbv zeta
  | |- tame _ => solve [auto with tame]
  end.

Ltac tame_auto := repeat tame_step.

Lemma tame_getBundlefilesize E : tame (getBundlefilesize E).
Proof. unfold getBundlefilesize. tame_auto. Qed.

Lemma tame_check E : tame (check E).
Proof. unfold check. tame_auto. Qed.

Lemma tame_initClients E : tame (initClients E).
Proof. unfold initClients. tame_auto. Qed.

Lemma tame_initStateStore : tame initStateStore.
Proof. unfold initStateStore. tame_auto. Qed.

#[export] Hint Resolve tame_getBundlefilesize tame_check tame_initClients tame_initStateStore : tame.

Lemma tame_phaseInit E : tame (phaseInit E).
Proof. unfold phaseInit. tame_auto. Qed.

Lemma tame_GenerateClusterBundle E dir : tame (GenerateClusterBundle E dir).
Proof. unfold GenerateClusterBundle. tame_auto. Qed.

#[export] Hint Resolve tame_GenerateClusterBundle : tame.

Lemma tame_phaseCollectClusterBundle E : tame (phaseCollectClusterBundle E).
Proof. unfold phaseCollectClusterBundle. tame_auto. Qed.

Lemma tame_compressBundle E : tame (compressBundle E).
Proof. unfold compressBundle. tame_auto. Qed.

Lemma tame_phaseDone E : tame (phaseDone E).
Proof. unfold phaseDone. tame_auto. Qed.

Lemma tame_nodesLock_Lock : tame nodesLock_Lock.
Proof. intros w. unfold nodesLock_Lock. destruct (nodesLock (sbm w)); split; reflexivity. Qed.

Lemma tame_nodesLock_Unlock : tame nodesLock_Unlock.
Proof. unfold nodesLock_Unlock. tame_step. Qed.

Lemma tame_ch_send : tame ch_send.
Proof. intros w. unfold ch_send. destruct (ch (sbm w)) as [[[|]]|]; split; reflexivity. Qed.

Lemma tame_defer {A} cleanup (body : M A) : tame cleanup -> tame body -> tame (defer cleanup body).
Proof.
  intros Hc Hb w. unfold defer. destruct (Hb w) as [Hq Hs].
  destruct (body w) as [[a|msg|] w1 t1]; cbn [out post events] in *; auto;
    destruct (Hc w1) as [Hq' Hs']; destruct (cleanup w1) as [[u|msg'|] w2 t2];
    cbn [out post events] in *;
    rewrite loop_updates_app, status_updates_app, replay_app, Hq, Hq', Hs', Hs; auto.
Qed.

#[export] Hint Resolve tame_nodesLock_Lock tame_nodesLock_Unlock tame_ch_send : tame.

Lemma tame_completeNode node : tame (completeNode node).
Proof.
  unfold completeNode. apply tame_bind; [auto with tame | intros _].
  apply tame_defer; [auto with tame|]. tame_auto.
Qed.

#[export] Hint Resolve tame_completeNode : tame.

Lemma tame_refreshNodes E : tame (refreshNodes E).
Proof. unfold refreshNodes. tame_auto. Qed.

Lemma tame_serve names : tame (serve names).
Proof.
  induction names as [|node rest IH]; intros w; cbn [serve].
  - split; reflexivity.
  - destruct (tame_completeNode node w) as [Hq Hs].
    destruct (completeNode node w) as [o w1 t1]; cbn [out post events] in *.
    destruct (IH w1) as [Hq' Hs'].
    destruct (ch (sbm w1)) as [[[|]]|]; try destruct (serve rest w1) as [o2 w2 t2];
      cbn [out post events] in *;
      rewrite loop_updates_app, status_updates_app, replay_app, Hq, ?Hq', ?Hs', Hs; auto.
Qed.

Lemma tame_ch_recv E : tame (ch_recv E).
Proof.
  intros w. unfold ch_recv. destruct (ch (sbm w)); [|split; reflexivity].
  apply (tame_serve (arrivals E) (upd_sbm (set_ch (Some (Chan true))) w)).
Qed.

#[export] Hint Resolve tame_refreshNodes tame_ch_recv : tame.

Lemma tame_collectNodeBundles E : tame (collectNodeBundles E).
Proof. unfold collectNodeBundles. tame_auto. Qed.

#[export] Hint Resolve tame_collectNodeBundles : tame.

Lemma tame_phaseCollectNodeBundles E : tame (phaseCollectNodeBundles E).
Proof. unfold phaseCollectNodeBundles. tame_auto. Qed.

Lemma tame_phases E : Forall (fun ph => tame (snd ph)) (phases E).
Proof.
  unfold phases. repeat match goal with |- Forall _ _ => constructor end; cbn [snd].
  - apply tame_phaseInit.
  - apply tame_phaseCollectClusterBundle.
  - apply tame_phaseCollectNodeBundles.
  - apply tame_compressBundle.
  - apply tame_phaseDone.
Qed.

(** *** The phase state machine *)

Lemma run_phases_cons n i p act rest w :
  run_phases n i ((p, act) :: rest) w =
    match act (enter p w) with
    | Result (Returns (Some err)) w1 t1 =>
        Result (Returns tt) (record_error err w1) (entering p ++ t1 ++ failing p err)
    | Result (Returns None) w1 t1 =>
        match run_phases n (i + 1) rest (record_progress (Z.quot (100 * (i + 1)) n) w1) with
        | Result o w2 t2 =>
            Result o w2 (entering p ++ t1 ++ succeeding p (Z.quot (100 * (i + 1)) n) ++ t2)
        end
    | Result (Panics msg) w1 t1 => Result (Panics msg) w1 (entering p ++ t1)
    | Result Blocks w1 t1 => Result Blocks w1 (entering p ++ t1)
    end.
Proof.
  cbn [run_phases fst snd]. unfold enter, record_error, record_progress. msimpl.
  unfold bind at 1.
  destruct (act _) as [[[err|]|msg|] w1 t1]; msimpl; try reflexivity.
  destruct (run_phases n (i + 1) rest _) as [o w2 t2]. reflexivity.
Qed.

Lemma run_phases_shape n todo : forall i w,
  Forall (fun ph => tame (snd ph)) todo ->
  status (sbm (post (run_phases n i todo w))) =
    replay (status_updates (events (run_phases n i todo w))) (status (sbm w)) /\
  exists j, (j <= length todo)%nat /\
    ((j = length todo /\ out (run_phases n i todo w) = Returns tt /\
      loop_updates (events (run_phases n i todo w)) = completed n i (map fst todo)) \/
     exists p, map fst todo !! j = Some p /\
       ((out (run_phases n i todo w) <> Returns tt /\
         loop_updates (events (run_phases n i todo w)) =
           (completed n i (take j (map fst todo)) ++ [SetPhase p])%list) \/
        exists err,
          out (run_phases n i todo w) = Returns tt /\
          loop_updates (events (run_phases n i todo w)) =
            (completed n i (take j (map fst todo)) ++ [SetPhase p; SetError err])%list /\
          Error (status (sbm (post (run_phases n i todo w)))) = true /\
          ErrorMessage (status (sbm (post (run_phases n i todo w)))) = err)).
Proof.
  induction todo as [|[p act] rest IH]; intros i w HF.
  { split; [reflexivity|]. exists 0%nat. split; [reflexivity|]. left. auto. }
  apply Forall_cons in HF as [Hact HF]. cbn [snd] in Hact.
  rewrite run_phases_cons.
  destruct (Hact (enter p w)) as [Hq Hs].
  destruct (act (enter p w)) as [[[err|]|msg|] w1 t1]; cbn [out post events] in Hq, Hs.
  - split.
    + cbn [post events]. rewrite !status_updates_app, !replay_app.
      unfold record_error, enter in *. msimpl. msimpl in Hs. rewrite Hs. reflexivity.
    + exists 0%nat. split; [cbn; lia|]. right. exists p. split; [reflexivity|]. right.
      exists err. cbn [out post events]. rewrite !loop_updates_app, Hq.
      split; [reflexivity|]. split; [reflexivity|].
      unfold record_error. msimpl. auto.
  - destruct (IH (i + 1) (record_progress (Z.quot (100 * (i + 1)) n) w1) HF) as [Hs' (j & Hj & Hshape)].
    destruct (run_phases n (i + 1) rest _) as [o w2 t2]; cbn [out post events] in *.
    split.
    + rewrite !status_updates_app, !replay_app. rewrite Hs'.
      unfold record_progress, enter in *. msimpl. msimpl in Hs. rewrite Hs. reflexivity.
    + exists (S j). split; [cbn; lia|].
      rewrite !loop_updates_app, Hq. cbn [map fst take completed length lookup list_lookup].
      destruct Hshape as [(-> & Ho & Hl)|(q & Hq' & [[Ho Hl]|(err & Ho & Hl & He & Hm)])].
      * left. rewrite Hl. auto.
      * right. exists q. split; [exact Hq'|]. left. rewrite Hl. auto.
      * right. exists q. split; [exact Hq'|]. right. exists err. rewrite Hl. auto.
  - split.
    + cbn [post events]. rewrite !status_updates_app, !replay_app.
      unfold enter in *. msimpl. msimpl in Hs. rewrite Hs. reflexivity.
    + exists 0%nat. split; [cbn; lia|]. right. exists p. split; [reflexivity|]. left.
      cbn [out post events]. rewrite !loop_updates_app, Hq. split; [discriminate | reflexivity].
  - split.
    + cbn [post events]. rewrite !status_updates_app, !replay_app.
      unfold enter in *. msimpl. msimpl in Hs. rewrite Hs. reflexivity.
    + exists 0%nat. split; [cbn; lia|]. right. exists p. split; [reflexivity|]. left.
      cbn [out post events]. rewrite !loop_updates_app, Hq. split; [discriminate | reflexivity].
Qed.

(** [Run] in terms of its loop. *)
Lemma Run_unfold E w :
  Run E w =
    match run_phases 5 0 (phases E) w with
    | Result (Returns _) w1 t1 =>
        match context (sbm w1) with
        | None =>
            Result (Panics "invalid memory address or nil pointer dereference") w1 (t1 ++ [])
        | Some SignalContext =>
            if signal_delivered E
            then Result (Returns None) w1 (t1 ++ [ContextDone])
            else Result Blocks w1 (t1 ++ [])
        end
    | Result (Panics msg) w1 t1 => Result (Panics msg) w1 t1
    | Result Blocks w1 t1 => Result Blocks w1 t1
    end.
Proof.
  unfold Run. change (Z.of_nat (length (phases E))) with 5.
  unfold bind at 1. destruct (run_phases 5 0 (phases E) w) as [[[]|msg|] w1 t1]; try reflexivity.
  unfold bind, context_Done_recv.
  destruct (context (sbm w1)) as [[]|]; [destruct (signal_delivered E)|]; reflexivity.
Qed.

Lemma Run_post E w : post (Run E w) = post (run_phases 5 0 (phases E) w).
Proof.
  rewrite Run_unfold. destruct (run_phases 5 0 (phases E) w) as [[[]|msg|] w1 t1]; try reflexivity.
  cbn [post]. destruct (context (sbm w1)) as [[]|]; [destruct (signal_delivered E)|]; reflexivity.
Qed.

Lemma Run_events E w :
  events (Run E w) = events (run_phases 5 0 (phases E) w) \/
  events (Run E w) = (events (run_phases 5 0 (phases E) w) ++ [ContextDone])%list.
Proof.
  rewrite Run_unfold. destruct (run_phases 5 0 (phases E) w) as [[[]|msg|] w1 t1]; auto.
  cbn [events]. destruct (context (sbm w1)) as [[]|]; [destruct (signal_delivered E)|];
    cbn [events]; rewrite ?app_nil_r; auto.
Qed.

Lemma Run_loop_updates E w :
  loop_updates (events (Run E w)) = loop_updates (events (run_phases 5 0 (phases E) w)).
Proof.
  destruct (Run_events E w) as [->| ->]; [reflexivity|].
  rewrite loop_updates_app. cbn. apply app_nil_r.
Qed.

Lemma Run_status_updates E w :
  status_updates (events (Run E w)) = status_updates (events (run_phases 5 0 (phases E) w)).
Proof.
  destruct (Run_events E w) as [->| ->]; [reflexivity|].
  rewrite status_updates_app. cbn. apply app_nil_r.
Qed.

Lemma Run_out_loop E w v :
  out (Run E w) = Returns v -> out (run_phases 5 0 (phases E) w) = Returns tt.
Proof.
  rewrite Run_unfold. destruct (run_phases 5 0 (phases E) w) as [[[]|msg|] w1 t1]; cbn; congruence.
Qed.

Lemma Run_out_stuck E w :
  out (run_phases 5 0 (phases E) w) <> Returns tt -> out (Run E w) <> Returns None.
Proof. intros H Hr. apply H. eapply Run_out_loop. exact Hr. Qed.

(** The phase, progress and error updates of [Run] are those of the first
    [j] phases, all successful, followed by nothing when all five are done,
    by the entry into the next phase when the action of that phase never
    returns, or by that entry and the error of that phase, which is then the
    error of the status. A phase whose action returns an error ends the loop
    with that error recorded, whatever the later phases are. *)
Lemma Run_phases_shape (E : Env) (w : World) :
  (exists j, (j <= 5)%nat /\
     ((j = 5%nat /\ loop_updates (events (Run E w)) = completed 5 0 all_phases) \/
      exists p, all_phases !! j = Some p /\
        ((out (Run E w) <> Returns None /\
          loop_updates (events (Run E w)) =
            (completed 5 0 (take j all_phases) ++ [SetPhase p])%list) \/
         exists err,
           loop_updates (events (Run E w)) =
             (completed 5 0 (take j all_phases) ++ [SetPhase p; SetError err])%list /\
           Error (status (sbm (post (Run E w)))) = true /\
           ErrorMessage (status (sbm (post (Run E w)))) = err))) /\
  (forall n i p act rest w0 err w1 t1,
     act (enter p w0) = Result (Returns (Some err)) w1 t1 ->
     run_phases n i ((p, act) :: rest) w0 =
       Result (Returns tt) (record_error err w1) (entering p ++ t1 ++ failing p err)).
Proof.
  split.
  - destruct (run_phases_shape 5 (phases E) 0 w (tame_phases E)) as [_ (j & Hj & Hshape)].
    change (map fst (phases E)) with all_phases in Hshape.
    change (length (phases E)) with 5%nat in *.
    exists j. split; [exact Hj|]. rewrite Run_loop_updates, Run_post.
    destruct Hshape as [(-> & Ho & Hl)|(p & Hp & [[Ho Hl]|(err & Ho & Hl & He & Hm)])].
    + left. auto.
    + right. exists p. split; [exact Hp|]. left. split; [apply Run_out_stuck, Ho | exact Hl].
    + right. exists p. split; [exact Hp|]. right. exists err. auto.
  - intros n i p act rest w0 err w1 t1 Hact. rewrite run_phases_cons, Hact. reflexivity.
Qed.

Lemma progress_recorded_loop t : progress_recorded t = omap progress_of (loop_updates t).
Proof.
  unfold progress_recorded, loop_updates.
  induction t as [|e t IH]; [reflexivity|].
  destruct e as [| [] | | | |]; cbn in *; rewrite ?IH; reflexivity.
Qed.

Lemma progress_recorded_status t : progress_recorded t = omap progress_of (status_updates t).
Proof.
  unfold progress_recorded, status_updates.
  induction t as [|e t IH]; [reflexivity|].
  destruct e as [| [] | | | |]; cbn in *; rewrite ?IH; reflexivity.
Qed.

Lemma phases_entered_loop t : phases_entered t = omap phase_of (loop_updates t).
Proof.
  unfold phases_entered, loop_updates.
  induction t as [|e t IH]; [reflexivity|].
  destruct e as [| [] | | | |]; cbn in *; rewrite ?IH; reflexivity.
Qed.

Lemma replay_Progress us : forall s,
  Progress (replay us s) = default (Progress s) (last (omap progress_of us)).
Proof.
  induction us as [|u us IH]; intros s; [reflexivity|].
  change (replay (u :: us) s) with (replay us (apply_update s u)). rewrite IH.
  clear IH. destruct u; simpl; try reflexivity.
  change (list_omap _ _ progress_of us) with (omap progress_of us).
  destruct (omap progress_of us) as [|z l]; [reflexivity|].
  change (last (p :: z :: l)) with (last (z :: l)).
  destruct (last_is_Some (z :: l)) as [_ [x ->]]; [discriminate | reflexivity].
Qed.

(** With [j] phases completed the progress values that [Run] records are
    [100 * k / 5] for [k] from 1 to [j], each between 0 and 100, in
    non-decreasing order, and the progress of the status is the last of
    them. *)
Lemma Run_progress_shape (E : Env) (w : World) :
  exists j, (j <= 5)%nat /\
    phases_entered (events (Run E w)) = take (S j) all_phases /\
    progress_recorded (events (Run E w)) =
      map (fun k => Z.quot (100 * Z.of_nat k) 5) (seq 1 j) /\
    Forall (fun p => 0 <= p <= 100) (progress_recorded (events (Run E w))) /\
    StronglySorted Z.le (progress_recorded (events (Run E w))) /\
    Progress (status (sbm (post (Run E w)))) =
      default (Progress (status (sbm w))) (last (progress_recorded (events (Run E w)))).
Proof.
  destruct (run_phases_shape 5 (phases E) 0 w (tame_phases E)) as [Hs (j & Hj & Hshape)].
  change (map fst (phases E)) with all_phases in Hshape.
  change (length (phases E)) with 5%nat in *.
  exists j. split; [exact Hj|].
  rewrite Run_post, Hs, replay_Progress, <- progress_recorded_status.
  assert (Hpr : progress_recorded (events (Run E w)) =
                progress_recorded (events (run_phases 5 0 (phases E) w))).
  { rewrite !progress_recorded_loop, Run_loop_updates. reflexivity. }
  rewrite <- Hpr.
  rewrite phases_entered_loop, progress_recorded_loop, Run_loop_updates.
  assert (Hl : exists tail, omap progress_of tail = [] /\
             (omap phase_of tail = [] /\ j = 5%nat \/
              exists p, all_phases !! j = Some p /\ omap phase_of tail = [p]) /\
             loop_updates (events (run_phases 5 0 (phases E) w)) =
               (completed 5 0 (take j all_phases) ++ tail)%list).
  { destruct Hshape as [(-> & Ho & Hl)|(p & Hp & [[Ho Hl]|(err & Ho & Hl & He & Hm)])].
    - exists []. rewrite Hl. repeat split; auto.
    - exists [SetPhase p]. rewrite Hl. repeat split; eauto.
    - exists [SetPhase p; SetError err]. rewrite Hl. repeat split; eauto. }
  destruct Hl as (tail & Htp & Hte & ->).
  rewrite !omap_app, Htp, app_nil_r.
  destruct j as [|[|[|[|[|[|j]]]]]]; try lia;
    (destruct Hte as [[-> Hj5]|(p & Hp & ->)]; [try discriminate Hj5 | try discriminate Hp];
     try (injection Hp as <-);
     cbn [take all_phases completed omap progress_of phase_of app seq map];
     (split; [reflexivity|]); (split; [reflexivity|]);
     (split; [repeat constructor; vm_compute; congruence|]);
     (split; [repeat constructor; vm_compute; congruence | reflexivity])).
Qed.

(** *** The run and the state machine of the spec *)

Lemma state_machine_phases E : phases E = state_machine E.
Proof. reflexivity. Qed.

(** The loop of [Run] plays the executions of the machine, one after the
    other. *)
Lemma run_phases_played n machine : forall i w,
  events (run_phases n i machine w) = flat_map (played n) (attempts n i machine w).
Proof.
  induction machine as [|[p act] rest IH]; intros i w; [reflexivity|].
  rewrite run_phases_cons. cbn [attempts flat_map]. unfold played at 1. cbn [attempted result_of completed_before].
  destruct (act (enter p w)) as [[[err|]|msg|] w1 t1]; cbn [out post events flat_map];
    rewrite ?app_nil_r; try reflexivity.
  specialize (IH (i + 1) (record_progress (Z.quot (100 * (i + 1)) n) w1)).
  destruct (run_phases n (i + 1) rest _) as [o w2 t2]. cbn [events] in *.
  rewrite IH, <- !app_assoc. reflexivity.
Qed.

Lemma loop_updates_played n a :
  loop_updates (events (result_of a)) = [] ->
  loop_updates (played n a) = recorded n a.
Proof.
  intros Hq. unfold played, recorded. rewrite !loop_updates_app, Hq.
  destruct (out (result_of a)) as [[err|]|msg|]; reflexivity.
Qed.

(** An action that leaves the loop's part of the status alone is run by the
    machine without a loop update of its own. *)
Lemma attempts_quiet n machine : forall i w,
  Forall (fun ph => tame (snd ph)) machine ->
  Forall (fun a => loop_updates (events (result_of a)) = []) (attempts n i machine w).
Proof.
  induction machine as [|[p act] rest IH]; intros i w Ht; [constructor|].
  apply Forall_cons in Ht as [Hact Hrest]. cbn [attempts].
  constructor; [apply Hact|].
  destruct (out (act (enter p w))) as [[err|]|msg|]; try constructor.
  apply IH, Hrest.
Qed.

Lemma run_phases_recorded n machine i w :
  Forall (fun ph => tame (snd ph)) machine ->
  loop_updates (events (run_phases n i machine w)) =
    flat_map (recorded n) (attempts n i machine w).
Proof.
  intros Ht. rewrite run_phases_played.
  pose proof (attempts_quiet n machine i w Ht) as Hq.
  induction (attempts n i machine w) as [|a l IH]; [reflexivity|].
  apply Forall_cons in Hq as [Ha Hl]. cbn [flat_map].
  rewrite loop_updates_app, loop_updates_played, IH by assumption. reflexivity.
Qed.

(** The phases of the executions are the first phases of the machine, the
    number of phases completed before an execution is its position, and
    every execution but the last returned nil. *)
Lemma attempts_shape n machine : forall i w,
  map attempted (attempts n i machine w) =
    take (length (attempts n i machine w)) (map fst machine) /\
  (forall k a, attempts n i machine w !! k = Some a ->
     completed_before a = i + Z.of_nat k) /\
  (forall k a, attempts n i machine w !! k = Some a ->
     (S k < length (attempts n i machine w))%nat -> out (result_of a) = Returns None).
Proof.
  induction machine as [|[p act] rest IH]; intros i w.
  { repeat split; intros k a Hk; discriminate. }
  cbn [attempts map fst length take].
  destruct (out (act (enter p w))) as [[err|]|msg|] eqn:Ho.
  2:{ destruct (IH (i + 1) (record_progress (Z.quot (100 * (i + 1)) n) (post (act (enter p w)))))
        as (Hm & Hidx & Hnil).
      split; [cbn [map length take attempted]; rewrite Hm; reflexivity|]. split.
      - intros [|k] a Hk.
        + injection Hk as <-. cbn. lia.
        + cbn in Hk. rewrite (Hidx k a Hk). lia.
      - intros [|k] a Hk Hlen.
        + injection Hk as <-. exact Ho.
        + cbn in Hk. apply (Hnil k a Hk). cbn [length] in Hlen. lia. }
  all: split; [reflexivity|]; split; intros [|k] a Hk; try discriminate;
    injection Hk as <-; cbn; try lia.
Qed.

(** An execution that did not return nil is the last one. *)
Lemma attempts_stop n machine i w a :
  In a (attempts n i machine w) -> out (result_of a) <> Returns None ->
  exists l, attempts n i machine w = (l ++ [a])%list.
Proof.
  intros Hin Hne. apply list_elem_of_In, list_elem_of_lookup in Hin as [k Hk].
  destruct (attempts_shape n machine i w) as (_ & _ & Hnil).
  pose proof (lookup_lt_Some _ _ _ Hk) as Hlt.
  assert (Hlast : last (attempts n i machine w) = Some a).
  { rewrite last_lookup. replace (pred (length (attempts n i machine w))) with k; [exact Hk|].
    destruct (decide (S k < length (attempts n i machine w))%nat) as [Hs|Hs]; [|lia].
    exfalso. apply Hne, (Hnil k a Hk Hs). }
  apply last_Some in Hlast. exact Hlast.
Qed.

Lemma phases_of_recorded n l :
  omap phase_of (flat_map (recorded n) l) = map attempted l.
Proof.
  induction l as [|a l IH]; [reflexivity|]. cbn [flat_map map].
  rewrite omap_app, IH. unfold recorded.
  destruct (out (result_of a)) as [[err|]|msg|]; reflexivity.
Qed.

Lemma progress_of_recorded n l :
  omap progress_of (flat_map (recorded n) l) =
    omap (fun a => match out (result_of a) with
                   | Returns None => Some (Z.quot (100 * (completed_before a + 1)) n)
                   | _ => None
                   end) l.
Proof.
  induction l as [|a l IH]; [reflexivity|]. cbn [flat_map].
  rewrite omap_app, IH. unfold recorded. unfold omap at 3. cbn [list_omap].
  destruct (out (result_of a)) as [[err|]|msg|]; reflexivity.
Qed.

Lemma length_completed_phases n l :
  length (omap (fun a => match out (result_of a) with
                         | Returns None => Some (Z.quot (100 * (completed_before a + 1)) n)
                         | _ => None
                         end) l) = length (completed_phases l).
Proof.
  unfold completed_phases. induction l as [|a l IH]; [reflexivity|].
  unfold omap in *. cbn [list_omap].
  destruct (out (result_of a)) as [[err|]|msg|]; cbn [length]; rewrite ?IH; reflexivity.
Qed.

(** The events and the loop updates of [Run] are those of the executions of
    the machine; the receipt of the signal may follow. *)
Lemma Run_played E w :
  (exists tail,
     events (Run E w) =
       (flat_map (played 5) (attempts 5 0 (state_machine E) w) ++ tail)%list /\
     (tail = [] \/ tail = [ContextDone])) /\
  loop_updates (events (Run E w)) =
    flat_map (recorded 5) (attempts 5 0 (state_machine E) w).
Proof.
  split.
  - rewrite <- (run_phases_played 5 (state_machine E) 0 w), <- state_machine_phases.
    destruct (Run_events E w) as [->| ->]; [exists [] | exists [ContextDone]];
      rewrite ?app_nil_r; auto.
  - rewrite Run_loop_updates, state_machine_phases.
    apply run_phases_recorded. rewrite <- state_machine_phases. apply tame_phases.
Qed.

(** The first execution is that of the action of the first phase, and an
    execution that follows another one is that of the action of the next
    phase, in the world left by the action before with its progress
    recorded. *)
Lemma attempts_chain n machine : forall i w,
  (forall p act rest, machine = (p, act) :: rest ->
     head (attempts n i machine w) =
       Some {| completed_before := i; attempted := p; result_of := act (enter p w) |}) /\
  (forall k a b p act,
     attempts n i machine w !! k = Some a ->
     attempts n i machine w !! S k = Some b ->
     machine !! S k = Some (p, act) ->
     attempted b = p /\
     result_of b =
       act (enter p (record_progress (Z.quot (100 * (i + Z.of_nat k + 1)) n)
                       (post (result_of a))))).
Proof.
  induction machine as [|[p0 act0] rest IH]; intros i w.
  { split; [discriminate|]. intros k a b p act Hk; discriminate. }
  split; [intros p act rest' [= <- <- <-]; reflexivity|].
  intros k a b p act Ha Hb Hm. cbn [attempts] in Ha, Hb.
  destruct (out (act0 (enter p0 w))) as [[err|]|msg|] eqn:Ho;
    try (destruct k; discriminate).
  destruct (IH (i + 1) (record_progress (Z.quot (100 * (i + 1)) n) (post (act0 (enter p0 w)))))
    as [Hhead Hstep].
  destruct k as [|k].
  - injection Ha as <-. cbn in Hb, Hm. destruct rest as [|[p1 act1] rest']; [discriminate|].
    injection Hm as <- <-. cbn [attempts] in Hb. injection Hb as <-.
    cbn [attempted result_of]. replace (i + Z.of_nat 0 + 1) with (i + 1) by lia. auto.
  - cbn in Ha, Hb, Hm. destruct (Hstep k a b p act Ha Hb Hm) as [Hp Hr].
    split; [exact Hp|]. rewrite Hr.
    replace (i + 1 + Z.of_nat k + 1) with (i + Z.of_nat (S k) + 1) by lia. reflexivity.
Qed.

(** C5. [Run] is the state machine of the spec. Its events are those of the
    executions of the machine, one after the other: the entry into a phase,
    the events of the action of that phase run to its end, and the record
    of its result; the receipt of the signal may follow. The phases
    executed are the first phases of Init, ClusterBundle, NodeBundle,
    Packaging, Done, in this order; the first execution is that of
    [phaseInit], and an execution follows another one only when that one
    returned nil, and then it is the action of the next phase, run in the
    world that the action before has left, with its progress recorded. An
    execution that returned an error is the last one: no later action runs,
    [SetError] of this error is the last update of the loop, and the status
    carries the error flag and this error. The phase, progress and error
    updates are accordingly those of the first [j] phases, all successful,
    followed by nothing, by the entry into a phase whose action does not
    return, or by that entry and the error of that phase. *)
Theorem Run_phases_in_fixed_order (E : Env) (w : World) :
  (exists tail,
     events (Run E w) =
       (flat_map (played 5) (attempts 5 0 (state_machine E) w) ++ tail)%list /\
     (tail = [] \/ tail = [ContextDone])) /\
  loop_updates (events (Run E w)) =
    flat_map (recorded 5) (attempts 5 0 (state_machine E) w) /\
  phases_entered (events (Run E w)) = map attempted (attempts 5 0 (state_machine E) w) /\
  map attempted (attempts 5 0 (state_machine E) w) =
    take (length (attempts 5 0 (state_machine E) w)) all_phases /\
  head (attempts 5 0 (state_machine E) w) =
    Some {| completed_before := 0; attempted := ManagerPhaseInit;
            result_of := phaseInit E (enter ManagerPhaseInit w) |} /\
  (forall k a b p act,
     attempts 5 0 (state_machine E) w !! k = Some a ->
     attempts 5 0 (state_machine E) w !! S k = Some b ->
     state_machine E !! S k = Some (p, act) ->
     out (result_of a) = Returns None /\
     attempted b = p /\
     result_of b =
       act (enter p (record_progress (Z.quot (100 * (Z.of_nat k + 1)) 5)
                       (post (result_of a))))) /\
  (forall a err,
     In a (attempts 5 0 (state_machine E) w) ->
     out (result_of a) = Returns (Some err) ->
     last (attempts 5 0 (state_machine E) w) = Some a /\
     last (loop_updates (events (Run E w))) = Some (SetError err) /\
     Error (status (sbm (post (Run E w)))) = true /\
     ErrorMessage (status (sbm (post (Run E w)))) = err) /\
  (exists j, (j <= 5)%nat /\
     ((j = 5%nat /\ loop_updates (events (Run E w)) = completed 5 0 all_phases) \/
      exists p, all_phases !! j = Some p /\
        ((out (Run E w) <> Returns None /\
          loop_updates (events (Run E w)) =
            (completed 5 0 (take j all_phases) ++ [SetPhase p])%list) \/
         exists err,
           loop_updates (events (Run E w)) =
             (completed 5 0 (take j all_phases) ++ [SetPhase p; SetError err])%list /\
           Error (status (sbm (post (Run E w)))) = true /\
           ErrorMessage (status (sbm (post (Run E w)))) = err))) /\
  (forall n i p act rest w0 err w1 t1,
     act (enter p w0) = Result (Returns (Some err)) w1 t1 ->
     run_phases n i ((p, act) :: rest) w0 =
       Result (Returns tt) (record_error err w1) (entering p ++ t1 ++ failing p err)).
Proof.
  destruct (Run_played E w) as [Hplayed Hrec].
  destruct (attempts_shape 5 (state_machine E) 0 w) as (Hmap & Hidx & Hnil).
  destruct (attempts_chain 5 (state_machine E) 0 w) as [Hhead Hstep].
  destruct (Run_phases_shape E w) as [Hold1 Hold2].
  split; [exact Hplayed|]. split; [exact Hrec|].
  split; [rewrite phases_entered_loop, Hrec; apply phases_of_recorded|].
  split; [exact Hmap|].
  split; [apply (Hhead _ _ _ eq_refl)|].
  split; [|split; [|split; [exact Hold1 | exact Hold2]]].
  - intros k a b p act Ha Hb Hm.
    split; [apply (Hnil k a Ha); apply lookup_lt_Some in Hb; exact Hb|].
    apply (Hstep k a b p act Ha Hb Hm).
  - intros a err Hin Herr.
    destruct (attempts_stop 5 (state_machine E) 0 w a Hin) as [l Hl]; [congruence|].
    assert (Hlast : last (loop_updates (events (Run E w))) = Some (SetError err)).
    { rewrite Hrec, Hl, flat_map_app. cbn [flat_map]. unfold recorded at 2. rewrite Herr.
      rewrite app_nil_r.
      change [SetPhase (attempted a); SetError err]
        with ([SetPhase (attempted a)] ++ [SetError err])%list.
      rewrite app_assoc. apply last_snoc. }
    split; [rewrite Hl; apply last_snoc|]. split; [exact Hlast|].
    destruct Hold1 as (j & Hj & [(-> & Hu)|(p & Hp & [[Ho Hu]|(err' & Hu & He & Hm)])]);
      rewrite Hu in Hlast.
    + discriminate Hlast.
    + rewrite last_snoc in Hlast. discriminate Hlast.
    + change [SetPhase p; SetError err'] with ([SetPhase p] ++ [SetError err'])%list in Hlast.
      rewrite app_assoc, last_snoc in Hlast. injection Hlast as <-. auto.
Qed.

(** The phases whose action returned nil are the first phases executed. *)
Lemma completed_phases_prefix l :
  (forall k a, l !! k = Some a -> (S k < length l)%nat -> out (result_of a) = Returns None) ->
  completed_phases l = take (length (completed_phases l)) (map attempted l) /\
  (length (completed_phases l) <= length l)%nat.
Proof.
  unfold completed_phases. induction l as [|a l IH]; intros Hnil; [split; reflexivity|].
  unfold omap in *. cbn [list_omap map].
  destruct l as [|b l].
  { cbn. destruct (out (result_of a)) as [[err|]|msg|]; cbn; split; auto. }
  rewrite (Hnil 0%nat a eq_refl) by (cbn; lia).
  destruct IH as [IH1 IH2].
  { intros k x Hk Hlen. apply (Hnil (S k) x Hk). cbn [length] in *. lia. }
  cbn [length take]. split; [f_equal; exact IH1 | cbn [length] in IH2; lia].
Qed.

(** C6. After each phase whose action returned nil, and after no other,
    [Run] sets the progress to [100 * k / 5], [k] being the number of phases
    completed so far: the loop records for every execution of the machine
    the phase and then, after a nil result, this progress. With [j] the
    number of phases whose action returned nil, which are the first [j]
    phases, the recorded values are those for [k] from 1 to [j], each
    between 0 and 100, in non-decreasing order, and the progress of the
    status is the last of them. *)
Theorem Run_progress (E : Env) (w : World) :
  exists j, (j <= 5)%nat /\
    phases_entered (events (Run E w)) = take (S j) all_phases /\
    progress_recorded (events (Run E w)) =
      map (fun k => Z.quot (100 * Z.of_nat k) 5) (seq 1 j) /\
    Forall (fun p => 0 <= p <= 100) (progress_recorded (events (Run E w))) /\
    StronglySorted Z.le (progress_recorded (events (Run E w))) /\
    Progress (status (sbm (post (Run E w)))) =
      default (Progress (status (sbm w))) (last (progress_recorded (events (Run E w)))) /\
    j = length (completed_phases (attempts 5 0 (state_machine E) w)) /\
    completed_phases (attempts 5 0 (state_machine E) w) = take j all_phases /\
    progress_recorded (events (Run E w)) =
      omap (fun a => match out (result_of a) with
                     | Returns None => Some (Z.quot (100 * (completed_before a + 1)) 5)
                     | _ => None
                     end) (attempts 5 0 (state_machine E) w) /\
    loop_updates (events (Run E w)) =
      flat_map (recorded 5) (attempts 5 0 (state_machine E) w).
Proof.
  destruct (Run_played E w) as [_ Hrec].
  destruct (Run_progress_shape E w) as (j & Hj & Hph & Hpr & Hrange & Hsorted & Hstatus).
  assert (Hpr' : progress_recorded (events (Run E w)) =
                 omap (fun a => match out (result_of a) with
                                | Returns None => Some (Z.quot (100 * (completed_before a + 1)) 5)
                                | _ => None
                                end) (attempts 5 0 (state_machine E) w)).
  { rewrite progress_recorded_loop, Hrec. apply progress_of_recorded. }
  assert (Hlen : j = length (completed_phases (attempts 5 0 (state_machine E) w))).
  { rewrite <- (length_completed_phases 5), <- Hpr', Hpr, length_map, length_seq. reflexivity. }
  exists j. repeat (split; [assumption|]). split; [|split; assumption].
  destruct (attempts_shape 5 (state_machine E) 0 w) as (Hmap & _ & Hnil).
  destruct (completed_phases_prefix _ Hnil) as [Hc Hle].
  rewrite Hc, <- Hlen, Hmap, take_take. f_equal. change (map fst (state_machine E)) with all_phases.
  lia.
Qed.

(** *** The Init phase *)

Lemma len0_eqb s : len0 s = String.eqb s "".
Proof. destruct s; reflexivity. Qed.

Lemma phaseInit_missing E w err :
  first_missing (required_inputs (sbm w)) = Some err ->
  phaseInit E w =
    Result (Returns (Some err))
           (upd_sbm (fun m => set_Namespaces (Split (NamespaceList m) ",") m) w) [].
Proof.
  unfold required_inputs, first_missing, phaseInit, check.
  unfold bind at 1. cbn [set_sbm]. unfold bind at 1 2. msimpl.
  destruct (Split (NamespaceList (sbm w)) ",") as [|n0 ns']; cbn [head default].
  - cbn. intros [= <-]. reflexivity.
  - rewrite len0_eqb. unfold id. destruct (String.eqb n0 ""); [intros [= <-]; reflexivity|].
    destruct (String.eqb (BundleName (sbm w)) ""); [intros [= <-]; reflexivity|].
    destruct (String.eqb (ManagerPodIP (sbm w)) ""); [intros [= <-]; reflexivity|].
    destruct (String.eqb (ImageName (sbm w)) ""); [intros [= <-]; reflexivity|].
    destruct (String.eqb (ImagePullPolicy (sbm w)) ""); [intros [= <-]; reflexivity|].
    discriminate.
Qed.

Lemma first_missing_some m :
  NamespaceList m = "" \/ BundleName m = "" \/ ManagerPodIP m = "" \/
  ImageName m = "" \/ ImagePullPolicy m = "" ->
  exists err, In err config_errors /\ first_missing (required_inputs m) = Some err.
Proof.
  intros H. unfold required_inputs, first_missing.
  destruct (String.eqb (default "" (head (Split (NamespaceList m) ","))) "") eqn:Hns.
  { eexists; split; [|reflexivity]. cbn; auto. }
  destruct (String.eqb (BundleName m) "") eqn:Hb.
  { eexists; split; [|reflexivity]. cbn; auto. }
  destruct (String.eqb (ManagerPodIP m) "") eqn:Hip.
  { eexists; split; [|reflexivity]. cbn; auto. }
  destruct (String.eqb (ImageName m) "") eqn:Him.
  { eexists; split; [|reflexivity]. cbn; auto. }
  destruct (String.eqb (ImagePullPolicy m) "") eqn:Hpp.
  { eexists; split; [|reflexivity]. cbn; auto 10. }
  exfalso.
  apply String.eqb_neq in Hb, Hip, Him, Hpp.
  destruct H as [H|[H|[H|[H|H]]]]; try congruence.
  rewrite H in Hns. discriminate.
Qed.

(** C9. When the namespace list, the bundle name, the manager pod IP, the
    image name or the image pull policy is empty, [phaseInit] returns the
    error of the first missing input without calling anything outside the
    manager and without replacing the input by a default; [Run] enters no
    phase but Init, makes no call, and records that error in the status. *)
Theorem phaseInit_rejects_missing_input (E : Env) (w : World) :
  NamespaceList (sbm w) = "" \/ BundleName (sbm w) = "" \/ ManagerPodIP (sbm w) = "" \/
  ImageName (sbm w) = "" \/ ImagePullPolicy (sbm w) = "" ->
  exists err, In err config_errors /\
    first_missing (required_inputs (sbm w)) = Some err /\
    out (phaseInit E w) = Returns (Some err) /\
    events (phaseInit E w) = [] /\
    OutputDir (sbm (post (phaseInit E w))) = OutputDir (sbm w) /\
    loop_updates (events (Run E w)) = [SetPhase ManagerPhaseInit; SetError err] /\
    calls_made (events (Run E w)) = [] /\
    Error (status (sbm (post (Run E w)))) = true /\
    ErrorMessage (status (sbm (post (Run E w)))) = err.
Proof.
  intros H. destruct (first_missing_some (sbm w) H) as (err & Hin & Hfirst).
  exists err. split; [exact Hin|]. split; [exact Hfirst|].
  rewrite (phaseInit_missing E w err Hfirst). msimpl.
  split; [reflexivity|]. split; [reflexivity|]. split; [reflexivity|].
  assert (Hloop : run_phases 5 0 (phases E) w =
            Result (Returns tt)
              (record_error err
                 (upd_sbm (fun m => set_Namespaces (Split (NamespaceList m) ",") m)
                    (enter ManagerPhaseInit w)))
              (entering ManagerPhaseInit ++ [] ++ failing ManagerPhaseInit err)).
  { unfold phases. rewrite run_phases_cons.
    rewrite (phaseInit_missing E (enter ManagerPhaseInit w) err); [reflexivity|].
    exact Hfirst. }
  rewrite Run_loop_updates, Run_post, Hloop.
  split; [reflexivity|]. split.
  - destruct (Run_events E w) as [->| ->]; rewrite Hloop; reflexivity.
  - unfold record_error. msimpl. auto.
Qed.

Lemma phaseInit_rejects_missing_input_witness :
  exists err, In err config_errors /\
    first_missing (required_inputs (example_manager "" ten_minutes)) = Some err /\
    out (phaseInit (example_env (inl ["node-a"]) None None None ["node-a"] true)
           (example_world "" ten_minutes)) = Returns (Some err) /\
    events (phaseInit (example_env (inl ["node-a"]) None None None ["node-a"] true)
              (example_world "" ten_minutes)) = [] /\
    OutputDir (sbm (post (phaseInit (example_env (inl ["node-a"]) None None None ["node-a"] true)
                            (example_world "" ten_minutes)))) = "/out" /\
    loop_updates (events (Run (example_env (inl ["node-a"]) None None None ["node-a"] true)
                            (example_world "" ten_minutes))) =
      [SetPhase ManagerPhaseInit; SetError err] /\
    calls_made (events (Run (example_env (inl ["node-a"]) None None None ["node-a"] true)
                          (example_world "" ten_minutes))) = [] /\
    Error (status (sbm (post (Run (example_env (inl ["node-a"]) None None None ["node-a"] true)
                                (example_world "" ten_minutes))))) = true /\
    ErrorMessage (status (sbm (post (Run (example_env (inl ["node-a"]) None None None
                                            ["node-a"] true)
                                       (example_world "" ten_minutes))))) = err.
Proof.
  apply (phaseInit_rejects_missing_input
           (example_env (inl ["node-a"]) None None None ["node-a"] true)
           (example_world "" ten_minutes)).
  right. left. reflexivity.
Defined.

(** *** The return of [Run] *)

(** When [Run] returns, it returns nil, the signal has been delivered and
    the receive from the context is the last thing that happened. *)
Lemma Run_returns_nil_after_signal E w v :
  out (Run E w) = Returns v ->
  v = None /\ signal_delivered E = true /\
  exists t, events (Run E w) = (t ++ [ContextDone])%list.
Proof.
  rewrite Run_unfold.
  destruct (run_phases 5 0 (phases E) w) as [[[]|msg|] w1 t1]; cbn [out events]; try discriminate.
  destruct (context (sbm w1)) as [[]|]; [|discriminate].
  destruct (signal_delivered E); [|discriminate].
  cbn [out events]. intros [= <-]. eauto.
Qed.

(** Without the signal [Run] does not return. *)
Lemma Run_waits_for_signal E w v :
  signal_delivered E = false -> out (Run E w) <> Returns v.
Proof.
  intros Hs Hr. apply Run_returns_nil_after_signal in Hr as (_ & Hd & _). congruence.
Qed.

(** A failed [check] leaves the context nil, and [Run] panics on it. *)
Lemma Run_panics_on_nil_context E w err :
  context (sbm w) = None ->
  first_missing (required_inputs (sbm w)) = Some err ->
  out (Run E w) = Panics "invalid memory address or nil pointer dereference" /\
  ErrorMessage (status (sbm (post (Run E w)))) = err.
Proof.
  intros Hc Hm. rewrite Run_unfold. unfold phases. rewrite run_phases_cons.
  rewrite (phaseInit_missing E (enter ManagerPhaseInit w) err) by exact Hm.
  unfold record_error, enter. msimpl. rewrite Hc. msimpl. auto.
Qed.

(** C10, where the code departs from it: with an empty bundle name [check]
    fails before [phaseInit] assigns the context, [Run] records the error and
    then calls [Done] on the nil context, so it panics where the claim has it
    wait for the cancellation and return nil. *)
Theorem Run_panics_when_check_fails :
  context (example_manager "" ten_minutes) = None /\
  out (Run (example_env (inl ["node-a"]) None None None ["node-a"] true)
           (example_world "" ten_minutes)) =
    Panics "invalid memory address or nil pointer dereference" /\
  ErrorMessage (status (sbm (post
    (Run (example_env (inl ["node-a"]) None None None ["node-a"] true)
         (example_world "" ten_minutes))))) = "support bundle name is not specified".
Proof. vm_compute. auto. Qed.


(** *** The wait for the node bundles *)

(** With no bundle arriving, [collectNodeBundles] fails before the wait or
    never comes back: it does not return nil. *)
Lemma collectNodeBundles_no_arrivals E w :
  arrivals E = [] ->
  out (collectNodeBundles E w) = Blocks \/
  exists err, out (collectNodeBundles E w) = Returns (Some err).
Proof.
  intros Ha. unfold collectNodeBundles, refreshNodes, ch_recv. rewrite Ha.
  unfold bind. msimpl.
  destruct (GetNodesListByLabels_returns E (NodeSelector (sbm w))) as [nodes|err]; msimpl;
    [|eauto].
  destruct (Nat.eqb (length nodes) 0); msimpl; [eauto|].
  destruct (AgentDaemonSet_Create_returns E _ _); msimpl; eauto.
Qed.

Lemma completeNode_retime timeout node w :
  completeNode node (retime timeout w) =
    Result (out (completeNode node w)) (retime timeout (post (completeNode node w)))
           (events (completeNode node w)).
Proof.
  unfold retime. destruct_world w.
  unfold completeNode, nodesLock_Lock, defer, nodesLock_Unlock, ch_send.
  unfold bind at 1 2 3 4. msimpl.
  destruct lk; msimpl; [reflexivity|].
  unfold bind. msimpl.
  destruct (nodes !! node); msimpl;
    (match goal with |- context [Nat.eqb ?n 0] => destruct (Nat.eqb n 0) end); msimpl;
    try reflexivity; destruct d; msimpl; try reflexivity;
    destruct c as [[[|]]|]; msimpl; reflexivity.
Qed.

Lemma serve_retime timeout names : forall w,
  serve names (retime timeout w) =
    Result (out (serve names w)) (retime timeout (post (serve names w)))
           (events (serve names w)).
Proof.
  induction names as [|node rest IH]; intros w; cbn [serve].
  - reflexivity.
  - rewrite completeNode_retime.
    destruct (completeNode node w) as [o w1 t1]; cbn [out post events].
    change (ch (sbm (retime timeout w1))) with (ch (sbm w1)).
    destruct (ch (sbm w1)) as [[[|]]|]; try reflexivity;
      rewrite IH; destruct (serve rest w1) as [o2 w2 t2]; reflexivity.
Qed.

Lemma serve_same_but_timeout names w1 w2 :
  retime 0 w1 = retime 0 w2 ->
  out (serve names w1) = out (serve names w2) /\
  events (serve names w1) = events (serve names w2).
Proof.
  intros H.
  pose proof (serve_retime 0 names w1) as H1.
  pose proof (serve_retime 0 names w2) as H2.
  rewrite H in H1. rewrite H1 in H2. injection H2 as Ho _ He. auto.
Qed.

(** The wait timeout is never read: in two worlds that differ in nothing
    else the collection of the node bundles has the same outcome and the
    same events. *)
Lemma collectNodeBundles_ignores_WaitTimeout E timeout w :
  out (collectNodeBundles E (retime timeout w)) = out (collectNodeBundles E w) /\
  events (collectNodeBundles E (retime timeout w)) = events (collectNodeBundles E w).
Proof.
  unfold retime. destruct_world w.
  unfold collectNodeBundles, refreshNodes, ch_recv. unfold bind. msimpl.
  destruct (GetNodesListByLabels_returns E sel) as [names|err]; msimpl; [|auto].
  destruct (Nat.eqb (length names) 0); msimpl; [auto|].
  destruct (AgentDaemonSet_Create_returns E _ _); msimpl; [auto|].
  match goal with
  | |- context [serve (arrivals E) ?w1] =>
      match goal with
      | |- context [serve (arrivals E) ?w2] =>
          tryif constr_eq w1 w2 then fail else
            destruct (serve_same_but_timeout (arrivals E) w1 w2 eq_refl) as [Ho He]
      end
  end.
  destruct (serve (arrivals E) _) as [o1 w1 t1].
  destruct (serve (arrivals E) _) as [o2 w2 t2].
  cbn [out events] in Ho, He. subst o2 t2.
  destruct o1; msimpl; auto.
  destruct (AgentDaemonSet_Cleanup_returns E); msimpl; auto.
Qed.

(** C1, where the code departs from it: the wait of [collectNodeBundles] is
    the bare receive from [m.ch]. Whatever the configured timeout, the
    outcome and the events are the same, and when one node is expected and
    no bundle ever arrives the collection, and [Run] with it, stays in the
    NodeBundle phase for ever. *)
Theorem collectNodeBundles_has_no_timeout (E : Env) (w : World) (timeout : Z) :
  out (collectNodeBundles E (retime timeout w)) = out (collectNodeBundles E w) /\
  events (collectNodeBundles E (retime timeout w)) = events (collectNodeBundles E w) /\
  WaitTimeout (sbm (example_world "bundle-1" timeout)) = timeout /\
  out (collectNodeBundles (example_env (inl ["node-a"]) None None None [] true)
         (example_world "bundle-1" timeout)) = Blocks /\
  out (Run (example_env (inl ["node-a"]) None None None [] true)
           (example_world "bundle-1" timeout)) = Blocks /\
  phases_entered (events (Run (example_env (inl ["node-a"]) None None None [] true)
                              (example_world "bundle-1" timeout))) =
    [ManagerPhaseInit; ManagerPhaseClusterBundle; ManagerPhaseNodeBundle].
Proof.
  destruct (collectNodeBundles_ignores_WaitTimeout E timeout w) as [Ho He].
  split; [exact Ho|]. split; [exact He|]. vm_compute. auto.
Qed.

(** *** Errors of the fan-out *)

Lemma collectNodeBundles_fan_out_fails E w err :
  fan_out_fails E (sbm w) err ->
  out (collectNodeBundles E w) = Returns (Some err) /\
  status (sbm (post (collectNodeBundles E w))) = status (sbm w) /\
  ~ In ChanRecv (events (collectNodeBundles E w)) /\
  (GetNodesListByLabels_returns E (NodeSelector (sbm w)) = inl [] ->
   calls_made (events (collectNodeBundles E w)) =
     [("k8s.GetNodesListByLabels", [NodeSelector (sbm w)])]).
Proof.
  unfold fan_out_fails, callback_url, collectNodeBundles, refreshNodes.
  intros [[Hn ->]|(nodes & Hn & Hne & Hc)]; unfold bind; msimpl; rewrite Hn; msimpl.
  - repeat split; auto. intros [H|[]]; discriminate.
  - destruct nodes as [|n0 nodes']; [congruence|]. cbn [length Nat.eqb]. msimpl.
    rewrite Hc. msimpl. repeat split; auto.
    + intros [H|[H|[H|[]]]]; discriminate.
    + discriminate.
Qed.

Lemma phaseCollectNodeBundles_after_error E w err :
  out (collectNodeBundles E w) = Returns (Some err) ->
  phaseCollectNodeBundles E w =
    Result (Returns None) (post (collectNodeBundles E w))
           (events (collectNodeBundles E w) ++ [Log ErrorLevel "%v" [Str err]]).
Proof.
  intros Ho. unfold phaseCollectNodeBundles. unfold bind at 1 2.
  destruct (collectNodeBundles E w) as [o w1 t1]. cbn [out post events] in *. subst o.
  msimpl. reflexivity.
Qed.

(** Whenever the NodeBundle phase returns, it returns nil. *)
Lemma phaseCollectNodeBundles_returns_nil E w v :
  out (phaseCollectNodeBundles E w) = Returns v -> v = None.
Proof.
  unfold phaseCollectNodeBundles. unfold bind at 1 2.
  destruct (collectNodeBundles E w) as [[[err|]|msg|] w1 t1]; msimpl; congruence.
Qed.

(** C2, as amended. When the selector matches no node or the agent
    daemonset cannot be created, [collectNodeBundles] returns the error
    without waiting, and makes no call but the listing of the nodes in the
    first case; [phaseCollectNodeBundles] logs the error and returns nil, the
    status is left as it was, and the loop of [Run] records the progress of
    the phase and goes on with the phases that follow. *)
Theorem phaseCollectNodeBundles_ignores_fan_out_error (E : Env) (w : World) (err : error)
    (rest : list (ManagerPhase * M (option error))) :
  fan_out_fails E (sbm w) err ->
  out (collectNodeBundles E w) = Returns (Some err) /\
  ~ In ChanRecv (events (collectNodeBundles E w)) /\
  (GetNodesListByLabels_returns E (NodeSelector (sbm w)) = inl [] ->
   calls_made (events (collectNodeBundles E w)) =
     [("k8s.GetNodesListByLabels", [NodeSelector (sbm w)])]) /\
  out (phaseCollectNodeBundles E w) = Returns None /\
  In (Log ErrorLevel "%v" [Str err]) (events (phaseCollectNodeBundles E w)) /\
  status (sbm (post (phaseCollectNodeBundles E w))) = status (sbm w) /\
  run_phases 5 2 ((ManagerPhaseNodeBundle, phaseCollectNodeBundles E) :: rest) w =
    match run_phases 5 3 rest
            (record_progress 60
               (post (phaseCollectNodeBundles E (enter ManagerPhaseNodeBundle w)))) with
    | Result o w2 t2 =>
        Result o w2
          (entering ManagerPhaseNodeBundle ++
           events (phaseCollectNodeBundles E (enter ManagerPhaseNodeBundle w)) ++
           succeeding ManagerPhaseNodeBundle 60 ++ t2)
    end.
Proof.
  intros H.
  destruct (collectNodeBundles_fan_out_fails E w err H) as (Ho & Hs & Hr & Hc).
  split; [exact Ho|]. split; [exact Hr|]. split; [exact Hc|].
  rewrite (phaseCollectNodeBundles_after_error E w err Ho). cbn [out post events].
  split; [reflexivity|]. split; [apply in_or_app; right; left; reflexivity|].
  split; [exact Hs|].
  destruct (collectNodeBundles_fan_out_fails E (enter ManagerPhaseNodeBundle w) err H)
    as (Ho' & _).
  rewrite run_phases_cons.
  rewrite (phaseCollectNodeBundles_after_error E _ err Ho'). reflexivity.
Qed.

Lemma phaseCollectNodeBundles_ignores_fan_out_error_witness :
  out (collectNodeBundles env_no_nodes (example_world "bundle-1" ten_minutes)) =
    Returns (Some "no nodes are found") /\
  ~ In ChanRecv (events (collectNodeBundles env_no_nodes (example_world "bundle-1" ten_minutes))) /\
  (GetNodesListByLabels_returns env_no_nodes
     (NodeSelector (sbm (example_world "bundle-1" ten_minutes))) = inl [] ->
   calls_made (events (collectNodeBundles env_no_nodes (example_world "bundle-1" ten_minutes))) =
     [("k8s.GetNodesListByLabels", [NodeSelector (sbm (example_world "bundle-1" ten_minutes))])]) /\
  out (phaseCollectNodeBundles env_no_nodes (example_world "bundle-1" ten_minutes)) =
    Returns None /\
  In (Log ErrorLevel "%v" [Str "no nodes are found"])
     (events (phaseCollectNodeBundles env_no_nodes (example_world "bundle-1" ten_minutes))) /\
  status (sbm (post (phaseCollectNodeBundles env_no_nodes
                       (example_world "bundle-1" ten_minutes)))) =
    status (sbm (example_world "bundle-1" ten_minutes)) /\
  run_phases 5 2 [(ManagerPhaseNodeBundle, phaseCollectNodeBundles env_no_nodes)]
    (example_world "bundle-1" ten_minutes) =
    match run_phases 5 3 []
            (record_progress 60
               (post (phaseCollectNodeBundles env_no_nodes
                        (enter ManagerPhaseNodeBundle (example_world "bundle-1" ten_minutes))))) with
    | Result o w2 t2 =>
        Result o w2
          (entering ManagerPhaseNodeBundle ++
           events (phaseCollectNodeBundles env_no_nodes
                     (enter ManagerPhaseNodeBundle (example_world "bundle-1" ten_minutes))) ++
           succeeding ManagerPhaseNodeBundle 60 ++ t2)
    end.
Proof.
  apply (phaseCollectNodeBundles_ignores_fan_out_error env_no_nodes
           (example_world "bundle-1" ten_minutes) "no nodes are found" []).
  left. split; reflexivity.
Defined.

(** C2, as the claim states it, fails: with no node matched, and with the
    daemonset refused, the run records no error and enters every phase up to
    Done. *)
Lemma fan_out_error_does_not_fail_the_run :
  GetNodesListByLabels_returns env_no_nodes "" = inl [] /\
  out (collectNodeBundles env_no_nodes (example_world "bundle-1" ten_minutes)) =
    Returns (Some "no nodes are found") /\
  Error (status (sbm (post (Run env_no_nodes (example_world "bundle-1" ten_minutes))))) = false /\
  errors_recorded (events (Run env_no_nodes (example_world "bundle-1" ten_minutes))) = [] /\
  phases_entered (events (Run env_no_nodes (example_world "bundle-1" ten_minutes))) = all_phases /\
  AgentDaemonSet_Create_returns env_create_fails "support-bundle-kit:dev" "http://10.0.0.7:8080" =
    Some "daemonsets.apps is forbidden" /\
  out (collectNodeBundles env_create_fails (example_world "bundle-1" ten_minutes)) =
    Returns (Some "daemonsets.apps is forbidden") /\
  Error (status (sbm (post (Run env_create_fails (example_world "bundle-1" ten_minutes))))) = false /\
  errors_recorded (events (Run env_create_fails (example_world "bundle-1" ten_minutes))) = [] /\
  phases_entered (events (Run env_create_fails (example_world "bundle-1" ten_minutes))) = all_phases.
Proof. vm_compute. repeat split; reflexivity. Qed.

(** *** The packager *)

Lemma compressBundle_cases E w :
  compressBundle E w =
    match Rename_returns E (getWorkingDir E (sbm w))
            (filepath_Join E (OutputDir (sbm w)) (bundleDir_of E (sbm w))) with
    | Some err =>
        Result (Returns (Some (errors_Wrap err "fail to compress bundle"))) w
               [rename_call E (sbm w)]
    | None =>
        match zip_command_returns E (OutputDir (sbm w))
                ["-r"; getBundlefile E (sbm w); bundleDir_of E (sbm w)] with
        | Some err =>
            Result (Returns (Some (errors_Wrap err "fail to compress bundle"))) w
                   [rename_call E (sbm w); zip_call E (sbm w)]
        | None =>
            match Stat_Size_returns E (getBundlefile E (sbm w)) with
            | inr err =>
                Result (Returns (Some (errors_Wrap err "fail to get bundle file size"))) w
                       [rename_call E (sbm w); zip_call E (sbm w); stat_call E (sbm w)]
            | inl size =>
                Result (Returns None)
                  (upd_sbm (fun m => set_status
                              (status_SetFileinfo (bundleFileName m) size (status m)) m) w)
                  [rename_call E (sbm w); zip_call E (sbm w); stat_call E (sbm w);
                   Status (SetFileinfo (bundleFileName (sbm w)) size)]
            end
        end
    end.
Proof.
  unfold compressBundle, getBundlefilesize, rename_call, zip_call, stat_call, bundleDir_of.
  unfold bind. msimpl.
  destruct (Rename_returns E _ _); msimpl; [destruct w; reflexivity|].
  destruct (zip_command_returns E _ _); msimpl; [destruct w; reflexivity|].
  destruct (Stat_Size_returns E _); msimpl; destruct w; reflexivity.
Qed.

Lemma GenerateClusterBundle_name E dir w name :
  out (GenerateClusterBundle E dir w) = Returns (name, None) ->
  exists uid,
    GetNamespace_returns E (PodNamespace (sbm w)) = inl uid /\
    name = bundle_file_name uid (Now_returns E).
Proof.
  unfold GenerateClusterBundle, bundle_file_name. unfold bind. msimpl.
  destruct (GetNamespace_returns E _) as [uid|err]; msimpl; [|discriminate].
  destruct (GetKubernetesVersion_returns E); msimpl; [|discriminate].
  destruct (GetSupportBundle_returns E _ _); msimpl; [discriminate|].
  destruct (Create_returns E _); msimpl; [discriminate|].
  intros [= <-]. eauto.
Qed.




Example compressBundle_example :
  events (compressBundle env_all_report packaging_world) =
    [Call "os.Rename" ["/out/bundle"; "/out/supportbundle_0a1b2c_2021-03-04T05-06-07Z"];
     Call "zip" ["/out"; "-r"; "/out/supportbundle_0a1b2c_2021-03-04T05-06-07Z.zip";
                 "supportbundle_0a1b2c_2021-03-04T05-06-07Z"];
     Call "os.Stat" ["/out/supportbundle_0a1b2c_2021-03-04T05-06-07Z.zip"];
     Status (SetFileinfo "supportbundle_0a1b2c_2021-03-04T05-06-07Z.zip" 4096)].
Proof. vm_compute. reflexivity. Qed.

(** *** The ingestion endpoint *)

Lemma verifyNodeBundle_stored E file content w :
  verifyNodeBundle E file (write_file file content w) =
    Result (Returns (zip_NewReader E content)) (write_file file content w)
           [Call "zip.OpenReader" [file]].
Proof.
  unfold verifyNodeBundle, zip_OpenReader. unfold bind. msimpl.
  rewrite lookup_insert_eq. reflexivity.
Qed.

Lemma zip_OpenReader_stored E file content w :
  zip_OpenReader E file (write_file file content w) =
    Result (Returns (zip_NewReader E content)) (write_file file content w)
           [Call "zip.OpenReader" [file]].
Proof.
  unfold zip_OpenReader. unfold bind. msimpl.
  rewrite lookup_insert_eq. reflexivity.
Qed.

Lemma createNodeBundle_cases E node body w :
  Copy_returns E (nodeBundleFile E (sbm w) node) = None ->
  createNodeBundle E node body w =
    match zip_NewReader E body with
    | Some err =>
        Result (Returns (Rejected err))
          (write_file (nodeBundleFile E (sbm w) node) body w)
          (upload_calls (nodeBundleFile E (sbm w) node) ++
           [Log ErrorLevel "fail to verify file %s: %s"
              [Str (nodeBundleFile E (sbm w) node); Str err]])
    | None =>
        match completeNode node (write_file (nodeBundleFile E (sbm w) node) body w) with
        | Result (Returns _) w1 t1 =>
            Result (Returns Accepted) w1 (upload_calls (nodeBundleFile E (sbm w) node) ++ t1)
        | Result (Panics msg) w1 t1 =>
            Result (Panics msg) w1 (upload_calls (nodeBundleFile E (sbm w) node) ++ t1)
        | Result Blocks w1 t1 =>
            Result Blocks w1 (upload_calls (nodeBundleFile E (sbm w) node) ++ t1)
        end
    end.
Proof.
  intros Hc. unfold createNodeBundle. unfold bind at 1 2. msimpl. rewrite Hc.
  unfold bind at 1. cbn [post out events app].
  unfold bind at 1.
  change {| sbm := sbm w; files := <[nodeBundleFile E (sbm w) node := body]> (files w) |}
    with (write_file (nodeBundleFile E (sbm w) node) body w).
  rewrite verifyNodeBundle_stored.
  destruct (zip_NewReader E body) as [err|].
  - unfold bind. msimpl. reflexivity.
  - unfold bind at 1.
    destruct (completeNode node _) as [[[]|msg|] w1 t1]; msimpl; rewrite ?app_nil_r; reflexivity.
Qed.

(** C7. Once the upload is stored, [verifyNodeBundle] accepts the file
    exactly when [zip.OpenReader] opens it, and the empty stream is not
    opened. A valid upload is answered with success once [completeNode] has
    returned. An invalid upload is answered with an error, after the copy,
    the validation and the log line and nothing else, and leaves the manager
    as it was; when the node was expected, a valid upload that follows
    removes it from the expected set. *)
Theorem createNodeBundle_rejects_invalid_upload (E : Env) (w : World) (node : string)
    (body later : list Byte.byte) :
  Copy_returns E (nodeBundleFile E (sbm w) node) = None ->
  (out (verifyNodeBundle E (nodeBundleFile E (sbm w) node)
          (write_file (nodeBundleFile E (sbm w) node) body w)) = Returns None <->
   out (zip_OpenReader E (nodeBundleFile E (sbm w) node)
          (write_file (nodeBundleFile E (sbm w) node) body w)) = Returns None) /\
  zip_NewReader E [] <> None /\
  (zip_NewReader E body = None ->
   exists o, out (completeNode node (write_file (nodeBundleFile E (sbm w) node) body w)) = o /\
     out (createNodeBundle E node body w) =
       match o with Returns _ => Returns Accepted | Panics msg => Panics msg | Blocks => Blocks end) /\
  (zip_NewReader E body <> None ->
   exists msg,
     out (createNodeBundle E node body w) = Returns (Rejected msg) /\
     events (createNodeBundle E node body w) =
       (upload_calls (nodeBundleFile E (sbm w) node) ++
        [Log ErrorLevel "fail to verify file %s: %s"
           [Str (nodeBundleFile E (sbm w) node); Str msg]])%list /\
     sbm (post (createNodeBundle E node body w)) = sbm w /\
     (is_Some (expectedNodes (sbm w) !! node) ->
      nodesLock (sbm w) = false ->
      zip_NewReader E later = None ->
      expectedNodes (sbm (post (createNodeBundle E node later
                                  (post (createNodeBundle E node body w))))) =
        delete node (expectedNodes (sbm w)) /\
      removals (events (createNodeBundle E node later
                          (post (createNodeBundle E node body w)))) = [node])).
Proof.
  intros Hc.
  split; [rewrite verifyNodeBundle_stored, zip_OpenReader_stored; reflexivity|].
  split; [discriminate|].
  split.
  - intros Hv. rewrite (createNodeBundle_cases E node body w Hc), Hv.
    eexists; split; [reflexivity|].
    destruct (completeNode node _) as [[[]|msg|] w1 t1]; reflexivity.
  - intros Hv. rewrite (createNodeBundle_cases E node body w Hc).
    destruct (zip_NewReader E body) as [msg|]; [|congruence].
    exists msg. cbn [out post events]. split; [reflexivity|]. split; [reflexivity|].
    split; [reflexivity|].
    intros Hn Hl Hlater.
    set (w1 := write_file (nodeBundleFile E (sbm w) node) body w).
    assert (Hc1 : Copy_returns E (nodeBundleFile E (sbm w1) node) = None) by exact Hc.
    rewrite (createNodeBundle_cases E node later w1 Hc1), Hlater.
    set (w2 := write_file (nodeBundleFile E (sbm w1) node) later w1).
    destruct (completeNode_nodes node w2) as [(_ & _ & Hd & Hr)|([Hk|Hnone] & _)].
    + destruct (completeNode node w2) as [[[]|msg'|] w3 t3]; cbn [out post events] in *;
        (split; [exact Hd | unfold removals in *; rewrite omap_app; exact Hr]).
    + unfold w2, w1 in Hk. msimpl in Hk. congruence.
    + unfold w2, w1 in Hnone. msimpl in Hnone. rewrite Hnone in Hn. destruct Hn; discriminate.
Qed.

Lemma createNodeBundle_rejects_invalid_upload_witness :
  (out (verifyNodeBundle env_all_report
          (nodeBundleFile env_all_report (sbm (tracking ["node-a"])) "node-a")
          (write_file (nodeBundleFile env_all_report (sbm (tracking ["node-a"])) "node-a") []
             (tracking ["node-a"]))) = Returns None <->
   out (zip_OpenReader env_all_report
          (nodeBundleFile env_all_report (sbm (tracking ["node-a"])) "node-a")
          (write_file (nodeBundleFile env_all_report (sbm (tracking ["node-a"])) "node-a") []
             (tracking ["node-a"]))) = Returns None) /\
  zip_NewReader env_all_report [] <> None /\
  (zip_NewReader env_all_report [] = None ->
   exists o,
     out (completeNode "node-a"
            (write_file (nodeBundleFile env_all_report (sbm (tracking ["node-a"])) "node-a") []
               (tracking ["node-a"]))) = o /\
     out (createNodeBundle env_all_report "node-a" [] (tracking ["node-a"])) =
       match o with Returns _ => Returns Accepted | Panics msg => Panics msg | Blocks => Blocks end) /\
  (zip_NewReader env_all_report [] <> None ->
   exists msg,
     out (createNodeBundle env_all_report "node-a" [] (tracking ["node-a"])) =
       Returns (Rejected msg) /\
     events (createNodeBundle env_all_report "node-a" [] (tracking ["node-a"])) =
       (upload_calls (nodeBundleFile env_all_report (sbm (tracking ["node-a"])) "node-a") ++
        [Log ErrorLevel "fail to verify file %s: %s"
           [Str (nodeBundleFile env_all_report (sbm (tracking ["node-a"])) "node-a");
            Str msg]])%list /\
     sbm (post (createNodeBundle env_all_report "node-a" [] (tracking ["node-a"]))) =
       sbm (tracking ["node-a"]) /\
     (is_Some (expectedNodes (sbm (tracking ["node-a"])) !! "node-a") ->
      nodesLock (sbm (tracking ["node-a"])) = false ->
      zip_NewReader env_all_report empty_zip = None ->
      expectedNodes (sbm (post (createNodeBundle env_all_report "node-a" empty_zip
                                  (post (createNodeBundle env_all_report "node-a" []
                                           (tracking ["node-a"])))))) =
        delete "node-a" (expectedNodes (sbm (tracking ["node-a"]))) /\
      removals (events (createNodeBundle env_all_report "node-a" empty_zip
                          (post (createNodeBundle env_all_report "node-a" []
                                   (tracking ["node-a"]))))) = ["node-a"])).
Proof.
  apply (createNodeBundle_rejects_invalid_upload env_all_report (tracking ["node-a"])
           "node-a" [] empty_zip).
  reflexivity.
Defined.

(** The scenario of the spec: an empty upload is refused and leaves the node
    expected; the valid upload that follows is accepted, empties the set and
    raises the signal. *)
Example empty_upload_then_valid_upload :
  out (createNodeBundle env_all_report "node-a" [] (tracking ["node-a"])) =
    Returns (Rejected "zip: not a valid zip file") /\
  expectedNodes (sbm (post (createNodeBundle env_all_report "node-a" []
                              (tracking ["node-a"])))) !! "node-a" = Some "" /\
  out (createNodeBundle env_all_report "node-a" empty_zip
         (post (createNodeBundle env_all_report "node-a" [] (tracking ["node-a"])))) =
    Returns Accepted /\
  expectedNodes (sbm (post (createNodeBundle env_all_report "node-a" empty_zip
         (post (createNodeBundle env_all_report "node-a" [] (tracking ["node-a"])))))) = ∅ /\
  sends (events (createNodeBundle env_all_report "node-a" empty_zip
         (post (createNodeBundle env_all_report "node-a" [] (tracking ["node-a"]))))) = 1%nat.
Proof. vm_compute. repeat split; reflexivity. Qed.

(** *** The collection of the node bundles *)

(** The set that [refreshNodes] builds from the listed names. *)
Lemma expected_of_lookup (nodes : list string) : forall (acc : gmap string string) n,
  foldl (fun acc name => <[name := ""]> acc) acc nodes !! n =
    if bool_decide (n ∈ nodes) then Some "" else acc !! n.
Proof.
  induction nodes as [|x nodes IH]; intros acc n; cbn [foldl].
  - rewrite bool_decide_eq_false_2 by apply not_elem_of_nil. reflexivity.
  - rewrite IH. destruct (decide (n ∈ nodes)) as [Hin|Hout].
    + rewrite !bool_decide_eq_true_2; [reflexivity | right; exact Hin | exact Hin].
    + rewrite (bool_decide_eq_false_2 (n ∈ nodes)) by exact Hout.
      destruct (decide (n = x)) as [->|Hne].
      * rewrite lookup_insert_eq, bool_decide_eq_true_2 by left. reflexivity.
      * rewrite lookup_insert_ne by congruence.
        rewrite bool_decide_eq_false_2; [reflexivity|].
        intros [->|?]%elem_of_cons; contradiction.
Qed.

(** X3. [refreshNodes] asks the cluster once for the nodes that match the
    selector. When the listing fails, or lists no node, it returns the error
    and leaves the manager as it is. Otherwise it returns nil and replaces
    the expected set: a name is expected, with the empty value, exactly when
    it is listed, whatever was expected before; no other field changes. *)
Theorem refreshNodes_expected (E : Env) (w : World) :
  match GetNodesListByLabels_returns E (NodeSelector (sbm w)) with
  | inr err =>
      out (refreshNodes E w) = Returns (Some err) /\ post (refreshNodes E w) = w
  | inl [] =>
      out (refreshNodes E w) = Returns (Some "no nodes are found") /\
      post (refreshNodes E w) = w
  | inl nodes =>
      out (refreshNodes E w) = Returns None /\
      (forall n, expectedNodes (sbm (post (refreshNodes E w))) !! n =
                 if bool_decide (n ∈ nodes) then Some "" else None) /\
      post (refreshNodes E w) =
        upd_sbm (set_expectedNodes (expectedNodes (sbm (post (refreshNodes E w))))) w
  end /\
  calls_made (events (refreshNodes E w)) =
    [("k8s.GetNodesListByLabels", [NodeSelector (sbm w)])].
Proof.
  unfold refreshNodes. unfold bind. msimpl.
  destruct (GetNodesListByLabels_returns E (NodeSelector (sbm w))) as [[|x names]|err];
    msimpl; (split; [|reflexivity]); try (split; reflexivity).
  split; [reflexivity|]. split; [|reflexivity].
  intros n. destruct_world w. cbn.
  pose proof (expected_of_lookup (x :: names) ∅ n) as H. rewrite lookup_empty in H. exact H.
Qed.

(** *** The wait of the control goroutine *)

Lemma without_lookup node m n :
  without node m !! n = if bool_decide (n = node) then None else expectedNodes m !! n.
Proof.
  unfold without. case_bool_decide as H.
  - subst. destruct (expectedNodes m !! node) eqn:He; [apply lookup_delete_eq | exact He].
  - destruct (expectedNodes m !! node); [apply lookup_delete_ne; congruence | reflexivity].
Qed.

Lemma serve_cons node rest w :
  serve (node :: rest) w =
    match completeNode node w with
    | Result _ w1 t1 =>
        match ch (sbm w1) with
        | Some (Chan false) => Result (Returns tt) w1 (t1 ++ [ChanRecv])
        | _ => match serve rest w1 with Result o w2 t2 => Result o w2 (t1 ++ t2) end
        end
    end.
Proof. reflexivity. Qed.

(** While the mutex is held no call gets past [Lock]. *)
Lemma serve_locked names : forall w,
  nodesLock (sbm w) = true -> ch (sbm w) <> Some (Chan false) ->
  serve names w = Result Blocks w [].
Proof.
  induction names as [|node rest IH]; intros w Hl Hc; [reflexivity|].
  rewrite serve_cons, completeNode_locked by exact Hl.
  rewrite IH by assumption.
  destruct (ch (sbm w)) as [[[|]]|]; try reflexivity. congruence.
Qed.

(** A call that does not complete the set keeps the goroutines going. *)
Lemma serve_quiet node rest w :
  nodesLock (sbm w) = false -> ch (sbm w) = Some (Chan true) ->
  size (without node (sbm w)) <> 0%nat \/ done (sbm w) = true ->
  serve (node :: rest) w =
    match serve rest (upd_sbm (fun m => set_nodesLock false
                                 (set_expectedNodes (without node m) m)) w) with
    | Result o w2 t2 => Result o w2 (node_log node (sbm w) :: t2)
    end.
Proof.
  intros Hl Hc Hq. rewrite serve_cons, completeNode_quiet by assumption.
  destruct_world w. subst. reflexivity.
Qed.

(** The call that completes the set releases the control goroutine. *)
Lemma serve_last node rest w :
  nodesLock (sbm w) = false -> ch (sbm w) = Some (Chan true) ->
  size (without node (sbm w)) = 0%nat -> done (sbm w) = false ->
  serve (node :: rest) w =
    Result (Returns tt)
      (upd_sbm (fun m => set_nodesLock false (set_done true
                 (set_ch (Some (Chan false)) (set_expectedNodes (without node m) m)))) w)
      [node_log node (sbm w); Log DebugLevel "all nodes are completed." []; ChanSend; ChanRecv].
Proof.
  intros Hl Hc Hs Hd. rewrite serve_cons, completeNode_last by assumption. rewrite Hc.
  destruct_world w. reflexivity.
Qed.

(** The fields of the manager after a call that does not complete the set. *)
Lemma quiet_fields node w :
  let w1 := upd_sbm (fun m => set_nodesLock false (set_expectedNodes (without node m) m)) w in
  ch (sbm w1) = ch (sbm w) /\ done (sbm w1) = done (sbm w) /\
  expectedNodes (sbm w1) = without node (sbm w) /\ nodesLock (sbm w1) = false /\
  NodeSelector (sbm w1) = NodeSelector (sbm w).
Proof. destruct w as [[] ?]. repeat split; reflexivity. Qed.

Lemma last_fields node w :
  let w1 := upd_sbm (fun m => set_nodesLock false (set_done true
              (set_ch (Some (Chan false)) (set_expectedNodes (without node m) m)))) w in
  ch (sbm w1) = Some (Chan false) /\ done (sbm w1) = true /\
  expectedNodes (sbm w1) = without node (sbm w) /\ nodesLock (sbm w1) = false.
Proof. destruct w as [[] ?]. repeat split; reflexivity. Qed.

(** What the wait has seen when it ends. *)
Lemma serve_sound names : forall w,
  ch (sbm w) = Some (Chan true) ->
  out (serve names w) = Returns tt ->
  nodesLock (sbm w) = false /\ done (sbm w) = false /\
  (forall n, is_Some (expectedNodes (sbm w) !! n) -> In n names) /\
  expectedNodes (sbm (post (serve names w))) = ∅ /\
  done (sbm (post (serve names w))) = true /\
  nodesLock (sbm (post (serve names w))) = false /\
  sends (events (serve names w)) = 1%nat /\
  exists t, events (serve names w) = (t ++ [ChanSend; ChanRecv])%list.
Proof.
  induction names as [|node rest IH]; intros w Hc Hr; [discriminate|].
  destruct (nodesLock (sbm w)) eqn:Hl.
  { rewrite serve_locked in Hr by (congruence || assumption). discriminate. }
  assert (Hcases : (size (without node (sbm w)) = 0%nat /\ done (sbm w) = false) \/
                   (size (without node (sbm w)) <> 0%nat \/ done (sbm w) = true)).
  { destruct (decide (size (without node (sbm w)) = 0%nat)); destruct (done (sbm w)); auto. }
  destruct Hcases as [[Hs Hd]|Hq].
  - rewrite serve_last by assumption. cbn [out post events].
    destruct (last_fields node w) as (_ & Hd1 & He1 & Hl1).
    apply map_size_empty_iff in Hs.
    split; [reflexivity|]. split; [exact Hd|]. split.
    { intros n Hn. destruct (decide (n = node)) as [->|Hne]; [left; reflexivity|].
      pose proof (without_lookup node (sbm w) n) as Hw.
      rewrite Hs, lookup_empty, bool_decide_eq_false_2 in Hw by exact Hne.
      rewrite <- Hw in Hn. destruct Hn; discriminate. }
    split; [rewrite He1; exact Hs|]. split; [exact Hd1|]. split; [exact Hl1|]. split.
    + change [node_log node (sbm w); Log DebugLevel "all nodes are completed." []; ChanSend; ChanRecv]
        with ([node_log node (sbm w)] ++
              [Log DebugLevel "all nodes are completed." []; ChanSend; ChanRecv])%list.
      rewrite sends_app, sends_node_log. reflexivity.
    + eexists [_; _]. reflexivity.
  - rewrite serve_quiet in Hr |- * by assumption.
    destruct (quiet_fields node w) as (Hc1 & Hd1 & He1 & Hl1 & _).
    set (w1 := upd_sbm _ w) in *.
    specialize (IH w1). destruct (serve rest w1) as [o w2 t2]. cbn [out post events] in *.
    destruct IH as (_ & Hd0 & Hin & He & Hd2 & Hl2 & Hsn & t & Ht);
      [rewrite Hc1; exact Hc | exact Hr |].
    split; [reflexivity|]. split; [rewrite <- Hd1; exact Hd0|]. split.
    { intros n Hn. destruct (decide (n = node)) as [->|Hne]; [left; reflexivity|]. right.
      apply Hin. rewrite He1, without_lookup, bool_decide_eq_false_2 by exact Hne. exact Hn. }
    split; [exact He|]. split; [exact Hd2|]. split; [exact Hl2|]. split.
    + change (node_log node (sbm w) :: t2) with ([node_log node (sbm w)] ++ t2)%list.
      rewrite sends_app, sends_node_log. exact Hsn.
    + exists (node_log node (sbm w) :: t). rewrite Ht. reflexivity.
Qed.

(** The wait ends or stays parked; it does not panic, and while it is parked
    nothing was received. *)
Lemma serve_parked names : forall w,
  ch (sbm w) = Some (Chan true) ->
  out (serve names w) <> Returns tt ->
  out (serve names w) = Blocks /\ sends (events (serve names w)) = 0%nat /\
  ~ In ChanRecv (events (serve names w)).
Proof.
  induction names as [|node rest IH]; intros w Hc Hr.
  { cbn. repeat split; auto. }
  destruct (nodesLock (sbm w)) eqn:Hl.
  { rewrite serve_locked in * by (congruence || assumption). cbn. repeat split; auto. }
  assert (Hcases : (size (without node (sbm w)) = 0%nat /\ done (sbm w) = false) \/
                   (size (without node (sbm w)) <> 0%nat \/ done (sbm w) = true)).
  { destruct (decide (size (without node (sbm w)) = 0%nat)); destruct (done (sbm w)); auto. }
  destruct Hcases as [[Hs Hd]|Hq].
  - rewrite serve_last in Hr by assumption. contradiction Hr. reflexivity.
  - rewrite serve_quiet in Hr |- * by assumption.
    destruct (quiet_fields node w) as (Hc1 & _).
    set (w1 := upd_sbm _ w) in *.
    specialize (IH w1). destruct (serve rest w1) as [o w2 t2]. cbn [out post events] in *.
    destruct IH as (Ho & Hsn & Hnr); [rewrite Hc1; exact Hc | exact Hr |].
    split; [exact Ho|]. split.
    + change (node_log node (sbm w) :: t2) with ([node_log node (sbm w)] ++ t2)%list.
      rewrite sends_app, sends_node_log. exact Hsn.
    + intros [Hx|Hx]; [|exact (Hnr Hx)]. unfold node_log in Hx.
      destruct (expectedNodes (sbm w) !! node); discriminate.
Qed.

(** Every expected node reports: the wait ends. *)
Lemma serve_complete names : forall w,
  ch (sbm w) = Some (Chan true) -> nodesLock (sbm w) = false -> done (sbm w) = false ->
  expectedNodes (sbm w) <> ∅ ->
  (forall n, is_Some (expectedNodes (sbm w) !! n) -> In n names) ->
  out (serve names w) = Returns tt.
Proof.
  induction names as [|node rest IH]; intros w Hc Hl Hd Hne Hin.
  { exfalso. apply Hne. apply map_eq. intros n. rewrite lookup_empty.
    destruct (expectedNodes (sbm w) !! n) eqn:He; [|reflexivity].
    exfalso. apply (Hin n). rewrite He. eauto. }
  destruct (decide (size (without node (sbm w)) = 0%nat)) as [Hs|Hs].
  - rewrite serve_last by assumption. reflexivity.
  - rewrite serve_quiet by auto.
    destruct (quiet_fields node w) as (Hc1 & Hd1 & He1 & Hl1 & _).
    set (w1 := upd_sbm _ w) in *.
    specialize (IH w1). destruct (serve rest w1) as [o w2 t2]. cbn [out post events] in *.
    apply IH.
    + rewrite Hc1; exact Hc.
    + exact Hl1.
    + rewrite Hd1; exact Hd.
    + rewrite He1. intros He. apply Hs. rewrite He. apply map_size_empty.
    + intros n Hn. rewrite He1, without_lookup in Hn. case_bool_decide as Hx.
      * destruct Hn; discriminate.
      * destruct (Hin n Hn) as [<-|Hr]; [congruence | exact Hr].
Qed.

Lemma collectNodeBundles_waits E w names :
  GetNodesListByLabels_returns E (NodeSelector (sbm w)) = inl names -> names <> [] ->
  AgentDaemonSet_Create_returns E (ImageName (sbm w)) (callback_url (sbm w)) = None ->
  collectNodeBundles E w =
    match serve (arrivals E) (waiting names w) with
    | Result (Returns _) w2 t2 =>
        Result (Returns (cleanup_error E)) w2 (fan_out (sbm w) names ++ t2 ++ after_wait)
    | Result (Panics msg) w2 t2 => Result (Panics msg) w2 (fan_out (sbm w) names ++ t2)
    | Result Blocks w2 t2 => Result Blocks w2 (fan_out (sbm w) names ++ t2)
    end.
Proof.
  unfold callback_url, waiting, fan_out, cleanup_error, after_wait, expected_of.
  intros Hn Hne Hc. destruct_world w.
  unfold collectNodeBundles, refreshNodes, ch_recv. unfold bind. msimpl.
  rewrite Hn. destruct names as [|n0 names']; [congruence|]. cbn [length Nat.eqb]. msimpl.
  rewrite Hc. msimpl.
  destruct (serve (arrivals E) _) as [[[]|msg|] w2 t2]; msimpl; try reflexivity.
  destruct (AgentDaemonSet_Cleanup_returns E); msimpl; rewrite <- ?app_assoc; reflexivity.
Qed.

Lemma fan_out_error_none E m :
  fan_out_error E m = None ->
  exists names,
    GetNodesListByLabels_returns E (NodeSelector m) = inl names /\ names <> [] /\
    AgentDaemonSet_Create_returns E (ImageName m) (callback_url m) = None.
Proof.
  unfold fan_out_error.
  destruct (GetNodesListByLabels_returns E (NodeSelector m)) as [[|n0 names]|err];
    try discriminate.
  intros H. exists (n0 :: names). repeat split; [discriminate | exact H].
Qed.

Lemma collectNodeBundles_no_wait E w err :
  fan_out_error E (sbm w) = Some err ->
  out (collectNodeBundles E w) = Returns (Some err) /\
  ~ In ChanRecv (events (collectNodeBundles E w)) /\
  ~ In (Call "AgentDaemonSet.Cleanup" []) (events (collectNodeBundles E w)) /\
  sends (events (collectNodeBundles E w)) = 0%nat.
Proof.
  unfold fan_out_error, callback_url, collectNodeBundles, refreshNodes.
  unfold bind. msimpl.
  destruct (GetNodesListByLabels_returns E (NodeSelector (sbm w))) as [[|n0 names]|e];
    msimpl.
  - intros [= <-]. repeat split; try reflexivity; intros [H|[]]; discriminate.
  - cbn [length Nat.eqb]. msimpl. intros Hc. rewrite Hc. msimpl.
    repeat split; try reflexivity; intros [H|[H|[H|[]]]]; discriminate.
  - intros [= <-]. repeat split; try reflexivity; intros [H|[]]; discriminate.
Qed.

Lemma waiting_fields names w :
  ch (sbm (waiting names w)) = Some (Chan true) /\
  expectedNodes (sbm (waiting names w)) = expected_of names /\
  nodesLock (sbm (waiting names w)) = nodesLock (sbm w) /\
  done (sbm (waiting names w)) = done (sbm w).
Proof. destruct w as [[] ?]. repeat split; reflexivity. Qed.

Lemma expected_of_is_Some names n : is_Some (expected_of names !! n) <-> In n names.
Proof.
  unfold expected_of. rewrite expected_of_lookup, lookup_empty, <- list_elem_of_In.
  case_bool_decide; split; intros H'; try assumption; try (eexists; reflexivity).
  - destruct H'; discriminate.
  - contradiction.
Qed.

Lemma expected_of_nonempty names : names <> [] -> expected_of names <> ∅.
Proof.
  destruct names as [|n0 names]; [congruence|]. intros _ He.
  assert (H : is_Some (expected_of (n0 :: names) !! n0)) by (apply expected_of_is_Some; left; reflexivity).
  rewrite He, lookup_empty in H. destruct H; discriminate.
Qed.

Lemma sends_fan_out m names t : sends (fan_out m names ++ t) = sends t.
Proof. reflexivity. Qed.

Lemma sends_after_wait t : sends (t ++ after_wait) = sends t.
Proof. rewrite sends_app. cbn. lia. Qed.

(** X4. [collectNodeBundles] returns nil only when every node of the
    listing has reported: the listing was not empty, each listed node is
    among the nodes whose completion arrived, the mutex was free and [done]
    was not set when the collection started; afterwards the expected set is
    empty, [done] is set, the mutex is released, and one send on [m.ch] has
    completed. *)
Theorem collectNodeBundles_nil_after_every_node (E : Env) (w : World) :
  out (collectNodeBundles E w) = Returns None ->
  exists names,
    GetNodesListByLabels_returns E (NodeSelector (sbm w)) = inl names /\ names <> [] /\
    Forall (fun n => In n (arrivals E)) names /\
    nodesLock (sbm w) = false /\ done (sbm w) = false /\
    expectedNodes (sbm (post (collectNodeBundles E w))) = ∅ /\
    done (sbm (post (collectNodeBundles E w))) = true /\
    nodesLock (sbm (post (collectNodeBundles E w))) = false /\
    sends (events (collectNodeBundles E w)) = 1%nat.
Proof.
  intros Hr. destruct (fan_out_error E (sbm w)) as [err|] eqn:Hf.
  { apply collectNodeBundles_no_wait in Hf as [Ho _]. congruence. }
  apply fan_out_error_none in Hf as (names & Hn & Hne & Hc).
  exists names. split; [exact Hn|]. split; [exact Hne|].
  rewrite (collectNodeBundles_waits E w names Hn Hne Hc) in Hr |- *.
  destruct (waiting_fields names w) as (Hch & He & Hl & Hd).
  pose proof (serve_sound (arrivals E) (waiting names w) Hch) as Hs.
  destruct (serve (arrivals E) (waiting names w)) as [[[]|msg|] w2 t2];
    cbn [out post events] in *; try discriminate.
  destruct (Hs eq_refl) as (Hl0 & Hd0 & Hin & He2 & Hd2 & Hl2 & Hsn & _).
  split.
  { apply Forall_forall. intros n Hn'. apply Hin. rewrite He.
    apply expected_of_is_Some, list_elem_of_In. exact Hn'. }
  rewrite <- Hl, <- Hd. repeat split; try assumption.
  rewrite sends_fan_out, sends_after_wait. exact Hsn.
Qed.

Lemma collectNodeBundles_nil_after_every_node_witness :
  exists names,
    GetNodesListByLabels_returns env_all_report
      (NodeSelector (sbm (example_world "bundle-1" ten_minutes))) = inl names /\ names <> [] /\
    Forall (fun n => In n (arrivals env_all_report)) names /\
    nodesLock (sbm (example_world "bundle-1" ten_minutes)) = false /\
    done (sbm (example_world "bundle-1" ten_minutes)) = false /\
    expectedNodes (sbm (post (collectNodeBundles env_all_report
                                (example_world "bundle-1" ten_minutes)))) = ∅ /\
    done (sbm (post (collectNodeBundles env_all_report
                       (example_world "bundle-1" ten_minutes)))) = true /\
    nodesLock (sbm (post (collectNodeBundles env_all_report
                            (example_world "bundle-1" ten_minutes)))) = false /\
    sends (events (collectNodeBundles env_all_report
                     (example_world "bundle-1" ten_minutes))) = 1%nat.
Proof.
  apply (collectNodeBundles_nil_after_every_node env_all_report
           (example_world "bundle-1" ten_minutes)).
  vm_compute. reflexivity.
Defined.

(** X5. When the fan-out succeeds, the mutex is free, [done] is not set and
    every listed node is among the nodes that report, the wait of
    [collectNodeBundles] ends: it returns the result of the cleanup of the
    daemonset, the expected set is empty, [done] is set, and the events end
    with the one send on [m.ch], its receipt and the cleanup. *)
Theorem collectNodeBundles_completes (E : Env) (w : World) (names : list string) :
  GetNodesListByLabels_returns E (NodeSelector (sbm w)) = inl names -> names <> [] ->
  AgentDaemonSet_Create_returns E (ImageName (sbm w)) (callback_url (sbm w)) = None ->
  Forall (fun n => In n (arrivals E)) names ->
  nodesLock (sbm w) = false -> done (sbm w) = false ->
  out (collectNodeBundles E w) = Returns (cleanup_error E) /\
  expectedNodes (sbm (post (collectNodeBundles E w))) = ∅ /\
  done (sbm (post (collectNodeBundles E w))) = true /\
  sends (events (collectNodeBundles E w)) = 1%nat /\
  exists t, events (collectNodeBundles E w) =
              (fan_out (sbm w) names ++ t ++ [ChanSend; ChanRecv] ++ after_wait)%list.
Proof.
  intros Hn Hne Hc Hall Hl Hd.
  rewrite (collectNodeBundles_waits E w names Hn Hne Hc).
  destruct (waiting_fields names w) as (Hch & He & Hl1 & Hd1).
  assert (Hret : out (serve (arrivals E) (waiting names w)) = Returns tt).
  { apply serve_complete; try congruence.
    - rewrite He. apply expected_of_nonempty, Hne.
    - intros n Hn'. rewrite He in Hn'. apply expected_of_is_Some in Hn'.
      rewrite Forall_forall in Hall. apply Hall, list_elem_of_In. exact Hn'. }
  destruct (serve_sound (arrivals E) (waiting names w) Hch Hret)
    as (_ & _ & _ & He2 & Hd2 & _ & Hsn & t & Ht).
  destruct (serve (arrivals E) (waiting names w)) as [[[]|msg|] w2 t2];
    cbn [out post events] in *; try discriminate.
  repeat split; try assumption.
  - rewrite sends_fan_out, sends_after_wait. exact Hsn.
  - exists t. rewrite Ht, <- !app_assoc. reflexivity.
Qed.

Lemma collectNodeBundles_completes_witness :
  out (collectNodeBundles env_all_report (example_world "bundle-1" ten_minutes)) =
    Returns (cleanup_error env_all_report) /\
  expectedNodes (sbm (post (collectNodeBundles env_all_report
                              (example_world "bundle-1" ten_minutes)))) = ∅ /\
  done (sbm (post (collectNodeBundles env_all_report
                     (example_world "bundle-1" ten_minutes)))) = true /\
  sends (events (collectNodeBundles env_all_report
                   (example_world "bundle-1" ten_minutes))) = 1%nat /\
  exists t, events (collectNodeBundles env_all_report (example_world "bundle-1" ten_minutes)) =
              (fan_out (sbm (example_world "bundle-1" ten_minutes)) ["node-a"] ++ t ++
               [ChanSend; ChanRecv] ++ after_wait)%list.
Proof.
  apply (collectNodeBundles_completes env_all_report (example_world "bundle-1" ten_minutes)
           ["node-a"]); try reflexivity.
  - discriminate.
  - repeat constructor.
Defined.

Lemma calls_made_app t1 t2 : calls_made (t1 ++ t2) = (calls_made t1 ++ calls_made t2)%list.
Proof. apply omap_app. Qed.

Lemma calls_made_In fn args t : In (Call fn args) t <-> In (fn, args) (calls_made t).
Proof.
  unfold calls_made. rewrite <- !list_elem_of_In, list_elem_of_omap. split.
  - intros H. exists (Call fn args). split; [exact H | reflexivity].
  - intros (e & He & Hc). destruct e; try discriminate. injection Hc as -> ->. exact He.
Qed.

Lemma completeNode_no_calls node w : calls_made (events (completeNode node w)) = [].
Proof.
  destruct (nodesLock (sbm w)) eqn:Hl; [rewrite completeNode_locked by exact Hl; reflexivity|].
  assert (Hcases : (size (without node (sbm w)) = 0%nat /\ done (sbm w) = false) \/
                   (size (without node (sbm w)) <> 0%nat \/ done (sbm w) = true)).
  { destruct (decide (size (without node (sbm w)) = 0%nat)); destruct (done (sbm w)); auto. }
  destruct Hcases as [[Hs Hd]|Hq].
  - rewrite completeNode_last by assumption.
    destruct (ch (sbm w)) as [[[|]]|]; cbn [events]; unfold node_log;
      destruct (expectedNodes (sbm w) !! node); reflexivity.
  - rewrite completeNode_quiet by assumption. cbn [events]. unfold node_log.
    destruct (expectedNodes (sbm w) !! node); reflexivity.
Qed.

Lemma serve_no_calls names : forall w, calls_made (events (serve names w)) = [].
Proof.
  induction names as [|node rest IH]; intros w; [reflexivity|].
  rewrite serve_cons. pose proof (completeNode_no_calls node w) as Hc.
  destruct (completeNode node w) as [o w1 t1]. cbn [events] in Hc.
  specialize (IH w1).
  destruct (ch (sbm w1)) as [[[|]]|]; destruct (serve rest w1) as [o2 w2 t2];
    cbn [events] in *; rewrite calls_made_app, Hc; try exact IH; reflexivity.
Qed.

(** The outcomes of [collectNodeBundles]. *)
Lemma collectNodeBundles_outcomes E w :
  match out (collectNodeBundles E w) with
  | Returns r =>
      (fan_out_error E (sbm w) = r /\ r <> None /\
       ~ In ChanRecv (events (collectNodeBundles E w)) /\
       ~ In (Call "AgentDaemonSet.Cleanup" []) (events (collectNodeBundles E w))) \/
      (fan_out_error E (sbm w) = None /\ r = cleanup_error E /\
       In ChanRecv (events (collectNodeBundles E w)) /\
       In (Call "AgentDaemonSet.Cleanup" []) (events (collectNodeBundles E w)))
  | Blocks =>
      fan_out_error E (sbm w) = None /\
      ~ In ChanRecv (events (collectNodeBundles E w)) /\
      ~ In (Call "AgentDaemonSet.Cleanup" []) (events (collectNodeBundles E w)) /\
      In (Call "AgentDaemonSet.Create" [ImageName (sbm w); callback_url (sbm w)])
         (events (collectNodeBundles E w))
  | Panics _ => False
  end.
Proof.
  destruct (fan_out_error E (sbm w)) as [err|] eqn:Hf.
  { destruct (collectNodeBundles_no_wait E w err Hf) as (Ho & Hr & Hc & _).
    rewrite Ho. left. repeat split; auto; discriminate. }
  destruct (fan_out_error_none E (sbm w) Hf) as (names & Hn & Hne & Hc).
  rewrite (collectNodeBundles_waits E w names Hn Hne Hc).
  destruct (waiting_fields names w) as (Hch & _).
  pose proof (serve_sound (arrivals E) (waiting names w) Hch) as Hs.
  pose proof (serve_parked (arrivals E) (waiting names w) Hch) as Hp.
  pose proof (serve_no_calls (arrivals E) (waiting names w)) as Hcalls.
  destruct (serve (arrivals E) (waiting names w)) as [[[]|msg|] w2 t2];
    cbn [out post events] in *.
  - destruct (Hs eq_refl) as (_ & _ & _ & _ & _ & _ & _ & t & ->).
    right. repeat split.
    + rewrite !in_app_iff. right. left. right. cbn. auto.
    + rewrite !in_app_iff. right. right. cbn. auto.
  - destruct Hp as (Ho & _); discriminate.
  - destruct Hp as (_ & _ & Hnr); [discriminate|]. repeat split.
    + rewrite in_app_iff. intros [H|H]; [|exact (Hnr H)].
      cbn in H. destruct H as [H|[H|[H|[]]]]; discriminate.
    + rewrite in_app_iff. intros [H|H].
      * cbn in H. destruct H as [H|[H|[H|[]]]]; discriminate.
      * apply calls_made_In in H. rewrite Hcalls in H. destruct H.
    + rewrite in_app_iff. left. cbn. auto.
Qed.

(** X6. [collectNodeBundles] cleans the agent daemonset up exactly when its
    receive from [m.ch] completed, and the receive completes exactly when
    the fan-out succeeded and the function returns the result of the cleanup.
    When the fan-out fails its error is returned and the daemonset is left
    in place. The function never panics. *)
Theorem collectNodeBundles_cleans_up_after_the_wait_only (E : Env) (w : World) :
  (In (Call "AgentDaemonSet.Cleanup" []) (events (collectNodeBundles E w)) <->
   In ChanRecv (events (collectNodeBundles E w))) /\
  (In ChanRecv (events (collectNodeBundles E w)) <->
   out (collectNodeBundles E w) = Returns (cleanup_error E) /\ fan_out_error E (sbm w) = None) /\
  (fan_out_error E (sbm w) <> None ->
   out (collectNodeBundles E w) = Returns (fan_out_error E (sbm w))) /\
  (forall msg, out (collectNodeBundles E w) <> Panics msg).
Proof.
  pose proof (collectNodeBundles_outcomes E w) as H.
  destruct (out (collectNodeBundles E w)) as [r|msg|]; [| destruct H |].
  - destruct H as [(Hf & Hr & Hnr & Hnc)|(Hf & Hr & Hin & Hc)].
    + repeat split; try tauto; try congruence.
      intros [Ho Hn]. congruence.
    + repeat split; try tauto; try congruence.
  - destruct H as (Hf & Hnr & Hnc & _). repeat split; try tauto; try congruence.
    intros [Ho _]. discriminate.
Qed.

(** While the mutex is held the collection cannot complete. *)
Lemma collectNodeBundles_locked E w :
  nodesLock (sbm w) = true ->
  out (collectNodeBundles E w) <> Returns None /\
  sends (events (collectNodeBundles E w)) = 0%nat /\
  (fan_out_error E (sbm w) = None -> out (collectNodeBundles E w) = Blocks).
Proof.
  intros Hl. destruct (fan_out_error E (sbm w)) as [err|] eqn:Hf.
  { destruct (collectNodeBundles_no_wait E w err Hf) as (Ho & _ & _ & Hs).
    rewrite Ho. split; [discriminate|]. split; [exact Hs | discriminate]. }
  destruct (fan_out_error_none E (sbm w) Hf) as (names & Hn & Hne & Hc).
  rewrite (collectNodeBundles_waits E w names Hn Hne Hc).
  destruct (waiting_fields names w) as (Hch & _ & Hl1 & _).
  rewrite serve_locked by congruence. cbn [out events].
  split; [discriminate|]. split; [rewrite sends_fan_out; reflexivity | reflexivity].
Qed.

(** X7. A completion that empties the expected set while no receiver waits
    on [m.ch] (the channel is nil before [collectNodeBundles] has made it)
    parks in the send with [nodesLock] held, since the deferred unlock runs
    only when the function returns. From then on every call of
    [completeNode] parks at [Lock] without any effect, and a collection that
    is started then never returns nil and sees no send. *)
Theorem completeNode_without_receiver_keeps_the_lock (w : World) (node : string) :
  nodesLock (sbm w) = false -> done (sbm w) = false ->
  ch (sbm w) <> Some (Chan true) ->
  (forall n, is_Some (expectedNodes (sbm w) !! n) -> n = node) ->
  out (completeNode node w) = Blocks /\
  sends (events (completeNode node w)) = 0%nat /\
  nodesLock (sbm (post (completeNode node w))) = true /\
  done (sbm (post (completeNode node w))) = false /\
  (forall other,
     completeNode other (post (completeNode node w)) =
       Result Blocks (post (completeNode node w)) []) /\
  (forall E,
     out (collectNodeBundles E (post (completeNode node w))) <> Returns None /\
     sends (events (collectNodeBundles E (post (completeNode node w)))) = 0%nat).
Proof.
  intros Hl Hd Hc Hone.
  assert (Hs : size (without node (sbm w)) = 0%nat).
  { apply map_size_empty_iff, map_eq. intros n. rewrite lookup_empty, without_lookup.
    case_bool_decide as Hn; [reflexivity|].
    destruct (expectedNodes (sbm w) !! n) eqn:He; [|reflexivity].
    exfalso. apply Hn, Hone. rewrite He. eauto. }
  rewrite (completeNode_last node w Hl Hs Hd).
  assert (Hpost : forall w1 t,
    nodesLock (sbm w1) = true ->
    sends t = 0%nat -> done (sbm w1) = false ->
    out (Result (A := unit) Blocks w1 t) = Blocks /\ sends (events (Result (A := unit) Blocks w1 t)) = 0%nat /\
    nodesLock (sbm (post (Result (A := unit) Blocks w1 t))) = true /\
    done (sbm (post (Result (A := unit) Blocks w1 t))) = false /\
    (forall other, completeNode other (post (Result (A := unit) Blocks w1 t)) =
                     Result Blocks (post (Result (A := unit) Blocks w1 t)) []) /\
    (forall E, out (collectNodeBundles E (post (Result (A := unit) Blocks w1 t))) <> Returns None /\
               sends (events (collectNodeBundles E (post (Result (A := unit) Blocks w1 t)))) = 0%nat)).
  { intros w1 t Hl1 Hs1 Hd1. cbn [out post events]. repeat split; auto.
    - intros other. apply completeNode_locked, Hl1.
    - apply collectNodeBundles_locked, Hl1.
    - apply collectNodeBundles_locked, Hl1. }
  assert (Hlog : sends [node_log node (sbm w); Log DebugLevel "all nodes are completed." []] = 0%nat).
  { unfold node_log. destruct (expectedNodes (sbm w) !! node); reflexivity. }
  destruct (ch (sbm w)) as [[[|]]|]; [congruence| |]; apply Hpost; auto;
    destruct w as [[] ?]; cbn in *; auto.
Qed.

Lemma completeNode_without_receiver_keeps_the_lock_witness :
  out (completeNode "node-a" (example_world "bundle-1" ten_minutes)) = Blocks /\
  sends (events (completeNode "node-a" (example_world "bundle-1" ten_minutes))) = 0%nat /\
  nodesLock (sbm (post (completeNode "node-a" (example_world "bundle-1" ten_minutes)))) = true /\
  done (sbm (post (completeNode "node-a" (example_world "bundle-1" ten_minutes)))) = false /\
  (forall other,
     completeNode other (post (completeNode "node-a" (example_world "bundle-1" ten_minutes))) =
       Result Blocks (post (completeNode "node-a" (example_world "bundle-1" ten_minutes))) []) /\
  (forall E,
     out (collectNodeBundles E
            (post (completeNode "node-a" (example_world "bundle-1" ten_minutes)))) <> Returns None /\
     sends (events (collectNodeBundles E
            (post (completeNode "node-a" (example_world "bundle-1" ten_minutes))))) = 0%nat).
Proof.
  apply (completeNode_without_receiver_keeps_the_lock (example_world "bundle-1" ten_minutes)
           "node-a"); try reflexivity.
  - discriminate.
  - intros n [x Hx]. cbn in Hx. rewrite lookup_empty in Hx. discriminate.
Defined.

(** *** The node selector *)

Lemma append_cons c s t : String c s +:+ t = String c (s +:+ t).
Proof. reflexivity. Qed.

Lemma append_nil t : "" +:+ t = t.
Proof. reflexivity. Qed.

Lemma prefix_sep1 a c s : String.prefix (sep1 a) (String c s) = bool_decide (a = c).
Proof.
  unfold sep1. cbn [String.prefix]. destruct (ascii_dec a c) as [->|Hne].
  - rewrite bool_decide_eq_true_2 by reflexivity. destruct s; reflexivity.
  - rewrite bool_decide_eq_false_2 by exact Hne. reflexivity.
Qed.

Lemma split_from_cons a c s :
  split_from (sep1 a) 0 (String c s) =
    if bool_decide (a = c) then "" :: split_from (sep1 a) 0 s
    else cons_head c (split_from (sep1 a) 0 s).
Proof.
  cbn [split_from]. rewrite prefix_sep1. reflexivity.
Qed.

Lemma split_from_nonempty a s : split_from (sep1 a) 0 s <> [].
Proof.
  destruct s as [|c s]; [discriminate|]. rewrite split_from_cons.
  case_bool_decide; [discriminate|].
  destruct (split_from (sep1 a) 0 s); discriminate.
Qed.

(** A string without the separator is one field. *)
Lemma split_from_lacks a s : lacks a s -> split_from (sep1 a) 0 s = [s].
Proof.
  induction s as [|c s IH]; [reflexivity|]. intros [Hc Hs].
  rewrite split_from_cons, bool_decide_eq_false_2 by congruence.
  rewrite IH by exact Hs. reflexivity.
Qed.

(** A first field without the separator is split off. *)
Lemma split_from_join a s t :
  lacks a s -> split_from (sep1 a) 0 (s +:+ sep1 a +:+ t) = s :: split_from (sep1 a) 0 t.
Proof.
  induction s as [|c s IH].
  - intros _. rewrite append_nil. unfold sep1 at 2. rewrite append_cons, append_nil.
    rewrite split_from_cons, bool_decide_eq_true_2 by reflexivity. reflexivity.
  - intros [Hc Hs]. rewrite append_cons.
    rewrite split_from_cons, bool_decide_eq_false_2 by congruence.
    rewrite IH by exact Hs. reflexivity.
Qed.

(** No field contains the separator. *)
Lemma split_from_fields_lack a s : Forall (lacks a) (split_from (sep1 a) 0 s).
Proof.
  induction s as [|c s IH]; [repeat constructor|].
  rewrite split_from_cons. case_bool_decide as Hc.
  - constructor; [exact I | exact IH].
  - destruct (split_from (sep1 a) 0 s) as [|f fs]; cbn [cons_head].
    + repeat constructor. congruence.
    + apply Forall_cons in IH as [Hf Hfs]. constructor; [|exact Hfs].
      split; [congruence | exact Hf].
Qed.

Lemma parse_selectors_spec segments : forall acc w,
  parse_selectors segments acc w =
    Result (Returns (foldl (fun m kv => <[fst kv := snd kv]> m) acc (omap pair_of segments)))
           w (omap unparsed segments).
Proof.
  induction segments as [|s rest IH]; intros acc w; [reflexivity|].
  cbn [parse_selectors]. unfold omap at 1 2. cbn [list_omap].
  fold (omap pair_of rest). fold (omap unparsed rest).
  assert (Hu : unparsed s = match pair_of s with
                            | Some _ => None
                            | None => Some (Log WarnLevel "Unable to parse %s" [Str s])
                            end) by reflexivity.
  assert (Hp : pair_of s = match Split s "=" with
                           | [k; v] => Some (k, v)
                           | _ => None
                           end) by reflexivity.
  rewrite Hu, Hp. clear Hu Hp.
  destruct (Split s "=") as [|k [|v [|x l]]];
    first [ rewrite IH; reflexivity
          | unfold bind; msimpl; rewrite IH; reflexivity ].
Qed.

Lemma getNodeSelector_spec w :
  getNodeSelector w =
    Result (Returns (foldl (fun m kv => <[fst kv := snd kv]> m) ∅
                       (omap pair_of (if String.eqb (NodeSelector (sbm w)) "" then []
                                      else Split (NodeSelector (sbm w)) ","))))
           w
           (omap unparsed (if String.eqb (NodeSelector (sbm w)) "" then []
                           else Split (NodeSelector (sbm w)) ",")).
Proof.
  unfold getNodeSelector. unfold bind. msimpl.
  destruct (String.eqb (NodeSelector (sbm w)) ""); msimpl; [reflexivity|].
  rewrite parse_selectors_spec. reflexivity.
Qed.

(** The entries of a map built by inserting pairs one after the other. *)
Lemma foldl_insert_lookup (pairs : list (string * string)) :
  forall (acc : gmap string string) k v,
  foldl (fun m kv => <[fst kv := snd kv]> m) acc pairs !! k = Some v ->
  In (k, v) pairs \/ acc !! k = Some v.
Proof.
  induction pairs as [|[k0 v0] rest IH]; intros acc k v; cbn [foldl]; [auto|].
  intros H. apply IH in H as [H|H]; [left; right; exact H|].
  cbn [fst snd] in H. destruct (decide (k0 = k)) as [->|Hne].
  - rewrite lookup_insert_eq in H. injection H as ->. left. left. reflexivity.
  - rewrite lookup_insert_ne in H by exact Hne. right. exact H.
Qed.

Lemma pair_of_lacks s k v :
  pair_of s = Some (k, v) ->
  Split s "=" = [k; v] /\ lacks "=" k /\ lacks "=" v.
Proof.
  unfold pair_of. pose proof (split_from_fields_lack "=" s) as Hf.
  change (split_from (sep1 "=") 0 s) with (Split s "=") in Hf.
  destruct (Split s "=") as [|k' [|v' [|x l]]]; try discriminate.
  intros [= -> ->]. apply Forall_cons in Hf as [Hk Hv]. apply Forall_cons in Hv as [Hv _].
  auto.
Qed.

Lemma lacks_app a s t : lacks a (s +:+ t) <-> lacks a s /\ lacks a t.
Proof.
  induction s as [|c s IH]; [rewrite append_nil; cbn; tauto|].
  rewrite append_cons. cbn [lacks]. rewrite IH. tauto.
Qed.

(** A field of a split is made of characters of the string. *)
Lemma split_from_fields_lack_other a b s :
  lacks b s -> Forall (lacks b) (split_from (sep1 a) 0 s).
Proof.
  induction s as [|c s IH]; [repeat constructor|]. intros [Hc Hs].
  rewrite split_from_cons. specialize (IH Hs). case_bool_decide.
  - constructor; [exact I | exact IH].
  - destruct (split_from (sep1 a) 0 s) as [|f fs]; cbn [cons_head].
    + repeat constructor. exact Hc.
    + apply Forall_cons in IH as [Hf Hfs]. constructor; [|exact Hfs]. split; assumption.
Qed.

(** X1. [getNodeSelector] always returns a map and leaves the manager as
    it is. An empty selector gives the empty map and no warning. Every entry
    of the map is a segment [k=v] of the comma-separated selector, split at
    its one equals sign, so that neither the key nor the value holds a comma
    or an equals sign. A warning "Unable to parse" is logged for exactly the
    segments that do not split into two fields. *)
Theorem getNodeSelector_entries (w : World) :
  exists sel,
    out (getNodeSelector w) = Returns sel /\
    post (getNodeSelector w) = w /\
    (NodeSelector (sbm w) = "" -> sel = ∅ /\ events (getNodeSelector w) = []) /\
    (forall k v, sel !! k = Some v ->
       exists s, In s (Split (NodeSelector (sbm w)) ",") /\ Split s "=" = [k; v] /\
                 lacks "," k /\ lacks "=" k /\ lacks "," v /\ lacks "=" v) /\
    (forall s, In (Log WarnLevel "Unable to parse %s" [Str s]) (events (getNodeSelector w)) <->
               NodeSelector (sbm w) <> "" /\ In s (Split (NodeSelector (sbm w)) ",") /\
               length (Split s "=") <> 2%nat).
Proof.
  rewrite getNodeSelector_spec. eexists. split; [reflexivity|]. split; [reflexivity|].
  split; [|split].
  - intros ->. cbn. auto.
  - intros k v Hkv. apply foldl_insert_lookup in Hkv as [Hin|He]; [|rewrite lookup_empty in He; discriminate].
    apply list_elem_of_In, list_elem_of_omap in Hin as (s & Hs & Hp).
    apply pair_of_lacks in Hp as (Hsplit & Hk & Hv).
    destruct (String.eqb (NodeSelector (sbm w)) ""); [inversion Hs|].
    apply list_elem_of_In in Hs. exists s. split; [exact Hs|]. split; [exact Hsplit|].
    pose proof (split_from_fields_lack "," (NodeSelector (sbm w))) as Hf.
    change (split_from (sep1 ",") 0 (NodeSelector (sbm w))) with (Split (NodeSelector (sbm w)) ",") in Hf.
    rewrite Forall_forall in Hf. specialize (Hf s (proj2 (list_elem_of_In _ _) Hs)).
    pose proof (split_from_fields_lack_other "=" "," s Hf) as Hg.
    change (split_from (sep1 "=") 0 s) with (Split s "=") in Hg. rewrite Hsplit in Hg.
    apply Forall_cons in Hg as [Hk' Hg]. apply Forall_cons in Hg as [Hv' _]. auto.
  - intros s. cbn [events]. rewrite <- list_elem_of_In, list_elem_of_omap. split.
    + intros (s' & Hs' & Hu). unfold unparsed, pair_of in Hu.
      destruct (String.eqb (NodeSelector (sbm w)) "") eqn:He; [inversion Hs'|].
      apply String.eqb_neq in He. apply list_elem_of_In in Hs'.
      destruct (Split s' "=") as [|k [|v [|x l]]] eqn:Hsp; try discriminate;
        injection Hu as <-; rewrite Hsp; cbn; auto.
    + intros (Hne & Hs & Hlen). exists s. apply String.eqb_neq in Hne. rewrite Hne.
      split; [apply list_elem_of_In; exact Hs|]. unfold unparsed, pair_of.
      destruct (Split s "=") as [|k [|v [|x l]]]; try reflexivity. cbn in Hlen. congruence.
Qed.

Lemma Split_pair k v : lacks "=" k -> lacks "=" v -> Split (k +:+ "=" +:+ v) "=" = [k; v].
Proof.
  intros Hk Hv. change (Split (k +:+ "=" +:+ v) "=")
    with (split_from (sep1 "=") 0 (k +:+ sep1 "=" +:+ v)).
  rewrite split_from_join by exact Hk. rewrite split_from_lacks by exact Hv. reflexivity.
Qed.

Lemma append_assoc (s t u : string) : (s +:+ t) +:+ u = s +:+ (t +:+ u).
Proof. induction s as [|c s IH]; [reflexivity|]. rewrite !append_cons, IH. reflexivity. Qed.

Lemma selector_of_nonempty p pairs : selector_of (p :: pairs) <> "".
Proof.
  destruct p as [k v]. cbn [selector_of].
  assert (H : forall t, k +:+ "=" +:+ t <> "").
  { intros t. destruct k; discriminate. }
  destruct pairs; apply H.
Qed.

Lemma Split_selector_of pairs :
  Forall clean pairs -> pairs <> [] ->
  Split (selector_of pairs) "," = map (fun kv => fst kv +:+ "=" +:+ snd kv) pairs.
Proof.
  induction pairs as [|[k v] rest IH]; [congruence|]. intros Hc _.
  apply Forall_cons in Hc as [(Hk & _ & Hv & _) Hrest]. cbn [fst snd] in *.
  assert (Hkv : lacks "," (k +:+ "=" +:+ v)).
  { apply lacks_app. split; [exact Hk|]. apply lacks_app. split; [|exact Hv].
    cbn. split; [discriminate | exact I]. }
  destruct rest as [|p rest].
  - cbn [selector_of map fst snd]. apply (split_from_lacks "," _ Hkv).
  - change (selector_of ((k, v) :: p :: rest))
      with (k +:+ "=" +:+ v +:+ "," +:+ selector_of (p :: rest)).
    specialize (IH Hrest ltac:(discriminate)).
    change (map (fun kv => fst kv +:+ "=" +:+ snd kv) ((k, v) :: p :: rest))
      with ((k +:+ "=" +:+ v) :: map (fun kv => fst kv +:+ "=" +:+ snd kv) (p :: rest)).
    rewrite <- IH.
    change (Split (k +:+ "=" +:+ v +:+ "," +:+ selector_of (p :: rest)) ",")
      with (split_from (sep1 ",") 0 (k +:+ "=" +:+ v +:+ sep1 "," +:+ selector_of (p :: rest))).
    replace (k +:+ "=" +:+ v +:+ sep1 "," +:+ selector_of (p :: rest))
      with ((k +:+ "=" +:+ v) +:+ sep1 "," +:+ selector_of (p :: rest))
      by (rewrite !append_assoc; reflexivity).
    rewrite split_from_join by exact Hkv. reflexivity.
Qed.

Lemma foldl_insert_list_to_map (pairs : list (string * string)) :
  forall acc : gmap string string,
  foldl (fun m kv => <[fst kv := snd kv]> m) acc pairs =
  foldr (fun kv m => <[fst kv := snd kv]> m) acc (rev pairs).
Proof.
  induction pairs as [|p rest IH]; intros acc; [reflexivity|].
  cbn [foldl rev]. rewrite IH, foldr_app. reflexivity.
Qed.

(** X2. Parsing undoes printing: for the selector [k1=v1,k2=v2,...] written
    from keys and values without commas and equals signs, [getNodeSelector]
    returns the map of these pairs, a later pair overriding an earlier one
    of the same key, and logs no warning. *)
Theorem getNodeSelector_round_trip (w : World) (pairs : list (string * string)) :
  Forall clean pairs ->
  NodeSelector (sbm w) = selector_of pairs ->
  getNodeSelector w = Result (Returns (list_to_map (rev pairs))) w [].
Proof.
  intros Hc Hsel. rewrite getNodeSelector_spec, Hsel.
  destruct pairs as [|p rest]; [reflexivity|].
  pose proof (selector_of_nonempty p rest) as Hne. apply String.eqb_neq in Hne. rewrite Hne.
  rewrite Split_selector_of by (auto; discriminate).
  assert (Hp : forall l, Forall clean l ->
             omap pair_of (map (fun kv => fst kv +:+ "=" +:+ snd kv) l) = l /\
             omap unparsed (map (fun kv => fst kv +:+ "=" +:+ snd kv) l) = []).
  { induction l as [|[k v] l IH]; [split; reflexivity|]. intros Hl.
    apply Forall_cons in Hl as [(_ & Hk & _ & Hv) Hl]. cbn [fst snd] in *.
    destruct (IH Hl) as [IH1 IH2]. cbn [map fst snd].
    assert (Hpo : pair_of (k +:+ "=" +:+ v) = Some (k, v)).
    { unfold pair_of. rewrite Split_pair by assumption. reflexivity. }
    assert (Hun : unparsed (k +:+ "=" +:+ v) = None).
    { unfold unparsed. rewrite Hpo. reflexivity. }
    unfold omap in *. cbn [list_omap]. rewrite Hpo, Hun, IH1, IH2. split; reflexivity. }
  destruct (Hp _ Hc) as [-> ->].
  rewrite foldl_insert_list_to_map. do 2 f_equal.
Qed.

Lemma getNodeSelector_round_trip_witness :
  Forall clean [("zone", "a"); ("disk", "ssd"); ("zone", "b")] /\
  NodeSelector (sbm (selecting "zone=a,disk=ssd,zone=b")) =
    selector_of [("zone", "a"); ("disk", "ssd"); ("zone", "b")] /\
  getNodeSelector (selecting "zone=a,disk=ssd,zone=b") =
    Result (Returns (list_to_map [("zone", "b"); ("disk", "ssd"); ("zone", "a")]))
           (selecting "zone=a,disk=ssd,zone=b") [].
Proof.
  assert (Hc : Forall clean [("zone", "a"); ("disk", "ssd"); ("zone", "b")]).
  { repeat match goal with |- Forall _ _ => constructor end;
      unfold clean; cbn; repeat split; discriminate. }
  split; [exact Hc|]. split; [reflexivity|].
  exact (getNodeSelector_round_trip (selecting "zone=a,disk=ssd,zone=b")
           [("zone", "a"); ("disk", "ssd"); ("zone", "b")] Hc eq_refl).
Defined.

(** X8. When [check] returns nil it has settled the output directory, the
    configured one or, when none is configured, the directory
    [support-bundle-kit] under the temporary directory, which it stores in
    the manager and changes nothing else; its one call has created the
    working directory under it. A second [check] then returns nil again,
    with the same call, and leaves the manager as it is. *)
Theorem check_creates_working_dir (E : Env) (w : World) :
  out (check E w) = Returns None ->
  OutputDir (sbm (post (check E w))) = output_dir E (sbm w) /\
  post (check E w) = upd_sbm (set_OutputDir (output_dir E (sbm w))) w /\
  events (check E w) =
    [Call "os.MkdirAll" [filepath_Join E (output_dir E (sbm w)) "bundle"]] /\
  MkdirAll_returns E (filepath_Join E (output_dir E (sbm w)) "bundle") = None /\
  check E (post (check E w)) = Result (Returns None) (post (check E w)) (events (check E w)).
Proof.
  unfold output_dir. destruct_world w. unfold check, getWorkingDir. unfold bind. msimpl.
  destruct ns as [|n0 ns']; [discriminate|].
  destruct (len0 n0) eqn:H0; [discriminate|].
  destruct (String.eqb bn "") eqn:H1; [discriminate|].
  destruct (String.eqb ip "") eqn:H2; [discriminate|].
  destruct (String.eqb img "") eqn:H3; [discriminate|].
  destruct (String.eqb ipp "") eqn:H4; [discriminate|].
  destruct (String.eqb od "") eqn:H5; msimpl.
  - destruct (MkdirAll_returns E _) eqn:Hm; msimpl; [discriminate|]. intros _.
    repeat split; try reflexivity.
    msimpl. rewrite H0, H1, H2, H3, H4.
    destruct (String.eqb (filepath_Join E (TempDir_returns E) "support-bundle-kit") "");
      msimpl; rewrite Hm; reflexivity.
  - destruct (MkdirAll_returns E _) eqn:Hm; msimpl; [discriminate|]. intros _.
    repeat split; try reflexivity.
    msimpl. rewrite H0, H1, H2, H3, H4, H5. msimpl. rewrite Hm. reflexivity.
Qed.

Lemma check_creates_working_dir_witness :
  OutputDir (sbm (post (check env_all_report checked_world))) = "/tmp/support-bundle-kit" /\
  post (check env_all_report checked_world) =
    upd_sbm (set_OutputDir "/tmp/support-bundle-kit") checked_world /\
  events (check env_all_report checked_world) =
    [Call "os.MkdirAll" ["/tmp/support-bundle-kit/bundle"]] /\
  MkdirAll_returns env_all_report "/tmp/support-bundle-kit/bundle" = None /\
  check env_all_report (post (check env_all_report checked_world)) =
    Result (Returns None) (post (check env_all_report checked_world))
           (events (check env_all_report checked_world)).
Proof.
  exact (check_creates_working_dir env_all_report checked_world eq_refl).
Defined.

Ltac init_done :=
  eexists; split; [reflexivity|]; cbn [In calls_made omap list_omap];
  repeat split; intros; try reflexivity; try discriminate; try congruence;
  try (intuition (discriminate || congruence)).

(** X9. [phaseInit] always returns, and it starts the HTTP server exactly
    when it returns nil. Then every step before has succeeded, in this
    order: the working directory, the signal handler, the four clients, the
    state store, and a state lookup that gave the state Generating; the
    namespaces are the split namespace list and the signal context is set.
    The context is not touched unless the signal handler was set up, and a
    state other than Generating is reported as an invalid start state. *)
Theorem phaseInit_serves_after_every_step (E : Env) (w : World) :
  exists r, out (phaseInit E w) = Returns r /\
    (r = None <-> In (Call "go HttpServer.Run" []) (events (phaseInit E w))) /\
    (r = None ->
     calls_made (events (phaseInit E w)) = init_calls E (sbm w) /\
     GetState_returns E (PodNamespace_returns E) (BundleName (sbm w)) =
       inl (SupportBundleStateGenerating E) /\
     Namespaces (sbm (post (phaseInit E w))) = Split (NamespaceList (sbm w)) "," /\
     OutputDir (sbm (post (phaseInit E w))) = output_dir E (sbm w) /\
     PodNamespace (sbm (post (phaseInit E w))) = PodNamespace_returns E /\
     context (sbm (post (phaseInit E w))) = Some SignalContext) /\
    (In (Call "signals.SetupSignalHandler" []) (events (phaseInit E w)) \/
     context (sbm (post (phaseInit E w))) = context (sbm w)) /\
    (forall state,
       In (Call "state.GetState" [PodNamespace_returns E; BundleName (sbm w)])
          (events (phaseInit E w)) ->
       GetState_returns E (PodNamespace_returns E) (BundleName (sbm w)) = inl state ->
       state <> SupportBundleStateGenerating E ->
       r = Some ("invalid start state " +:+ state)).
Proof.
  unfold init_calls, output_dir. destruct_world w.
  unfold phaseInit, check, initClients, initStateStore, getWorkingDir. unfold bind. msimpl.
  destruct (Split nsl ",") as [|n0 ns'] eqn:Hsplit; msimpl; [init_done|].
  destruct (len0 n0); msimpl; [init_done|].
  destruct (String.eqb bn ""); msimpl; [init_done|].
  destruct (String.eqb ip ""); msimpl; [init_done|].
  destruct (String.eqb img ""); msimpl; [init_done|].
  destruct (String.eqb ipp ""); msimpl; [init_done|].
  destruct (String.eqb od ""); msimpl.
  all: destruct (MkdirAll_returns E _); msimpl; [init_done|].
  all: destruct (InClusterConfig_returns E); msimpl; [init_done|].
  all: destruct (NewKubernetesClient_returns E); msimpl; [init_done|].
  all: destruct (NewMetricsClient_returns E); msimpl; [init_done|].
  all: destruct (NewDiscoveryClient_returns E); msimpl; [init_done|].
  all: destruct (GetState_returns E (PodNamespace_returns E) bn) as [state|err] eqn:Hst;
    msimpl; [|init_done].
  all: destruct (String.eqb state (SupportBundleStateGenerating E)) eqn:Hgen; msimpl.
  all: try (apply String.eqb_eq in Hgen; subst state).
  all: try (apply String.eqb_neq in Hgen).
  all: init_done.
  all: symmetry; assumption.
Qed.

Lemma errors_recorded_loop t : errors_recorded t = omap error_of (loop_updates t).
Proof.
  unfold errors_recorded, loop_updates.
  induction t as [|e t IH]; [reflexivity|].
  destruct e as [| [] | | | |]; cbn in *; rewrite ?IH; reflexivity.
Qed.

Lemma errors_of_completed n ps : forall i, omap error_of (completed n i ps) = [].
Proof. induction ps as [|p ps IH]; intros i; [reflexivity|]. cbn. apply IH. Qed.

Lemma phases_of_completed n ps : forall i, omap phase_of (completed n i ps) = ps.
Proof. induction ps as [|p ps IH]; intros i; [reflexivity|]. cbn. rewrite IH. reflexivity. Qed.

Lemma progress_of_completed n ps : forall i,
  length (omap progress_of (completed n i ps)) = length ps.
Proof. induction ps as [|p ps IH]; intros i; [reflexivity|]. cbn. rewrite IH. reflexivity. Qed.

(** X10. A run records at most one error. When it records one, that is the
    last thing its loop records, the status carries the error flag and this
    message, and the failed phase was entered without a progress update. *)
Theorem Run_records_at_most_one_error (E : Env) (w : World) :
  (errors_recorded (events (Run E w)) = [] /\
   forall err, last (loop_updates (events (Run E w))) <> Some (SetError err)) \/
  (exists err,
     errors_recorded (events (Run E w)) = [err] /\
     last (loop_updates (events (Run E w))) = Some (SetError err) /\
     Error (status (sbm (post (Run E w)))) = true /\
     ErrorMessage (status (sbm (post (Run E w)))) = err /\
     length (phases_entered (events (Run E w))) =
       S (length (progress_recorded (events (Run E w))))).
Proof.
  destruct (run_phases_shape 5 (phases E) 0 w (tame_phases E)) as [_ (j & Hj & Hshape)].
  change (map fst (phases E)) with all_phases in Hshape.
  rewrite errors_recorded_loop, phases_entered_loop, progress_recorded_loop,
    Run_loop_updates, Run_post.
  destruct Hshape as [(Hj5 & Ho & Hl)|(p & Hp & [[Ho Hl]|(err & Ho & Hl & He & Hm)])];
    rewrite Hl.
  - left. split; [apply errors_of_completed|]. intros err. cbn. discriminate.
  - left. rewrite omap_app, errors_of_completed, last_snoc. split; [reflexivity | discriminate].
  - right. exists err.
    rewrite !omap_app, errors_of_completed, phases_of_completed, !length_app,
      progress_of_completed.
    change [SetPhase p; SetError err] with ([SetPhase p] ++ [SetError err])%list.
    rewrite app_assoc, last_snoc. cbn.
    repeat split; auto; try lia.
Qed.

(** X11. Whatever [Run] returns is nil, and it returns only once the signal
    has arrived, as its last event, also after a phase has failed. What the
    phases did is in the status only: without a recorded error all five
    phases were entered and the progress is 100; with one the error flag is
    set and the progress is the last one recorded. *)
Theorem Run_returns_nil_whatever_the_phases_did (E : Env) (w : World) (r : option error) :
  out (Run E w) = Returns r ->
  r = None /\
  signal_delivered E = true /\
  (exists t, events (Run E w) = (t ++ [ContextDone])%list) /\
  (errors_recorded (events (Run E w)) = [] ->
   phases_entered (events (Run E w)) = all_phases /\
   Progress (status (sbm (post (Run E w)))) = 100) /\
  (errors_recorded (events (Run E w)) <> [] ->
   Error (status (sbm (post (Run E w)))) = true /\
   (length (phases_entered (events (Run E w))) <= 5)%nat /\
   Progress (status (sbm (post (Run E w)))) =
     default (Progress (status (sbm w))) (last (progress_recorded (events (Run E w))))).
Proof.
  intros Hr. destruct (Run_returns_nil_after_signal E w r Hr) as (-> & Hsig & Hev).
  split; [reflexivity|]. split; [exact Hsig|]. split; [exact Hev|].
  pose proof (Run_out_loop E w None Hr) as Hloop.
  destruct (run_phases_shape 5 (phases E) 0 w (tame_phases E)) as [Hs (j & Hj & Hshape)].
  change (map fst (phases E)) with all_phases in Hshape.
  change (length (phases E)) with 5%nat in *.
  assert (Hpr : progress_recorded (events (Run E w)) =
                progress_recorded (events (run_phases 5 0 (phases E) w))).
  { rewrite !progress_recorded_loop, Run_loop_updates. reflexivity. }
  assert (Hprog : Progress (status (sbm (post (Run E w)))) =
                  default (Progress (status (sbm w))) (last (progress_recorded (events (Run E w))))).
  { rewrite Run_post, Hs, replay_Progress, <- progress_recorded_status, Hpr. reflexivity. }
  rewrite Hprog.
  rewrite errors_recorded_loop, phases_entered_loop, progress_recorded_loop, Run_loop_updates,
    Run_post.
  destruct Hshape as [(Hj5 & Ho & Hl)|(p & Hp & [[Ho Hl]|(err & Ho & Hl & He & Hm)])];
    [| contradiction |]; rewrite Hl.
  - split.
    + intros _. split; [apply phases_of_completed | reflexivity].
    + rewrite errors_of_completed. congruence.
  - rewrite !omap_app, errors_of_completed, phases_of_completed. cbn [omap list_omap error_of app].
    split; [discriminate|]. intros _. split; [exact He|]. split; [|reflexivity].
    rewrite length_app, length_take. cbn. apply lookup_lt_Some in Hp. cbn in Hp. lia.
Qed.

Lemma Run_returns_nil_whatever_the_phases_did_witness :
  signal_delivered env_rename_fails = true /\
  (exists t, events (Run env_rename_fails (example_world "bundle-1" ten_minutes)) =
             (t ++ [ContextDone])%list) /\
  (errors_recorded (events (Run env_rename_fails (example_world "bundle-1" ten_minutes))) = [] ->
   phases_entered (events (Run env_rename_fails (example_world "bundle-1" ten_minutes))) =
     all_phases /\
   Progress (status (sbm (post (Run env_rename_fails (example_world "bundle-1" ten_minutes))))) =
     100) /\
  (errors_recorded (events (Run env_rename_fails (example_world "bundle-1" ten_minutes))) <> [] ->
   Error (status (sbm (post (Run env_rename_fails (example_world "bundle-1" ten_minutes))))) =
     true /\
   (length (phases_entered (events (Run env_rename_fails
                                      (example_world "bundle-1" ten_minutes)))) <= 5)%nat /\
   Progress (status (sbm (post (Run env_rename_fails (example_world "bundle-1" ten_minutes))))) =
     default (Progress (status (sbm (example_world "bundle-1" ten_minutes))))
       (last (progress_recorded (events (Run env_rename_fails
                                           (example_world "bundle-1" ten_minutes)))))).
Proof.
  apply (Run_returns_nil_whatever_the_phases_did env_rename_fails
           (example_world "bundle-1" ten_minutes) None).
  vm_compute. reflexivity.
Defined.

(** *** The cluster bundle and its name *)


Lemma list_ascii_of_string_app s t :
  list_ascii_of_string (s +:+ t) = (list_ascii_of_string s ++ list_ascii_of_string t)%list.
Proof. induction s as [|c s IH]; [reflexivity|]. cbn. rewrite <- IH. reflexivity. Qed.

Lemma length_append s t : String.length (s +:+ t) = (String.length s + String.length t)%nat.
Proof. induction s as [|c s IH]; [reflexivity|]. cbn. rewrite <- IH. reflexivity. Qed.

Lemma substring_stem s t : String.substring 0 (String.length s) (s +:+ t) = s.
Proof.
  induction s as [|c s IH]; [destruct t; reflexivity|].
  cbn [String.length]. rewrite append_cons. cbn [String.substring]. rewrite IH. reflexivity.
Qed.

(** A name that ends in [.zip], and the same name under a directory. *)
Lemma Ext_zip_suffix path : Ext (path +:+ ".zip") = ".zip".
Proof.
  unfold Ext. rewrite list_ascii_of_string_app, rev_app_distr. reflexivity.
Qed.

Lemma HasSuffix_zip stem : HasSuffix (stem +:+ ".zip") ".zip" = true.
Proof.
  unfold HasSuffix, rev_string. rewrite list_ascii_of_string_app, rev_app_distr.
  cbn. destruct (string_of_list_ascii _); reflexivity.
Qed.

Lemma TrimSuffix_zip_suffix stem : TrimSuffix (stem +:+ ".zip") ".zip" = stem.
Proof.
  unfold TrimSuffix. rewrite HasSuffix_zip, length_append. cbn [String.length].
  replace (String.length stem + 4 - 4)%nat with (String.length stem) by lia.
  apply substring_stem.
Qed.

(** Replacing the colons leaves none, and keeps the length. *)
Lemma prefix_colon c s : String.prefix ":" (String c s) = bool_decide (":"%char = c).
Proof. apply (prefix_sep1 ":" c s). Qed.

Lemma replace_colons s :
  lacks ":" (ReplaceAll s ":" "-") /\
  String.length (ReplaceAll s ":" "-") = String.length s.
Proof.
  unfold ReplaceAll. induction s as [|c s [IH1 IH2]]; [split; [exact I | reflexivity]|].
  cbn [replace_from]. rewrite prefix_colon.
  change (String.length ":" - 1)%nat with 0%nat.
  case_bool_decide as Hc.
  - rewrite append_cons, append_nil. cbn [lacks String.length]. rewrite IH2.
    repeat split; [discriminate | exact IH1].
  - cbn [lacks String.length]. rewrite IH2. repeat split; [congruence | exact IH1].
Qed.

(** X13. The name that [GenerateClusterBundle] returns is
    [supportbundle_<uid>_<stamp>.zip] where the stamp is the creation time
    with every colon replaced: the stamp has the length of the time and no
    colon, so the name has no colon unless the UID has one; its extension is
    [.zip], and trimming [.zip] gives back the name without it. *)
Theorem GenerateClusterBundle_names_the_archive (E : Env) (bundleDir : string) (w : World)
    (name : string) :
  out (GenerateClusterBundle E bundleDir w) = Returns (name, None) ->
  exists uid stamp,
    GetNamespace_returns E (PodNamespace (sbm w)) = inl uid /\
    name = "supportbundle_" +:+ uid +:+ "_" +:+ stamp +:+ ".zip" /\
    lacks ":" stamp /\
    String.length stamp = String.length (Now_returns E) /\
    (lacks ":" uid -> lacks ":" name) /\
    Ext name = ".zip" /\
    TrimSuffix name ".zip" = "supportbundle_" +:+ uid +:+ "_" +:+ stamp.
Proof.
  intros Hr. destruct (GenerateClusterBundle_name E bundleDir w name Hr) as (uid & Hu & ->).
  destruct (replace_colons (Now_returns E)) as [Hl Hlen].
  exists uid, (ReplaceAll (Now_returns E) ":" "-"). unfold bundle_file_name.
  split; [exact Hu|]. split; [reflexivity|]. split; [exact Hl|]. split; [exact Hlen|].
  assert (Ha : "supportbundle_" +:+ uid +:+ "_" +:+ ReplaceAll (Now_returns E) ":" "-" +:+ ".zip" =
               ("supportbundle_" +:+ uid +:+ "_" +:+ ReplaceAll (Now_returns E) ":" "-") +:+ ".zip").
  { rewrite !append_assoc. reflexivity. }
  split; [|split].
  - intros Huid. rewrite !lacks_app. repeat split; try assumption; cbn; intuition discriminate.
  - rewrite Ha. apply Ext_zip_suffix.
  - rewrite Ha. apply TrimSuffix_zip_suffix.
Qed.

Lemma GenerateClusterBundle_names_the_archive_witness :
  exists uid stamp,
    GetNamespace_returns env_all_report
      (PodNamespace (sbm (example_world "bundle-1" ten_minutes))) = inl uid /\
    "supportbundle_0a1b2c_2021-03-04T05-06-07Z.zip" =
      "supportbundle_" +:+ uid +:+ "_" +:+ stamp +:+ ".zip" /\
    lacks ":" stamp /\
    String.length stamp = String.length (Now_returns env_all_report) /\
    (lacks ":" uid -> lacks ":" "supportbundle_0a1b2c_2021-03-04T05-06-07Z.zip") /\
    Ext "supportbundle_0a1b2c_2021-03-04T05-06-07Z.zip" = ".zip" /\
    TrimSuffix "supportbundle_0a1b2c_2021-03-04T05-06-07Z.zip" ".zip" =
      "supportbundle_" +:+ uid +:+ "_" +:+ stamp.
Proof.
  apply (GenerateClusterBundle_names_the_archive env_all_report "/out/bundle"
           (example_world "bundle-1" ten_minutes)).
  vm_compute. reflexivity.
Defined.

(** X14. When the bundle file name is [<stem>.zip] and the path of the
    bundle file ends with that name, [compressBundle] renames the working
    directory to [<stem>] under the output directory and, if the rename
    succeeds, zips the directory [<stem>] into [<stem>.zip]. *)
Theorem compressBundle_zips_the_directory_named_after_the_archive (E : Env) (w : World)
    (stem dir : string) :
  bundleFileName (sbm w) = stem +:+ ".zip" ->
  getBundlefile E (sbm w) = dir +:+ bundleFileName (sbm w) ->
  bundleDir_of E (sbm w) = stem /\
  (exists t, events (compressBundle E w) =
     Call "os.Rename" [getWorkingDir E (sbm w); filepath_Join E (OutputDir (sbm w)) stem] :: t) /\
  (Rename_returns E (getWorkingDir E (sbm w)) (filepath_Join E (OutputDir (sbm w)) stem) = None ->
   exists t, events (compressBundle E w) =
     Call "os.Rename" [getWorkingDir E (sbm w); filepath_Join E (OutputDir (sbm w)) stem] ::
     Call "zip" [OutputDir (sbm w); "-r"; dir +:+ stem +:+ ".zip"; stem] :: t).
Proof.
  intros Hname Hfile.
  assert (Hdir : bundleDir_of E (sbm w) = stem).
  { unfold bundleDir_of. rewrite Hfile, Hname, <- append_assoc, Ext_zip_suffix.
    apply TrimSuffix_zip_suffix. }
  split; [exact Hdir|].
  rewrite compressBundle_cases. unfold rename_call, zip_call, stat_call.
  rewrite Hdir, Hfile, Hname.
  destruct (Rename_returns E _ _); [split; [eauto | discriminate]|].
  destruct (zip_command_returns E _ _); [split; eauto|].
  destruct (Stat_Size_returns E _); split; eauto.
Qed.

Lemma compressBundle_zips_the_directory_named_after_the_archive_witness :
  bundleDir_of env_all_report (sbm packaging_world) =
    "supportbundle_0a1b2c_2021-03-04T05-06-07Z" /\
  (exists t, events (compressBundle env_all_report packaging_world) =
     Call "os.Rename" [getWorkingDir env_all_report (sbm packaging_world);
                       filepath_Join env_all_report (OutputDir (sbm packaging_world))
                         "supportbundle_0a1b2c_2021-03-04T05-06-07Z"] :: t) /\
  (Rename_returns env_all_report (getWorkingDir env_all_report (sbm packaging_world))
     (filepath_Join env_all_report (OutputDir (sbm packaging_world))
        "supportbundle_0a1b2c_2021-03-04T05-06-07Z") = None ->
   exists t, events (compressBundle env_all_report packaging_world) =
     Call "os.Rename" [getWorkingDir env_all_report (sbm packaging_world);
                       filepath_Join env_all_report (OutputDir (sbm packaging_world))
                         "supportbundle_0a1b2c_2021-03-04T05-06-07Z"] ::
     Call "zip" [OutputDir (sbm packaging_world); "-r";
                 "/out/" +:+ "supportbundle_0a1b2c_2021-03-04T05-06-07Z" +:+ ".zip";
                 "supportbundle_0a1b2c_2021-03-04T05-06-07Z"] :: t).
Proof.
  exact (compressBundle_zips_the_directory_named_after_the_archive env_all_report
           packaging_world "supportbundle_0a1b2c_2021-03-04T05-06-07Z" "/out/"
           eq_refl eq_refl).
Defined.

(** *** The log collector *)

Lemma seq_events (c k : M unit) w :
  out (c w) = Returns tt -> post (c w) = w ->
  out ((c >> k) w) = out (k w) /\ post ((c >> k) w) = post (k w) /\
  events ((c >> k) w) = (events (c w) ++ events (k w))%list.
Proof.
  unfold bind. destruct (c w) as [o w1 t1]. cbn [out post events].
  intros -> ->. destruct (k w) as [o2 w2 t2]. repeat split; reflexivity.
Qed.

Lemma listed_app t1 t2 : listed (t1 ++ t2) = (listed t1 ++ listed t2)%list.
Proof. apply omap_app. Qed.

Lemma streamed_app t1 t2 : streamed (t1 ++ t2) = (streamed t1 ++ streamed t2)%list.
Proof. apply omap_app. Qed.

Lemma created_app t1 t2 : created (t1 ++ t2) = (created t1 ++ created t2)%list.
Proof. apply omap_app. Qed.

(** What one log file adds to the trace. *)
Lemma streamLogToFile_trace C path w :
  out (streamLogToFile C path w) = Returns tt /\
  post (streamLogToFile C path w) = w /\
  listed (events (streamLogToFile C path w)) = [] /\
  streamed (events (streamLogToFile C path w)) = [] /\
  created (events (streamLogToFile C path w)) =
    match log_MkdirAll_returns C (Dir C path) with Some _ => [] | None => [path] end.
Proof.
  unfold streamLogToFile, Fprintf. unfold bind. msimpl.
  destruct (log_MkdirAll_returns C (Dir C path)); msimpl; [repeat split; reflexivity|].
  destruct (log_Create_returns C path); msimpl; [repeat split; reflexivity|].
  destruct (log_Copy_returns C path); msimpl; repeat split; reflexivity.
Qed.

(** What the logs of the containers of a pod add to the trace. *)
Lemma logs_of_containers_trace C logsDir ns pod containers : forall w,
  exists t,
    logs_of_containers C ns pod (Join C [logsDir; ns; pod]) containers w =
      Result (Returns tt) w t /\
    listed t = [] /\
    streamed t = map (fun container => (ns, pod, container)) containers /\
    created t =
      omap (fun container =>
              if reaches_create C logsDir (ns, pod, container)
              then Some (log_file C logsDir (ns, pod, container)) else None) containers.
Proof.
  induction containers as [|container rest IH]; intros w.
  { exists []. repeat split; reflexivity. }
  destruct (IH w) as (t1 & Hr & Hl & Hs & Hc). clear IH.
  pose proof (streamLogToFile_trace C (log_file C logsDir (ns, pod, container)) w)
    as (Ho1 & Hp1 & Hl1 & Hs1 & Hc1).
  cbn [logs_of_containers map]. unfold omap. cbn [list_omap].
  fold (omap (fun container =>
            if reaches_create C logsDir (ns, pod, container)
            then Some (log_file C logsDir (ns, pod, container)) else None) rest).
  unfold reaches_create at 1. unfold log_file in Ho1, Hp1, Hl1, Hs1, Hc1 |- *.
  unfold Fprintf. unfold bind. msimpl.
  destruct (Stream_returns C ns pod container); msimpl.
  - rewrite Hr. eexists. split; [reflexivity|].
    match goal with
    | |- context [?a :: ?b :: ?c :: t1] =>
        change (a :: b :: c :: t1) with ([a; b; c] ++ t1)%list
    end.
    rewrite !listed_app, !streamed_app, !created_app, Hl, Hs, Hc.
    repeat split; reflexivity.
  - destruct (streamLogToFile C (Join C [Join C [logsDir; ns; pod]; container +:+ ".log"]) w)
      as [o0 w0 t0].
    cbn [out post events] in *. subst o0 w0. msimpl. rewrite Hr.
    eexists. split; [reflexivity|].
    match goal with
    | |- context [?a :: ?b :: ((t0 ++ ?c) ++ t1)%list] =>
        change (a :: b :: ((t0 ++ c) ++ t1)%list) with ([a; b] ++ (t0 ++ c) ++ t1)%list
    end.
    rewrite !listed_app, !streamed_app, !created_app, Hl, Hs, Hc, Hl1, Hs1, Hc1.
    destruct (log_MkdirAll_returns C _); repeat split; reflexivity.
Qed.

(** What the logs of the pods of a namespace add to the trace. *)
Lemma logs_of_pods_trace C logsDir ns pods : forall w,
  exists t,
    logs_of_pods C logsDir ns pods w = Result (Returns tt) w t /\
    listed t = [] /\
    streamed t =
      flat_map (fun pod => map (fun container => (ns, Pod_Name pod, container))
                             (Pod_Containers pod)) pods /\
    created t =
      omap (fun c => if reaches_create C logsDir c then Some (log_file C logsDir c) else None)
        (flat_map (fun pod => map (fun container => (ns, Pod_Name pod, container))
                                (Pod_Containers pod)) pods).
Proof.
  induction pods as [|pod rest IH]; intros w.
  { exists []. repeat split; reflexivity. }
  destruct (IH w) as (t2 & Hr & Hl & Hs & Hc). clear IH.
  destruct (logs_of_containers_trace C logsDir ns (Pod_Name pod) (Pod_Containers pod) w)
    as (t1 & Hr1 & Hl1 & Hs1 & Hc1).
  cbn [logs_of_pods flat_map]. unfold bind. rewrite Hr1, Hr.
  exists (t1 ++ t2)%list. split; [reflexivity|].
  rewrite listed_app, streamed_app, created_app, Hl, Hs, Hc, Hl1, Hs1, Hc1, omap_app.
  repeat split. f_equal.
  generalize (Pod_Containers pod). intros cs. induction cs as [|c cs IHc]; [reflexivity|].
  unfold omap in *. cbn [list_omap map]. rewrite IHc. reflexivity.
Qed.

(** What the loop over the namespaces adds to the trace: it lists the pods
    of the namespaces up to the first listing that fails, this one
    included, and handles the containers of the namespaces before it. *)
Lemma logs_of_namespaces_trace C logsDir namespaces : forall w,
  exists t,
    logs_of_namespaces C logsDir namespaces w = Result (Returns tt) w t /\
    listed t = take (S (length (listable C namespaces))) namespaces /\
    streamed t = flat_map (containers_in C) (listable C namespaces) /\
    created t =
      omap (fun c => if reaches_create C logsDir c then Some (log_file C logsDir c) else None)
        (flat_map (containers_in C) (listable C namespaces)) /\
    ((if decide (listable C namespaces = namespaces) then 0 else 1) <= length (reported t))%nat.
Proof.
  induction namespaces as [|ns rest IH]; intros w.
  { exists []. repeat split; reflexivity. }
  destruct (IH w) as (t2 & Hr & Hl & Hs & Hc & Hrep). clear IH.
  cbn [logs_of_namespaces listable]. unfold Fprintf, bind. msimpl.
  destruct (GetAllPodsList_returns C ns) as [err| |items] eqn:Hans; msimpl.
  - eexists. split; [reflexivity|]. do 3 (split; [reflexivity|]).
    rewrite decide_False by discriminate. cbn. lia.
  - eexists. split; [reflexivity|]. do 3 (split; [reflexivity|]).
    rewrite decide_False by discriminate. cbn. lia.
  - destruct (logs_of_pods_trace C logsDir ns items w) as (t1 & Hr1 & Hl1 & Hs1 & Hc1).
    rewrite Hr1, Hr. eexists. split; [reflexivity|].
    change (Call "k8s.GetAllPodsList" [ns] :: (t1 ++ t2)%list)
      with ([Call "k8s.GetAllPodsList" [ns]] ++ t1 ++ t2)%list.
    rewrite !listed_app, !streamed_app, !created_app, Hl, Hs, Hc, Hl1, Hs1, Hc1.
    assert (Hci : containers_in C ns =
                  flat_map (fun pod => map (fun container => (ns, Pod_Name pod, container))
                                         (Pod_Containers pod)) items).
    { unfold containers_in. rewrite Hans. reflexivity. }
    cbn [flat_map length]. rewrite Hci, omap_app.
    do 3 (split; [reflexivity|]).
    unfold reported in *. rewrite !omap_app, !length_app.
    destruct (decide (listable C rest = rest)) as [He|He].
    + rewrite decide_True by (f_equal; exact He). lia.
    + rewrite decide_False by (intros [= H]; contradiction). lia.
Qed.

Lemma generateSupportBundleLogs_trace C logsDir w :
  exists t,
    generateSupportBundleLogs C logsDir w = Result (Returns tt) w t /\
    listed t = take (S (length (listable C (log_namespaces (sbm w)))))
                 (log_namespaces (sbm w)) /\
    streamed t = flat_map (containers_in C) (listable C (log_namespaces (sbm w))) /\
    created t =
      omap (fun c => if reaches_create C logsDir c then Some (log_file C logsDir c) else None)
        (flat_map (containers_in C) (listable C (log_namespaces (sbm w)))) /\
    ((if decide (listable C (log_namespaces (sbm w)) = log_namespaces (sbm w)) then 0 else 1)
     <= length (reported t))%nat.
Proof.
  destruct (logs_of_namespaces_trace C logsDir (log_namespaces (sbm w)) w)
    as (t & Hr & H).
  exists t. split; [|exact H].
  unfold generateSupportBundleLogs. unfold bind. msimpl.
  unfold log_namespaces in Hr. cbn [app] in Hr. rewrite Hr. reflexivity.
Qed.

Lemma containers_in_ns C ns c : In c (containers_in C ns) -> fst (fst c) = ns.
Proof.
  unfold containers_in. destruct (GetAllPodsList_returns C ns) as [| |items]; try contradiction.
  rewrite in_flat_map. intros (pod & _ & Hc). apply in_map_iff in Hc as (x & <- & _).
  reflexivity.
Qed.

(** X15. [generateSupportBundleLogs] always returns and leaves the manager
    as it is. It lists the pods of the namespaces [default], [kube-system],
    [cattle-system] and then the configured ones, in this order, up to the
    first namespace whose pods cannot be listed, where it writes to the
    error log and returns: it requests the log streams of all containers of
    the namespaces before that one, in order, and none for a namespace that
    is not among them, although the pods of a later namespace could be
    listed. *)
Theorem generateSupportBundleLogs_stops_at_the_first_failed_listing
    (C : ClusterEnv) (logsDir : string) (w : World) :
  out (generateSupportBundleLogs C logsDir w) = Returns tt /\
  post (generateSupportBundleLogs C logsDir w) = w /\
  listed (events (generateSupportBundleLogs C logsDir w)) =
    take (S (length (listable C (log_namespaces (sbm w))))) (log_namespaces (sbm w)) /\
  streamed (events (generateSupportBundleLogs C logsDir w)) =
    flat_map (containers_in C) (listable C (log_namespaces (sbm w))) /\
  (forall ns pod container,
     In (ns, pod, container) (streamed (events (generateSupportBundleLogs C logsDir w))) ->
     In ns (listable C (log_namespaces (sbm w)))) /\
  (listable C (log_namespaces (sbm w)) <> log_namespaces (sbm w) ->
   reported (events (generateSupportBundleLogs C logsDir w)) <> []).
Proof.
  destruct (generateSupportBundleLogs_trace C logsDir w) as (t & -> & Hl & Hs & _ & Hrep).
  cbn [out post events]. split; [reflexivity|]. split; [reflexivity|].
  split; [exact Hl|]. split; [exact Hs|]. split.
  - intros ns pod container Hin. rewrite Hs, in_flat_map in Hin.
    destruct Hin as (ns' & Hns & Hc). apply containers_in_ns in Hc. cbn in Hc. subst ns'.
    exact Hns.
  - intros Hne Hnil. rewrite decide_False in Hrep by exact Hne. rewrite Hnil in Hrep.
    cbn in Hrep. lia.
Qed.


(** The collector on the example cluster. *)
Example generateSupportBundleLogs_example :
  listed (events (generateSupportBundleLogs example_cluster "/out/bundle/logs"
                    (tracking ["node-a"]))) = ["default"; "kube-system"] /\
  streamed (events (generateSupportBundleLogs example_cluster "/out/bundle/logs"
                      (tracking ["node-a"]))) =
    [("default", "web", "init"); ("default", "web", "app")] /\
  created (events (generateSupportBundleLogs example_cluster "/out/bundle/logs"
                     (tracking ["node-a"]))) = ["/out/bundle/logs/default/web/app.log"] /\
  reported (events (generateSupportBundleLogs example_cluster "/out/bundle/logs"
                      (tracking ["node-a"]))) =
    [("BUG: Support bundle: cannot get log for pod %v container %v: %v\n",
      ["web"; "init"; "container not found"]);
     ("Support bundle: cannot get pod list: %v\n", ["timeout"])].
Proof. vm_compute. repeat split; reflexivity. Qed.

(** *** Two runs *)

(** Every expected node reports: the run reaches Done with the archive
    recorded, tears the agents down, and returns nil once the process is
    signalled. *)
Example run_with_every_node_reporting :
  out (Run (example_env (inl ["node-a"; "node-b"]) None None None ["node-b"; "node-a"] true)
           (example_world "bundle-1" ten_minutes)) = Returns None /\
  status (sbm (post
    (Run (example_env (inl ["node-a"; "node-b"]) None None None ["node-b"; "node-a"] true)
         (example_world "bundle-1" ten_minutes)))) =
    {| Phase := Some ManagerPhaseDone; Error := false; ErrorMessage := "";
       Progress := 100; Filename := "supportbundle_0a1b2c_2021-03-04T05-06-07Z.zip";
       Filesize := 4096 |} /\
  In (Call "AgentDaemonSet.Cleanup" [])
     (events (Run (example_env (inl ["node-a"; "node-b"]) None None None ["node-b"; "node-a"] true)
                  (example_world "bundle-1" ten_minutes))).
Proof. vm_compute. split; [reflexivity|]. split; [reflexivity|]. tauto. Qed.

(** Three nodes are expected and two report: the run stays in the NodeBundle
    phase, with the third node still expected. *)
Example run_with_a_silent_node :
  out (Run (example_env (inl ["node-a"; "node-b"; "node-c"]) None None None
              ["node-a"; "node-c"] true)
           (example_world "bundle-1" ten_minutes)) = Blocks /\
  Phase (status (sbm (post
    (Run (example_env (inl ["node-a"; "node-b"; "node-c"]) None None None
            ["node-a"; "node-c"] true)
         (example_world "bundle-1" ten_minutes))))) = Some ManagerPhaseNodeBundle /\
  expectedNodes (sbm (post
    (Run (example_env (inl ["node-a"; "node-b"; "node-c"]) None None None
            ["node-a"; "node-c"] true)
         (example_world "bundle-1" ten_minutes)))) = {["node-b" := ""]}.
Proof. vm_compute. repeat split; reflexivity. Qed.

(** *** The functions of the Go library on examples *)

Example Split_empty : Go.Split "" "," = [""].
Proof. reflexivity. Qed.

Example Split_two : Go.Split "default,kube-system" "," = ["default"; "kube-system"].
Proof. reflexivity. Qed.

Example Split_leading : Go.Split ",a" "," = [""; "a"].
Proof. reflexivity. Qed.

Example Ext_zip : Go.Ext "/tmp/out/supportbundle_u_2021-01-01T00-00-00Z.zip" = ".zip".
Proof. reflexivity. Qed.

Example Ext_none : Go.Ext "/tmp/out.d/bundle" = "".
Proof. reflexivity. Qed.

Example TrimSuffix_zip : Go.TrimSuffix "supportbundle_u_t.zip" ".zip" = "supportbundle_u_t".
Proof. reflexivity. Qed.

Example ReplaceAll_colons : Go.ReplaceAll "2021-01-01T10:20:30Z" ":" "-" = "2021-01-01T10-20-30Z".
Proof. reflexivity. Qed.
